(** * ESPHome OTA uploader ([esphome/espota2.py]): a shallow embedding

    The client side of the ESPHome over-the-air update protocol.  Python
    values are modelled as follows.

    - an [int] is a [Z]; a byte received from the socket is a [Z] in
      [0, 256);
    - a [bytes] object and a [list] of ints are both [list Z];
    - a [str] is a Rocq [string], read as the UTF-8 encoding of the text;
    - a [float] is a primitive binary64 float, exactly as in CPython;
    - exceptions are values of [exn]; a computation that can raise returns
      an [outcome];
    - the socket, the standard error stream and the clock are gathered in
      one [world], threaded through the monad [M];
    - [while] loops take a fuel argument: [Diverge] is the outcome of a
      loop that did not finish within the fuel, and a loop that never
      finishes is one that yields [Diverge] for every fuel.

    Logging through [_LOGGER] has no effect on the protocol: the info and
    debug lines are left out; the error lines of [run_ota_impl_] and
    [run_ota] are kept, in order, with the state of the run. *)

From Stdlib Require Import ZArith List String Ascii Bool Lia.
From Stdlib Require Import Floats Uint63 DecimalString.
Import ListNotations.
Open Scope string_scope.
Open Scope list_scope.
Open Scope Z_scope.

(** ** Protocol constants (lines 15-50) *)

Definition RESPONSE_OK : Z := 0x00.
Definition RESPONSE_REQUEST_AUTH : Z := 0x01.

Definition RESPONSE_HEADER_OK : Z := 0x40.
Definition RESPONSE_AUTH_OK : Z := 0x41.
Definition RESPONSE_UPDATE_PREPARE_OK : Z := 0x42.
Definition RESPONSE_BIN_MD5_OK : Z := 0x43.
Definition RESPONSE_RECEIVE_OK : Z := 0x44.
Definition RESPONSE_UPDATE_END_OK : Z := 0x45.
Definition RESPONSE_SUPPORTS_COMPRESSION : Z := 0x46.
Definition RESPONSE_CHUNK_OK : Z := 0x47.

Definition RESPONSE_ERROR_MAGIC : Z := 0x80.
Definition RESPONSE_ERROR_UPDATE_PREPARE : Z := 0x81.
Definition RESPONSE_ERROR_AUTH_INVALID : Z := 0x82.
Definition RESPONSE_ERROR_WRITING_FLASH : Z := 0x83.
Definition RESPONSE_ERROR_UPDATE_END : Z := 0x84.
Definition RESPONSE_ERROR_INVALID_BOOTSTRAPPING : Z := 0x85.
Definition RESPONSE_ERROR_WRONG_CURRENT_FLASH_CONFIG : Z := 0x86.
Definition RESPONSE_ERROR_WRONG_NEW_FLASH_CONFIG : Z := 0x87.
Definition RESPONSE_ERROR_ESP8266_NOT_ENOUGH_SPACE : Z := 0x88.
Definition RESPONSE_ERROR_ESP32_NOT_ENOUGH_SPACE : Z := 0x89.
Definition RESPONSE_ERROR_NO_UPDATE_PARTITION : Z := 0x8A.
Definition RESPONSE_ERROR_MD5_MISMATCH : Z := 0x8B.
Definition RESPONSE_ERROR_UNKNOWN : Z := 0xFF.

Definition OTA_VERSION_1_0 : Z := 1.
Definition OTA_VERSION_2_0 : Z := 2.

Definition MAGIC_BYTES : list Z := [0x6C; 0x26; 0xF7; 0x5C; 0x45].

Definition FEATURE_SUPPORTS_COMPRESSION : Z := 0x01.

Definition UPLOAD_BLOCK_SIZE : Z := 8192.
Definition UPLOAD_BUFFER_SIZE : Z := UPLOAD_BLOCK_SIZE * 8.

(** ** Python built-ins used by the module *)

Module Py.

(** [len(x)] *)
Definition len {A : Type} (l : list A) : Z := Z.of_nat (List.length l).

(** [x[lo:hi]] for [0 <= lo], the only form the module uses. *)
Definition slice {A : Type} (l : list A) (lo hi : Z) : list A :=
  firstn (Z.to_nat (hi - lo)) (skipn (Z.to_nat lo) l).

(** [c * n] for a one-character string [c]: empty when [n <= 0]. *)
Definition str_mul (c : ascii) (n : Z) : string :=
  string_of_list_ascii (repeat c (Z.to_nat n)).

(** [str(n)] for an int. *)
Definition str_of_int (n : Z) : string := NilZero.string_of_int (Z.to_int n).

(** [s.encode()]: the UTF-8 bytes of a string. *)
Definition encode (s : string) : list Z :=
  map (fun c => Z.of_nat (nat_of_ascii c)) (list_ascii_of_string s).

Definition hex_digit (upper : bool) (d : Z) : ascii :=
  let digits := if upper then "0123456789ABCDEF" else "0123456789abcdef" in
  match get (Z.to_nat d) digits with
  | Some c => c
  | None => "?"%char
  end.

(** The hexadecimal digits of a non-negative int, most significant first. *)
Fixpoint hex_digits (fuel : nat) (upper : bool) (n : Z) (acc : string) : string :=
  let acc' := String (hex_digit upper (n mod 16)) acc in
  match fuel with
  | O => acc'
  | S fuel' => if n / 16 =? 0 then acc' else hex_digits fuel' upper (n / 16) acc'
  end.

(** [f"{n:02X}"]: upper-case hexadecimal, zero-padded to two characters. *)
Definition format_02X (n : Z) : string :=
  let body := hex_digits (Z.to_nat (Z.log2 (Z.abs n))) true (Z.abs n) EmptyString in
  if n <? 0 then "-" ++ body
  else if Nat.ltb (String.length body) 2 then "0" ++ body else body.

(** [bytes(l)] for a list of ints: every element must be in [range(256)]. *)
Definition in_byte_range (x : Z) : bool := (0 <=? x) && (x <? 256).

End Py.

Import Py.

(** ** Exceptions and outcomes *)

Inductive exn : Type :=
| OTAError (msg : string)
| OSError (err : string)
| IndexError
| ValueError
| OverflowError
| ZeroDivisionError
| UnicodeDecodeError.

Inductive outcome (A : Type) : Type :=
| Ok (a : A)
| Raise (e : exn)
| Diverge.

Arguments Ok {A} a.
Arguments Raise {A} e.
Arguments Diverge {A}.

(** ** The error decoder: [check_error] (lines 115-179) *)

(** The [expect] argument is either a bare response code or a list of
    codes; the call sites use both forms. *)
Inductive expect_arg : Type :=
| ExpCode (c : Z)
| ExpList (l : list Z).

(** Python truthiness of [expect]: an int is falsy when it is 0, a list
    when it is empty. *)
Definition truthy (expect : expect_arg) : bool :=
  match expect with
  | ExpCode c => negb (c =? 0)
  | ExpList [] => false
  | ExpList (_ :: _) => true
  end.

(** [if not isinstance(expect, (list, tuple)): expect = [expect]] *)
Definition as_list (expect : expect_arg) : list Z :=
  match expect with
  | ExpCode c => [c]
  | ExpList l => l
  end.

(** [dat in expect] *)
Definition py_in (dat : Z) (l : list Z) : bool := existsb (Z.eqb dat) l.

Definition MSG_MAGIC : string := "Error: Invalid magic byte".
Definition MSG_UPDATE_PREPARE : string :=
  "Error: Couldn't prepare flash memory for update. Is the binary too big? Please try restarting the ESP.".
Definition MSG_AUTH_INVALID : string :=
  "Error: Authentication invalid. Is the password correct?".
Definition MSG_WRITING_FLASH : string :=
  "Error: Wring OTA data to flash memory failed. See USB logs for more information.".
Definition MSG_UPDATE_END : string :=
  "Error: Finishing update failed. See the MQTT/USB logs for more information.".
Definition MSG_INVALID_BOOTSTRAPPING : string :=
  "Error: Please press the reset button on the ESP. A manual reset is required on the first OTA-Update after flashing via USB.".
Definition MSG_WRONG_CURRENT_FLASH_CONFIG : string :=
  "Error: ESP has been flashed with wrong flash size. Please choose the correct 'board' option (esp01_1m always works) and then flash over USB.".
Definition MSG_WRONG_NEW_FLASH_CONFIG : string :=
  "Error: ESP does not have the requested flash size (wrong board). Please choose the correct 'board' option (esp01_1m always works) and try uploading again.".
Definition MSG_ESP8266_NOT_ENOUGH_SPACE : string :=
  "Error: ESP does not have enough space to store OTA file. Please try flashing a minimal firmware (remove everything except ota)".
Definition MSG_ESP32_NOT_ENOUGH_SPACE : string :=
  "Error: The OTA partition on the ESP is too small. ESPHome needs to resize this partition, please flash over USB.".
Definition MSG_NO_UPDATE_PARTITION : string :=
  "Error: The OTA partition on the ESP couldn't be found. ESPHome needs to create this partition, please flash over USB.".
Definition MSG_MD5_MISMATCH : string :=
  "Error: Application MD5 code mismatch. Please try again or flash over USB with a good quality cable.".
Definition MSG_UNKNOWN : string := "Unknown error from ESP".
Definition MSG_UNEXPECTED (dat : Z) : string :=
  "Unexpected response from ESP: 0x" ++ format_02X dat.

Definition check_error (data : list Z) (expect : expect_arg) : outcome unit :=
  if negb (truthy expect) then Ok tt
  else
    match data with
    | [] => Raise IndexError
    | dat :: _ =>
        if dat =? RESPONSE_ERROR_MAGIC then Raise (OTAError MSG_MAGIC)
        else if dat =? RESPONSE_ERROR_UPDATE_PREPARE then Raise (OTAError MSG_UPDATE_PREPARE)
        else if dat =? RESPONSE_ERROR_AUTH_INVALID then Raise (OTAError MSG_AUTH_INVALID)
        else if dat =? RESPONSE_ERROR_WRITING_FLASH then Raise (OTAError MSG_WRITING_FLASH)
        else if dat =? RESPONSE_ERROR_UPDATE_END then Raise (OTAError MSG_UPDATE_END)
        else if dat =? RESPONSE_ERROR_INVALID_BOOTSTRAPPING then
          Raise (OTAError MSG_INVALID_BOOTSTRAPPING)
        else if dat =? RESPONSE_ERROR_WRONG_CURRENT_FLASH_CONFIG then
          Raise (OTAError MSG_WRONG_CURRENT_FLASH_CONFIG)
        else if dat =? RESPONSE_ERROR_WRONG_NEW_FLASH_CONFIG then
          Raise (OTAError MSG_WRONG_NEW_FLASH_CONFIG)
        else if dat =? RESPONSE_ERROR_ESP8266_NOT_ENOUGH_SPACE then
          Raise (OTAError MSG_ESP8266_NOT_ENOUGH_SPACE)
        else if dat =? RESPONSE_ERROR_ESP32_NOT_ENOUGH_SPACE then
          Raise (OTAError MSG_ESP32_NOT_ENOUGH_SPACE)
        else if dat =? RESPONSE_ERROR_NO_UPDATE_PARTITION then
          Raise (OTAError MSG_NO_UPDATE_PARTITION)
        else if dat =? RESPONSE_ERROR_MD5_MISMATCH then Raise (OTAError MSG_MD5_MISMATCH)
        else if dat =? RESPONSE_ERROR_UNKNOWN then Raise (OTAError MSG_UNKNOWN)
        else if negb (py_in dat (as_list expect)) then Raise (OTAError (MSG_UNEXPECTED dat))
        else Ok tt
    end.

(** ** The world: socket, standard error, clock *)

(** What the peer and the network do is an input of the model.  The
    receive script lists what successive [recv] calls find: a segment of
    at least one byte, of which [recv(n)] takes at most [n] and leaves the
    rest for the next call, or a transport error.  When the script is
    exhausted the peer has closed the connection in an orderly way and
    every [recv] returns the empty bytes object.  The send script gives the
    fate of successive [sendall] calls; when exhausted, sends succeed. *)
Inductive rx_item : Type :=
| Seg (b : Z) (bs : list Z)
| RxErr (err : string).

Inductive tx_item : Type :=
| TxOk
| TxErr (err : string).

Inductive sockopt : Type :=
| TCP_NODELAY (v : Z)
| SO_SNDBUF (v : Z).

(** Everything observable the program does, in order. *)
Inductive event : Type :=
| EvSetsockopt (o : sockopt)
| EvSettimeout (secs : Z)
| EvRecv (bufsize : Z) (data : list Z)
| EvRecvErr (bufsize : Z) (err : string)
| EvSend (data : list Z)
| EvSendErr (data : list Z) (err : string)
| EvClose
| EvProgress (block new_progress : Z) (status : string)
| EvStderr (text : string)
| EvSleep (secs : Z).

Record world : Type := mkWorld {
  rx : list rx_item;
  tx : list tx_item;
  closed : bool;
  trace : list event
}.

(** A freshly connected socket. *)
Definition connect (rx : list rx_item) (tx : list tx_item) : world :=
  mkWorld rx tx false [].

Definition emit (e : event) (w : world) : world :=
  mkWorld (rx w) (tx w) (closed w) (trace w ++ [e]).

(** State, exceptions and divergence. *)
Definition M (A : Type) : Type := world -> outcome A * world.

Definition ret {A : Type} (a : A) : M A := fun w => (Ok a, w).

Definition bind {A B : Type} (m : M A) (k : A -> M B) : M B :=
  fun w =>
    match m w with
    | (Ok a, w') => k a w'
    | (Raise e, w') => (Raise e, w')
    | (Diverge, w') => (Diverge, w')
    end.

Definition raise {A : Type} (e : exn) : M A := fun w => (Raise e, w).

Definition diverge {A : Type} : M A := fun w => (Diverge, w).

(** A pure computation that may raise. *)
Definition lift {A : Type} (o : outcome A) : M A := fun w => (o, w).

Declare Scope monad_scope.
Delimit Scope monad_scope with monad.
Notation "x <- m ;; k" := (bind m (fun x => k))
  (at level 61, m at next level, right associativity) : monad_scope.
Notation "m ;; k" := (bind m (fun _ => k))
  (at level 61, right associativity) : monad_scope.
Open Scope monad_scope.

(** [try: m  except E as err: h err]: [handler] picks the exceptions the
    clause catches. *)
Definition try_except {A : Type} (m : M A) (handler : exn -> option (M A)) : M A :=
  fun w =>
    match m w with
    | (Raise e, w') =>
        match handler e with
        | Some h => h w'
        | None => (Raise e, w')
        end
    | r => r
    end.

Definition except_OSError {A : Type} (h : string -> M A) (e : exn) : option (M A) :=
  match e with
  | OSError err => Some (h err)
  | _ => None
  end.

Definition except_OTAError {A : Type} (h : string -> M A) (e : exn) : option (M A) :=
  match e with
  | OTAError err => Some (h err)
  | _ => None
  end.

(** *** Socket primitives *)

Definition EBADF : string := "[Errno 9] Bad file descriptor".

(** [sock.recv(bufsize)] *)
Definition sock_recv (bufsize : Z) : M (list Z) :=
  fun w =>
    if closed w then (Raise (OSError EBADF), w)
    else if bufsize <? 0 then (Raise ValueError, w)
    else
      match rx w with
      | [] => (Ok [], emit (EvRecv bufsize []) w)
      | RxErr err :: rest =>
          (Raise (OSError err),
           emit (EvRecvErr bufsize err) (mkWorld rest (tx w) (closed w) (trace w)))
      | Seg b bs :: rest =>
          let got := firstn (Z.to_nat bufsize) (b :: bs) in
          let rest' :=
            match skipn (Z.to_nat bufsize) (b :: bs) with
            | [] => rest
            | b' :: bs' => Seg b' bs' :: rest
            end in
          (Ok got, emit (EvRecv bufsize got) (mkWorld rest' (tx w) (closed w) (trace w)))
      end.

(** [sock.sendall(data)] *)
Definition sock_sendall (data : list Z) : M unit :=
  fun w =>
    if closed w then (Raise (OSError EBADF), w)
    else
      match tx w with
      | TxErr err :: rest =>
          (Raise (OSError err),
           emit (EvSendErr data err) (mkWorld (rx w) rest (closed w) (trace w)))
      | TxOk :: rest =>
          (Ok tt, emit (EvSend data) (mkWorld (rx w) rest (closed w) (trace w)))
      | [] => (Ok tt, emit (EvSend data) w)
      end.

(** [sock.close()]: idempotent. *)
Definition sock_close : M unit :=
  fun w => (Ok tt, emit EvClose (mkWorld (rx w) (tx w) true (trace w))).

(** [sock.setsockopt(...)] *)
Definition sock_setsockopt (o : sockopt) : M unit :=
  fun w =>
    if closed w then (Raise (OSError EBADF), w)
    else (Ok tt, emit (EvSetsockopt o) w).

(** [sock.settimeout(secs)] *)
Definition sock_settimeout (secs : Z) : M unit :=
  fun w =>
    if closed w then (Raise (OSError EBADF), w)
    else (Ok tt, emit (EvSettimeout secs) w).

(** [sys.stderr.write(text); sys.stderr.flush()] *)
Definition stderr_write (text : string) : M unit :=
  fun w => (Ok tt, emit (EvStderr text) w).

(** [time.sleep(secs)] *)
Definition time_sleep (secs : Z) : M unit :=
  fun w => (Ok tt, emit (EvSleep secs) w).

(** ** Transport helpers (lines 83-112 and 182-193) *)

(** [decode] chooses between a list of ints and a bytes object; both are
    [list Z] here, so [list(data)] is the identity. *)
Definition recv_decode (amount : Z) (decode : bool) : M (list Z) :=
  data <- sock_recv amount ;;
  if negb decode then ret data else ret data.

(** The [while len(data) < amount] loop of [receive_exactly]. *)
Fixpoint receive_rest (fuel : nat) (amount : Z) (msg : string) (decode : bool)
    (data : list Z) : M (list Z) :=
  if len data <? amount then
    match fuel with
    | O => diverge
    | S fuel' =>
        data <- try_except
                  (more <- recv_decode (amount - len data) decode ;; ret (data ++ more))
                  (except_OSError (fun err =>
                     raise (OTAError ("Error receiving " ++ msg ++ ": " ++ err)))) ;;
        receive_rest fuel' amount msg decode data
    end
  else ret data.

Definition receive_exactly (fuel : nat) (amount : Z) (msg : string)
    (expect : expect_arg) (decode : bool) : M (list Z) :=
  let data : list Z := [] in
  data <- try_except
            (more <- recv_decode 1 decode ;; ret (data ++ more))
            (except_OSError (fun err =>
               raise (OTAError ("Error receiving acknowledge " ++ msg ++ ": " ++ err)))) ;;
  try_except
    (lift (check_error data expect))
    (except_OTAError (fun err =>
       sock_close ;; raise (OTAError ("Error " ++ msg ++ ": " ++ err)))) ;;
  receive_rest fuel amount msg decode data.

(** The argument of [send_check]: an int, a list of ints, a string, or
    bytes. *)
Inductive payload : Type :=
| PInt (n : Z)
| PList (l : list Z)
| PStr (s : string)
| PBytes (b : list Z).

(** [bytes(l)]: raises [ValueError] unless every element is in
    [range(256)]. *)
Definition bytes_of_list (l : list Z) : outcome (list Z) :=
  if forallb in_byte_range l then Ok l else Raise ValueError.

Definition send_check (data : payload) (msg : string) : M unit :=
  try_except
    (data <- lift (match data with
                   | PList l => bytes_of_list l
                   | PInt n => bytes_of_list [n]
                   | PStr s => Ok (encode s)
                   | PBytes b => Ok b
                   end) ;;
     sock_sendall data)
    (except_OSError (fun err => raise (OTAError ("Error sending " ++ msg ++ ": " ++ err)))).

(** ** Numbers: Python ints and floats *)

Module PyNum.

(** A Python number is an int or a binary64 float. *)
Inductive num : Type :=
| Int (n : Z)
| Float (f : float).

(** [float(n)]; exact below 2^53, far above any payload length. *)
Definition float_of_int (n : Z) : float :=
  if n <? 0 then PrimFloat.opp (PrimFloat.of_uint63 (Uint63.of_Z (- n)))
  else PrimFloat.of_uint63 (Uint63.of_Z n).

Definition to_float (x : num) : float :=
  match x with
  | Int n => float_of_int n
  | Float f => f
  end.

(** [x * y] *)
Definition mul (x y : num) : num :=
  match x, y with
  | Int a, Int b => Int (a * b)
  | _, _ => Float (PrimFloat.mul (to_float x) (to_float y))
  end.

(** [x >= y] *)
Definition ge (x y : num) : bool :=
  match x, y with
  | Int a, Int b => b <=? a
  | _, _ => PrimFloat.leb (to_float y) (to_float x)
  end.

(** [a / b] on ints: true division. *)
Definition true_div (a b : Z) : outcome num :=
  if b =? 0 then Raise ZeroDivisionError
  else Ok (Float (PrimFloat.div (float_of_int a) (float_of_int b))).

(** [int(x)]: truncation toward zero. *)
Definition int (x : num) : outcome Z :=
  match x with
  | Int n => Ok n
  | Float f =>
      match Prim2SF f with
      | S754_zero _ => Ok 0
      | S754_finite s m e =>
          let mag := if 0 <=? e then Z.shiftl (Zpos m) e else Z.shiftr (Zpos m) (- e) in
          Ok (if s then - mag else mag)
      | S754_infinity _ => Raise OverflowError
      | S754_nan => Raise ValueError
      end
  end.

(** [round(x)]: to the nearest int, ties to even. *)
Definition round (x : num) : outcome num :=
  match x with
  | Int n => Ok (Int n)
  | Float f =>
      match Prim2SF f with
      | S754_zero _ => Ok (Int 0)
      | S754_finite s m e =>
          let mag :=
            if 0 <=? e then Z.shiftl (Zpos m) e
            else
              let d := Z.shiftl 1 (- e) in
              let q := Zpos m / d in
              let r := Zpos m mod d in
              if 2 * r <? d then q
              else if d <? 2 * r then q + 1
              else if Z.even q then q else q + 1 in
          Ok (Int (if s then - mag else mag))
      | S754_infinity _ => Raise OverflowError
      | S754_nan => Raise ValueError
      end
  end.

End PyNum.

(** ** The progress reporter (lines 55-76) *)

Module ProgressBar.

Import PyNum.

Record t : Type := mk { last_progress : option Z }.

(** [__init__] *)
Definition init : t := mk None.

Definition CR : string := String "013"%char EmptyString.
Definition LF : string := String "010"%char EmptyString.

(** The text written for one render (line 70). *)
Definition text (block new_progress : Z) (status : string) : string :=
  CR ++ "Uploading: [" ++ str_mul "="%char block ++ str_mul " "%char (60 - block)
     ++ "] " ++ str_of_int new_progress ++ "% " ++ status.

(** [new_progress == self.last_progress] *)
Definition same_progress (new_progress : Z) (last : option Z) : bool :=
  match last with
  | Some p => new_progress =? p
  | None => false
  end.

(** [sys.stderr.write(text); sys.stderr.flush()] for the text of a render:
    the event keeps the three values the text is made of. *)
Definition render (block new_progress : Z) (status : string) : M unit :=
  fun w => (Ok tt, emit (EvProgress block new_progress status) w).

(** The bar is returned with its new state.  Were [round] to raise after
    [self.last_progress] has been assigned, the assignment would be lost
    here; the exception leaves [perform_ota], where the bar is a local
    variable. *)
Definition update (self : t) (progress : num) : M t :=
  let bar_length := 60 in
  let '(progress, status) :=
    if ge progress (Int 1) then (Int 1, ("Done..." ++ CR ++ LF)%string)
    else (progress, EmptyString) in
  new_progress <- lift (int (mul progress (Int 100))) ;;
  if same_progress new_progress (last_progress self) then ret self
  else
    let self := mk (Some new_progress) in
    rounded <- lift (round (mul (Int bar_length) progress)) ;;
    block <- lift (int rounded) ;;
    render block new_progress status ;;
    ret self.

Definition done (self : t) : M unit := stderr_write LF.

(** A caller feeding the bar a sequence of fractions. *)
Fixpoint updates (self : t) (fractions : list num) : M t :=
  match fractions with
  | [] => ret self
  | progress :: rest => self <- update self progress ;; updates self rest
  end.

End ProgressBar.

(** What an event wrote on standard error. *)
Definition written (e : event) : string :=
  match e with
  | EvProgress block new_progress status => ProgressBar.text block new_progress status
  | EvStderr text => text
  | _ => EmptyString
  end.

(** The percentages rendered, in order. *)
Fixpoint renders (tr : list event) : list Z :=
  match tr with
  | [] => []
  | EvProgress _ new_progress _ :: rest => new_progress :: renders rest
  | _ :: rest => renders rest
  end.

(** ** [hashlib.md5], after RFC 1321 *)

Module Hashlib.

Definition mask32 (x : Z) : Z := Z.land x 0xFFFFFFFF.

Definition rotl32 (x c : Z) : Z :=
  mask32 (Z.lor (Z.shiftl x c) (Z.shiftr x (32 - c))).

Definition not32 (x : Z) : Z := Z.lxor x 0xFFFFFFFF.

Definition shifts : list Z :=
  [7; 12; 17; 22; 7; 12; 17; 22; 7; 12; 17; 22; 7; 12; 17; 22;
   5; 9; 14; 20; 5; 9; 14; 20; 5; 9; 14; 20; 5; 9; 14; 20;
   4; 11; 16; 23; 4; 11; 16; 23; 4; 11; 16; 23; 4; 11; 16; 23;
   6; 10; 15; 21; 6; 10; 15; 21; 6; 10; 15; 21; 6; 10; 15; 21].

Definition sines : list Z :=
  [0xd76aa478; 0xe8c7b756; 0x242070db; 0xc1bdceee;
   0xf57c0faf; 0x4787c62a; 0xa8304613; 0xfd469501;
   0x698098d8; 0x8b44f7af; 0xffff5bb1; 0x895cd7be;
   0x6b901122; 0xfd987193; 0xa679438e; 0x49b40821;
   0xf61e2562; 0xc040b340; 0x265e5a51; 0xe9b6c7aa;
   0xd62f105d; 0x02441453; 0xd8a1e681; 0xe7d3fbc8;
   0x21e1cde6; 0xc33707d6; 0xf4d50d87; 0x455a14ed;
   0xa9e3e905; 0xfcefa3f8; 0x676f02d9; 0x8d2a4c8a;
   0xfffa3942; 0x8771f681; 0x6d9d6122; 0xfde5380c;
   0xa4beea44; 0x4bdecfa9; 0xf6bb4b60; 0xbebfbc70;
   0x289b7ec6; 0xeaa127fa; 0xd4ef3085; 0x04881d05;
   0xd9d4d039; 0xe6db99e5; 0x1fa27cf8; 0xc4ac5665;
   0xf4292244; 0x432aff97; 0xab9423a7; 0xfc93a039;
   0x655b59c3; 0x8f0ccc92; 0xffeff47d; 0x85845dd1;
   0x6fa87e4f; 0xfe2ce6e0; 0xa3014314; 0x4e0811a1;
   0xf7537e82; 0xbd3af235; 0x2ad7d2bb; 0xeb86d391].

(** Little-endian bytes of a word, and back. *)
Fixpoint le_bytes (count : nat) (x : Z) : list Z :=
  match count with
  | O => []
  | S count' => Z.land x 0xFF :: le_bytes count' (Z.shiftr x 8)
  end.

Fixpoint le_word (bs : list Z) : Z :=
  match bs with
  | [] => 0
  | b :: rest => Z.lor b (Z.shiftl (le_word rest) 8)
  end.

(** Message padding: a 1 bit, zeros up to 56 mod 64, the bit length. *)
Definition pad (msg : list Z) : list Z :=
  let n := len msg in
  let zeros := (55 - n) mod 64 in
  msg ++ [0x80] ++ repeat 0 (Z.to_nat zeros) ++ le_bytes 8 (8 * n).

Fixpoint words (count : nat) (block : list Z) : list Z :=
  match count with
  | O => []
  | S count' => le_word (firstn 4 block) :: words count' (skipn 4 block)
  end.

Definition state : Type := (Z * Z * Z * Z)%type.

Definition round_step (m : list Z) (st : state) (i : Z) : state :=
  let '(a, b, c, d) := st in
  let '(f, g) :=
    if i <? 16 then (Z.lor (Z.land b c) (Z.land (not32 b) d), i)
    else if i <? 32 then (Z.lor (Z.land d b) (Z.land (not32 d) c), (5 * i + 1) mod 16)
    else if i <? 48 then (Z.lxor (Z.lxor b c) d, (3 * i + 5) mod 16)
    else (Z.lxor c (Z.lor b (not32 d)), (7 * i) mod 16) in
  let f := mask32 (f + a + nth (Z.to_nat i) sines 0 + nth (Z.to_nat g) m 0) in
  (d, mask32 (b + rotl32 f (nth (Z.to_nat i) shifts 0)), b, c).

Definition compress (st : state) (block : list Z) : state :=
  let m := words 16 block in
  let '(a, b, c, d) := st in
  let '(a', b', c', d') := fold_left (round_step m) (map Z.of_nat (seq 0 64)) st in
  (mask32 (a + a'), mask32 (b + b'), mask32 (c + c'), mask32 (d + d')).

Fixpoint blocks (count : nat) (st : state) (data : list Z) : state :=
  match count with
  | O => st
  | S count' => blocks count' (compress st (firstn 64 data)) (skipn 64 data)
  end.

(** The 16-byte digest of a message. *)
Definition md5_digest (msg : list Z) : list Z :=
  let data := pad msg in
  let '(a, b, c, d) :=
    blocks (Nat.div (List.length data) 64)
           (0x67452301, 0xefcdab89, 0x98badcfe, 0x10325476) data in
  le_bytes 4 a ++ le_bytes 4 b ++ le_bytes 4 c ++ le_bytes 4 d.

(** Lower-case hexadecimal text of a byte string. *)
Fixpoint hexlify (bs : list Z) : string :=
  match bs with
  | [] => EmptyString
  | b :: rest => String (hex_digit false (b / 16)) (String (hex_digit false (b mod 16)) (hexlify rest))
  end.

(** A hash object: the bytes fed so far. *)
Record md5 : Type := mk { fed : list Z }.

(** [hashlib.md5(data)] *)
Definition new (data : list Z) : md5 := mk data.

(** [h.update(data)] *)
Definition update (h : md5) (data : list Z) : md5 := mk (fed h ++ data).

(** [h.hexdigest()] *)
Definition hexdigest (h : md5) : string := hexlify (md5_digest (fed h)).

End Hashlib.

(** ** [bytes.decode()]: strict UTF-8 *)

Definition in_range (lo hi b : Z) : bool := (lo <=? b) && (b <=? hi).

Definition continuation (b : Z) : bool := in_range 0x80 0xBF b.

(** Well-formed UTF-8 byte sequences (Unicode, table 3-7). *)
Fixpoint utf8_valid (bs : list Z) : bool :=
  match bs with
  | [] => true
  | b0 :: t0 =>
      if in_range 0x00 0x7F b0 then utf8_valid t0
      else
        match t0 with
        | [] => false
        | b1 :: t1 =>
            if in_range 0xC2 0xDF b0 then continuation b1 && utf8_valid t1
            else
              match t1 with
              | [] => false
              | b2 :: t2 =>
                  if in_range 0xE0 0xEF b0 then
                    (if b0 =? 0xE0 then in_range 0xA0 0xBF b1
                     else if b0 =? 0xED then in_range 0x80 0x9F b1
                     else continuation b1)
                    && continuation b2 && utf8_valid t2
                  else
                    match t2 with
                    | [] => false
                    | b3 :: t3 =>
                        in_range 0xF0 0xF4 b0
                        && (if b0 =? 0xF0 then in_range 0x90 0xBF b1
                            else if b0 =? 0xF4 then in_range 0x80 0x8F b1
                            else continuation b1)
                        && continuation b2 && continuation b3 && utf8_valid t3
                    end
              end
        end
  end.

Definition decode (raw : list Z) : outcome string :=
  if utf8_valid raw then
    Ok (string_of_list_ascii (map (fun b => ascii_of_nat (Z.to_nat b)) raw))
  else Raise UnicodeDecodeError.

(** ** The protocol engine: [perform_ota] (lines 196-311) *)

Definition MSG_NO_PASSWORD : string := "ESP requests password, but no password given!".

Definition MSG_UNSUPPORTED_VERSION (version : Z) : string :=
  "Device uses unsupported OTA version " ++ str_of_int version
    ++ ", this ESPHome supports (1, 2)".

(** [not password] *)
Definition is_empty (s : string) : bool :=
  match s with
  | EmptyString => true
  | String _ _ => false
  end.

(** The four bytes of [upload_size_encoded] (lines 256-261). *)
Definition encode_size (upload_size : Z) : list Z :=
  [Z.land (Z.shiftr upload_size 24) 0xFF;
   Z.land (Z.shiftr upload_size 16) 0xFF;
   Z.land (Z.shiftr upload_size 8) 0xFF;
   Z.land (Z.shiftr upload_size 0) 0xFF].

(** [hashlib.md5(password ++ nonce ++ cnonce).hexdigest()], fed in three
    updates (lines 242-246). *)
Definition auth_result (password nonce cnonce : string) : string :=
  let result_md5 := Hashlib.new [] in
  let result_md5 := Hashlib.update result_md5 (encode password) in
  let result_md5 := Hashlib.update result_md5 (encode nonce) in
  let result_md5 := Hashlib.update result_md5 (encode cnonce) in
  Hashlib.hexdigest result_md5.

Section Engine.

(** [gzip.compress(data, compresslevel=9)]: the output of zlib is not
    modelled; any function from bytes to bytes will do. *)
Variable gzip_compress : list Z -> list Z.

(** The [while True] loop of the Transfer step (lines 281-295).
    [fuel] bounds the iterations of this loop, [rfuel] those of the read
    loops it calls. *)
Fixpoint transfer_loop (rfuel fuel : nat) (version : Z) (upload_contents : list Z)
    (offset : Z) (progress : ProgressBar.t) : M ProgressBar.t :=
  match fuel with
  | O => diverge
  | S fuel' =>
      let upload_size := len upload_contents in
      let chunk := slice upload_contents offset (offset + UPLOAD_BLOCK_SIZE) in
      match chunk with
      | [] => ret progress
      | _ :: _ =>
          let offset := offset + len chunk in
          try_except
            (sock_sendall chunk ;;
             if OTA_VERSION_2_0 <=? version then
               receive_exactly rfuel 1 "chunk OK" (ExpCode RESPONSE_CHUNK_OK) true ;; ret tt
             else ret tt)
            (except_OSError (fun err =>
               stderr_write ProgressBar.LF ;;
               raise (OTAError ("Error sending data: " ++ err)))) ;;
          fraction <- lift (PyNum.true_div offset upload_size) ;;
          progress <- ProgressBar.update progress fraction ;;
          transfer_loop rfuel fuel' version upload_contents offset progress
      end
  end.

(** [file_contents] is what [file_handle.read()] returned; [random_repr]
    is [str(random.random())]. *)
Definition perform_ota (fuel : nat) (password : string) (file_contents : list Z)
    (random_repr : string) : M unit :=
  let file_size := len file_contents in
  (* Enable nodelay, we need it for phase 1 *)
  sock_setsockopt (TCP_NODELAY 1) ;;
  send_check (PList MAGIC_BYTES) "magic bytes" ;;

  reply <- receive_exactly fuel 2 "version" (ExpCode RESPONSE_OK) true ;;
  version <- lift (match reply with [_; version] => Ok version | _ => Raise ValueError end) ;;
  let supported_versions := [OTA_VERSION_1_0; OTA_VERSION_2_0] in
  if negb (py_in version supported_versions) then
    raise (OTAError (MSG_UNSUPPORTED_VERSION version))
  else
  (* Features *)
  send_check (PInt FEATURE_SUPPORTS_COMPRESSION) "features" ;;
  reply <- receive_exactly fuel 1 "features"
             (ExpList [RESPONSE_HEADER_OK; RESPONSE_SUPPORTS_COMPRESSION]) true ;;
  features <- lift (match reply with features :: _ => Ok features | [] => Raise IndexError end) ;;

  let upload_contents :=
    if features =? RESPONSE_SUPPORTS_COMPRESSION then gzip_compress file_contents
    else file_contents in

  reply <- receive_exactly fuel 1 "auth"
             (ExpList [RESPONSE_REQUEST_AUTH; RESPONSE_AUTH_OK]) true ;;
  auth <- lift (match reply with [auth] => Ok auth | _ => Raise ValueError end) ;;
  (if auth =? RESPONSE_REQUEST_AUTH then
     if is_empty password then raise (OTAError MSG_NO_PASSWORD)
     else
       raw <- receive_exactly fuel 32 "authentication nonce" (ExpList []) false ;;
       nonce <- lift (decode raw) ;;
       let cnonce := Hashlib.hexdigest (Hashlib.new (encode random_repr)) in

       send_check (PStr cnonce) "auth cnonce" ;;

       let result := auth_result password nonce cnonce in

       send_check (PStr result) "auth result" ;;
       receive_exactly fuel 1 "auth result" (ExpCode RESPONSE_AUTH_OK) true ;;
       ret tt
   else ret tt) ;;

  (* Set higher timeout during upload *)
  sock_settimeout 30 ;;

  let upload_size := len upload_contents in
  let upload_size_encoded := encode_size upload_size in
  send_check (PList upload_size_encoded) "binary size" ;;
  receive_exactly fuel 1 "binary size" (ExpCode RESPONSE_UPDATE_PREPARE_OK) true ;;

  let upload_md5 := Hashlib.hexdigest (Hashlib.new upload_contents) in

  send_check (PStr upload_md5) "file checksum" ;;
  receive_exactly fuel 1 "file checksum" (ExpCode RESPONSE_BIN_MD5_OK) true ;;

  (* Disable nodelay for transfer *)
  sock_setsockopt (TCP_NODELAY 0) ;;
  sock_setsockopt (SO_SNDBUF UPLOAD_BUFFER_SIZE) ;;

  let offset := 0 in
  let progress := ProgressBar.init in
  progress <- transfer_loop fuel fuel version upload_contents offset progress ;;
  ProgressBar.done progress ;;

  (* Enable nodelay for last checks *)
  sock_setsockopt (TCP_NODELAY 1) ;;

  receive_exactly fuel 1 "receive OK" (ExpCode RESPONSE_RECEIVE_OK) true ;;
  receive_exactly fuel 1 "Update end" (ExpCode RESPONSE_UPDATE_END_OK) true ;;
  send_check (PInt RESPONSE_OK) "end acknowledgement" ;;

  (* Do not connect logs until it is fully on *)
  time_sleep 1.

(** The body of the [with open(...)] block of [run_ota_impl_]
    (lines 341-350), for a socket that is already connected: the exit
    status on return, with the [finally] clause closing the socket on
    every exit. *)
Definition run_ota_connected (fuel : nat) (password : string) (file_contents : list Z)
    (random_repr : string) : M Z :=
  fun w =>
    match perform_ota fuel password file_contents random_repr w with
    | (Ok _, w') => (sock_close ;; ret 0) w'
    | (Raise (OTAError _), w') => (sock_close ;; ret 1) w'
    | (Raise e, w') => (sock_close ;; raise e) w'
    | (Diverge, w') => (Diverge, w')
    end.

End Engine.

(** *** Observations on a trace *)

(** The payloads of the successful [sendall] calls. *)
Fixpoint sent (tr : list event) : list (list Z) :=
  match tr with
  | [] => []
  | EvSend data :: rest => data :: sent rest
  | _ :: rest => sent rest
  end.

(** All the bytes [recv] returned. *)
Fixpoint received (tr : list event) : list Z :=
  match tr with
  | [] => []
  | EvRecv _ data :: rest => data ++ received rest
  | _ :: rest => received rest
  end.

(** The number of [recv] calls that reached the socket. *)
Fixpoint recv_calls (tr : list event) : nat :=
  match tr with
  | [] => O
  | EvRecv _ _ :: rest => S (recv_calls rest)
  | EvRecvErr _ _ :: rest => S (recv_calls rest)
  | _ :: rest => recv_calls rest
  end.

(** The events a computation added to the trace. *)
Definition events_since (w w' : world) : list event :=
  skipn (List.length (trace w)) (trace w').

(** A stand-in for the compressor, for running the model. *)
Definition toy_gzip (data : list Z) : list Z := [0x1f; 0x8b; 0x08] ++ data.

Definition nonce32 : list Z := encode "abcdefghijklmnopqrstuvwxyzABCDEF".

(** The integer percentage of a fraction, [int(min(fraction, 1) * 100)]. *)
Definition percentage (progress : PyNum.num) : outcome Z :=
  PyNum.int (PyNum.mul (if PyNum.ge progress (PyNum.Int 1) then PyNum.Int 1 else progress)
                       (PyNum.Int 100)).

(** No two neighbours of a list are equal. *)
Fixpoint no_stutter (l : list Z) : bool :=
  match l with
  | x :: (y :: _) as rest => negb (x =? y) && no_stutter rest
  | _ => true
  end.

(** ** The orchestrator: [run_ota_impl_] and [run_ota] (lines 314-361) *)

(** Of an address returned by [resolve_ip_address] the program uses the
    socket address [sa], and of it the host [sa[0]] and the port [sa[1]]. *)
Record sockaddr : Type := mkSockaddr { sa_host : string; sa_port : Z }.

(** What the network does when the program connects to an address: the
    error [connect] raises, or the scripts of the connection made. *)
Inductive connection : Type :=
| Refused (err : string)
| Accepted (rx : list rx_item) (tx : list tx_item).

(** [resolve_ip_address] belongs to [esphome.helpers]; what it does is an
    input of the model: the [EsphomeError] it raised, or the addresses it
    returned, each with what connecting to it will find. *)
Inductive resolution : Type :=
| ResolveError (err : string)
| Addresses (res : list (sockaddr * connection)).

(** [open(filename, "rb")]: the [OSError] it raised, or the bytes
    [file_handle.read()] returns. *)
Inductive firmware : Type :=
| Unreadable (err : string)
| Contents (data : list Z).

(** What a run leaves behind besides the sockets' own traces: the lines
    written with [_LOGGER.error], and every socket it created, in the
    order in which it was done with them. *)
Record host : Type := mkHost {
  logged : list string;
  made : list world
}.

Definition log_error (msg : string) (h : host) : host := mkHost (logged h ++ [msg]) (made h).

Definition keep_socket (sock : world) (h : host) : host := mkHost (logged h) (made h ++ [sock]).

Definition MSG_RESOLVE (remote_host : string) : string :=
  "Error resolving IP address of " ++ remote_host ++ ". Is it connected to WiFi?".
Definition MSG_STATIC_IP : string :=
  "(If this error persists, please set a static IP address: https://esphome.io/components/wifi.html#manual-ips)".
Definition MSG_CONNECT_FAILED (sa : sockaddr) (err : string) : string :=
  "Connecting to " ++ sa_host sa ++ " port " ++ str_of_int (sa_port sa) ++ " failed: " ++ err.
Definition MSG_CONNECTION_FAILED : string := "Connection failed.".

(** [socket.socket(af, socktype)]: a socket that is not connected yet. *)
Definition socket_socket : world := mkWorld [] [] false [].

(** [sock.connect(sa)] *)
Definition sock_connect (c : connection) : M unit :=
  fun w =>
    match c with
    | Refused err => (Raise (OSError err), w)
    | Accepted rx tx => (Ok tt, mkWorld rx tx (closed w) (trace w))
    end.

Section Orchestrator.

Variable gzip_compress : list Z -> list Z.

(** The [for r in res] loop (lines 328-353). *)
Fixpoint connect_loop (fuel : nat) (password : string) (file : firmware) (random_repr : string)
    (res : list (sockaddr * connection)) (h : host) : outcome Z * host :=
  match res with
  | [] => (Ok 1, log_error MSG_CONNECTION_FAILED h)
  | (sa, c) :: rest =>
      let sock := socket_socket in
      let sock := snd (sock_settimeout 10 sock) in
      match sock_connect c sock with
      | (Raise (OSError err), sock) =>
          let sock := snd (sock_close sock) in
          let h := log_error (MSG_CONNECT_FAILED sa err) (keep_socket sock h) in
          connect_loop fuel password file random_repr rest h
      | (Raise e, sock) => (Raise e, keep_socket sock h)
      | (Diverge, sock) => (Diverge, keep_socket sock h)
      | (Ok _, sock) =>
          match file with
          | Unreadable err => (Raise (OSError err), keep_socket sock h)
          | Contents file_contents =>
              match perform_ota gzip_compress fuel password file_contents random_repr sock with
              | (Ok _, sock) => (Ok 0, keep_socket (snd (sock_close sock)) h)
              | (Raise (OTAError err), sock) =>
                  (Ok 1, keep_socket (snd (sock_close sock)) (log_error err h))
              | (Raise e, sock) => (Raise e, keep_socket (snd (sock_close sock)) h)
              | (Diverge, sock) => (Diverge, keep_socket sock h)
              end
          end
      end
  end.

Definition run_ota_impl_ (fuel : nat) (remote_host : string) (resolved : resolution)
    (password : string) (file : firmware) (random_repr : string) : outcome Z * host :=
  let h := mkHost [] [] in
  match resolved with
  | ResolveError err =>
      let h := log_error (MSG_RESOLVE remote_host) h in
      let h := log_error MSG_STATIC_IP h in
      (Raise (OTAError err), h)
  | Addresses res => connect_loop fuel password file random_repr res h
  end.

Definition run_ota (fuel : nat) (remote_host : string) (resolved : resolution)
    (password : string) (file : firmware) (random_repr : string) : outcome Z * host :=
  match run_ota_impl_ fuel remote_host resolved password file random_repr with
  | (Raise (OTAError err), h) => (Ok 1, log_error err h)
  | r => r
  end.

End Orchestrator.

(** * Views on the model, and what the specification speaks of *)

(** The definitions below add nothing to the program: they name parts of
    it, or notions the properties are stated with. *)

(** The bytes with a diagnostic of their own, in the order the code tests
    them. *)
Definition named_errors : list (Z * string) :=
  [(RESPONSE_ERROR_MAGIC, MSG_MAGIC);
   (RESPONSE_ERROR_UPDATE_PREPARE, MSG_UPDATE_PREPARE);
   (RESPONSE_ERROR_AUTH_INVALID, MSG_AUTH_INVALID);
   (RESPONSE_ERROR_WRITING_FLASH, MSG_WRITING_FLASH);
   (RESPONSE_ERROR_UPDATE_END, MSG_UPDATE_END);
   (RESPONSE_ERROR_INVALID_BOOTSTRAPPING, MSG_INVALID_BOOTSTRAPPING);
   (RESPONSE_ERROR_WRONG_CURRENT_FLASH_CONFIG, MSG_WRONG_CURRENT_FLASH_CONFIG);
   (RESPONSE_ERROR_WRONG_NEW_FLASH_CONFIG, MSG_WRONG_NEW_FLASH_CONFIG);
   (RESPONSE_ERROR_ESP8266_NOT_ENOUGH_SPACE, MSG_ESP8266_NOT_ENOUGH_SPACE);
   (RESPONSE_ERROR_ESP32_NOT_ENOUGH_SPACE, MSG_ESP32_NOT_ENOUGH_SPACE);
   (RESPONSE_ERROR_NO_UPDATE_PARTITION, MSG_NO_UPDATE_PARTITION);
   (RESPONSE_ERROR_MD5_MISMATCH, MSG_MD5_MISMATCH);
   (RESPONSE_ERROR_UNKNOWN, MSG_UNKNOWN)].

Fixpoint lookup (dat : Z) (table : list (Z * string)) : option string :=
  match table with
  | [] => None
  | (code, msg) :: rest => if dat =? code then Some msg else lookup dat rest
  end.

(** The classifier as the specification words it: a named diagnostic for
    a listed error byte, otherwise acceptance exactly for the members of
    the expected set. *)
Definition classify (dat : Z) (expected : list Z) : outcome unit :=
  match lookup dat named_errors with
  | Some msg => Raise (OTAError msg)
  | None => if py_in dat expected then Ok tt else Raise (OTAError (MSG_UNEXPECTED dat))
  end.

(** One read of the helper: [data += recv_decode(sock, n)] under
    [except OSError], the message of the failure built by [describe]. *)
Definition read_more (n : Z) (decode : bool) (describe : string -> string)
    (data : list Z) : M (list Z) :=
  try_except
    (more <- recv_decode n decode ;; ret (data ++ more))
    (except_OSError (fun err => raise (OTAError (describe err)))).

(** What one read finds, by the head of the receive script. *)
Definition after_recv (n : Z) (w : world) : world :=
  match rx w with
  | [] => emit (EvRecv n []) w
  | RxErr err :: rest => emit (EvRecvErr n err) (mkWorld rest (tx w) (closed w) (trace w))
  | Seg b bs :: rest =>
      emit (EvRecv n (firstn (Z.to_nat n) (b :: bs)))
        (mkWorld
           match skipn (Z.to_nat n) (b :: bs) with
           | [] => rest
           | b' :: bs' => Seg b' bs' :: rest
           end (tx w) (closed w) (trace w))
  end.

Fixpoint last_opt {A : Type} (l : list A) : option A :=
  match l with
  | [] => None
  | [x] => Some x
  | _ :: rest => last_opt rest
  end.

(** The fractions 0.0, 0.001, 0.02 and 1.0 as binary64 values. *)
Definition sample_fractions : list PyNum.num :=
  [PyNum.Float 0x0p+0%float; PyNum.Float 0x1.0624dd2f1a9fcp-10%float;
   PyNum.Float 0x1.47ae147ae147bp-6%float; PyNum.Float 0x1p+0%float].

(** The successive chunks of [size] bytes of a byte string. *)
Fixpoint chunks_by (size fuel : nat) (data : list Z) : list (list Z) :=
  match fuel, data with
  | S fuel', _ :: _ => firstn size data :: chunks_by size fuel' (skipn size data)
  | _, _ => []
  end.

(** The block size as a [nat]. *)
Definition BLOCK : nat := Z.to_nat UPLOAD_BLOCK_SIZE.

(** The successive 8 KiB chunks of a payload. *)
Definition chunks (data : list Z) : list (list Z) := chunks_by BLOCK (List.length data) data.

(** The events on the socket, leaving out those on standard error. *)
Definition is_socket (e : event) : bool :=
  match e with
  | EvProgress _ _ _ | EvStderr _ | EvSleep _ => false
  | _ => true
  end.

Definition sockets (tr : list event) : list event := filter is_socket tr.

(** What a completed Transfer step does on the socket: each chunk, then,
    from version 2 on, the read of its acknowledgement. *)
Definition expected_events (version : Z) (cs : list (list Z)) : list event :=
  flat_map (fun c =>
              EvSend c :: if OTA_VERSION_2_0 <=? version then [EvRecv 1 [RESPONSE_CHUNK_OK]]
                          else []) cs.

(** Sending one chunk, with its acknowledgement from version 2 on: the
    [try] block of the Transfer loop (lines 287-293). *)
Definition send_chunk (rfuel : nat) (version : Z) (chunk : list Z) : M unit :=
  try_except
    (sock_sendall chunk ;;
     if OTA_VERSION_2_0 <=? version then
       receive_exactly rfuel 1 "chunk OK" (ExpCode RESPONSE_CHUNK_OK) true ;; ret tt
     else ret tt)
    (except_OSError (fun err =>
       stderr_write ProgressBar.LF ;;
       raise (OTAError ("Error sending data: " ++ err)))).

(** A computation is tame when it only adds to the trace and never
    raises [ZeroDivisionError]. *)
Definition tame {A : Type} (m : M A) : Prop :=
  forall w r w',
    m w = (r, w') ->
    (exists evs, trace w' = trace w ++ evs) /\ r <> Raise ZeroDivisionError.

(** The Auth step once the status byte has been read (lines 230-250). *)
Definition authenticate (fuel : nat) (password random_repr : string) (auth : Z) : M unit :=
  if auth =? RESPONSE_REQUEST_AUTH then
    if is_empty password then raise (OTAError MSG_NO_PASSWORD)
    else
      raw <- receive_exactly fuel 32 "authentication nonce" (ExpList []) false ;;
      nonce <- lift (decode raw) ;;
      let cnonce := Hashlib.hexdigest (Hashlib.new (encode random_repr)) in
      send_check (PStr cnonce) "auth cnonce" ;;
      let result := auth_result password nonce cnonce in
      send_check (PStr result) "auth result" ;;
      receive_exactly fuel 1 "auth result" (ExpCode RESPONSE_AUTH_OK) true ;;
      ret tt
  else ret tt.

(** Finalize (lines 298-311). *)
Definition finalize (fuel : nat) : M unit :=
  sock_setsockopt (TCP_NODELAY 1) ;;
  receive_exactly fuel 1 "receive OK" (ExpCode RESPONSE_RECEIVE_OK) true ;;
  receive_exactly fuel 1 "Update end" (ExpCode RESPONSE_UPDATE_END_OK) true ;;
  send_check (PInt RESPONSE_OK) "end acknowledgement" ;;
  time_sleep 1.

(** Transfer, then Finalize (lines 271-311). *)
Definition transfer_and_finalize (fuel : nat) (version : Z) (upload_contents : list Z) : M unit :=
  sock_setsockopt (TCP_NODELAY 0) ;;
  sock_setsockopt (SO_SNDBUF UPLOAD_BUFFER_SIZE) ;;
  progress <- transfer_loop fuel fuel version upload_contents 0 ProgressBar.init ;;
  ProgressBar.done progress ;;
  finalize fuel.

(** PrepareUpdate and ChecksumExchange, then the rest (lines 252-311). *)
Definition prepare_and_upload (fuel : nat) (version : Z) (upload_contents : list Z) : M unit :=
  sock_settimeout 30 ;;
  send_check (PList (encode_size (len upload_contents))) "binary size" ;;
  receive_exactly fuel 1 "binary size" (ExpCode RESPONSE_UPDATE_PREPARE_OK) true ;;
  send_check (PStr (Hashlib.hexdigest (Hashlib.new upload_contents))) "file checksum" ;;
  receive_exactly fuel 1 "file checksum" (ExpCode RESPONSE_BIN_MD5_OK) true ;;
  transfer_and_finalize fuel version upload_contents.

(** The bytes [send_check] writes for its argument. *)
Definition payload_bytes (data : payload) : outcome (list Z) :=
  match data with
  | PList l => bytes_of_list l
  | PInt n => bytes_of_list [n]
  | PStr s => Ok (encode s)
  | PBytes b => Ok b
  end.

(** The client nonce (line 237). *)
Definition client_nonce (random_repr : string) : string :=
  Hashlib.hexdigest (Hashlib.new (encode random_repr)).

(** The position of the PrepareUpdate message among the messages sent:
    the third, or the fifth after an authentication exchange. *)
Definition size_index (auth : Z) : nat :=
  if auth =? RESPONSE_REQUEST_AUTH then 4%nat else 2%nat.

(** The characters of lower-case hexadecimal text. *)
Definition is_lower_hex (c : ascii) : bool :=
  existsb (Ascii.eqb c) (list_ascii_of_string "0123456789abcdef").

Fixpoint string_forall (p : ascii -> bool) (s : string) : bool :=
  match s with
  | EmptyString => true
  | String c rest => p c && string_forall p rest
  end.

(** A computation indexed by fuel is steady when more fuel never changes
    a result: fuel only tells apart the runs that have not finished yet. *)
Definition steady {A : Type} (m : nat -> M A) : Prop :=
  forall fuel fuel' w r w',
    (fuel <= fuel')%nat -> m fuel w = (r, w') -> r <> Diverge -> m fuel' w = (r, w').

(** The bytes a receive script holds before its first error or its end,
    whatever their division into segments. *)
Fixpoint pending (script : list rx_item) : list Z :=
  match script with
  | [] => []
  | Seg b bs :: rest => b :: bs ++ pending rest
  | RxErr _ :: _ => []
  end.

(** The same socket with more events behind it. *)
Definition with_history (pre : list event) (w : world) : world :=
  mkWorld (rx w) (tx w) (closed w) (pre ++ trace w).

(** A computation is framed when it never looks at the events behind it:
    with a longer history it does the same and adds the same events. *)
Definition framed {A : Type} (m : M A) : Prop :=
  forall pre w, m (with_history pre w) = (fst (m w), with_history pre (snd (m w))).

(** The int a byte string stands for, most significant byte first. *)
Definition big_endian (bs : list Z) : Z := fold_left (fun acc b => acc * 256 + b) bs 0.

(** The value of a hexadecimal digit, of either case. *)
Definition hex_digit_value (c : ascii) : option Z :=
  let n := Z.of_nat (nat_of_ascii c) in
  if in_range 48 57 n then Some (n - 48)
  else if in_range 65 70 n then Some (n - 55)
  else if in_range 97 102 n then Some (n - 87)
  else None.

(** The int a hexadecimal text stands for. *)
Fixpoint hex_value (acc : Z) (s : string) : option Z :=
  match s with
  | EmptyString => Some acc
  | String c rest =>
      match hex_digit_value c with
      | Some d => hex_value (acc * 16 + d) rest
      | None => None
      end
  end.

(** The addresses at which the connection is refused. *)
Definition is_refused (r : sockaddr * connection) : bool :=
  match snd r with
  | Refused _ => true
  | Accepted _ _ => false
  end.

(** The socket of [run_ota_impl_] when [perform_ota] is called on it:
    connected, with the timeout of ten seconds set. *)
Definition session_start (rx : list rx_item) (tx : list tx_item) : world :=
  mkWorld rx tx false [EvSettimeout 10].

(** A socket that was refused: timeout set, then closed. *)
Definition refused_socket : world := mkWorld [] [] true [EvSettimeout 10; EvClose].

(** What is written to the log when the connection to an address fails. *)
Definition refusal (r : sockaddr * connection) : string :=
  match snd r with
  | Refused err => MSG_CONNECT_FAILED (fst r) err
  | Accepted _ _ => EmptyString
  end.

(** A computation is guarded when, run on an open socket, it leaves the
    socket open if it returns, raises only exceptions among [allowed], and
    runs out of fuel only once the stream has ended. *)
Definition guarded {A : Type} (allowed : exn -> Prop) (m : M A) : Prop :=
  forall w r w',
    m w = (r, w') ->
    closed w = false ->
    (forall a, r = Ok a -> closed w' = false)
    /\ (forall e, r = Raise e -> allowed e)
    /\ (r = Diverge -> rx w' = []).

(** The exceptions that are not an [OSError]. *)
Definition not_OSError (e : exn) : Prop := forall err, e <> OSError err.

(** What [run_ota_impl_] does at an address that accepts the connection
    (lines 340-350). *)
Definition session (gzip_compress : list Z -> list Z) (fuel : nat) (password : string)
    (file : firmware) (random_repr : string) (rx : list rx_item) (tx : list tx_item)
    (h : host) : outcome Z * host :=
  match file with
  | Unreadable err => (Raise (OSError err), keep_socket (session_start rx tx) h)
  | Contents data =>
      match perform_ota gzip_compress fuel password data random_repr (session_start rx tx) with
      | (Ok _, sock) => (Ok 0, keep_socket (snd (sock_close sock)) h)
      | (Raise (OTAError err), sock) =>
          (Ok 1, keep_socket (snd (sock_close sock)) (log_error err h))
      | (Raise e, sock) => (Raise e, keep_socket (snd (sock_close sock)) h)
      | (Diverge, sock) => (Diverge, keep_socket sock h)
      end
  end.

(** The host after the connection was refused at every address of [pre]. *)
Definition after_refusals (pre : list (sockaddr * connection)) : host :=
  mkHost (map refusal pre) (repeat refused_socket (List.length pre)).

(** Version and feature negotiation and the read of the auth byte
    (lines 203-229): what the device answered, as the version, the
    feature byte and the auth byte. *)
Definition negotiate (fuel : nat) : M (Z * Z * Z) :=
  sock_setsockopt (TCP_NODELAY 1) ;;
  send_check (PList MAGIC_BYTES) "magic bytes" ;;
  reply <- receive_exactly fuel 2 "version" (ExpCode RESPONSE_OK) true ;;
  version <- lift (match reply with [_; version] => Ok version | _ => Raise ValueError end) ;;
  if negb (py_in version [OTA_VERSION_1_0; OTA_VERSION_2_0]) then
    raise (OTAError (MSG_UNSUPPORTED_VERSION version))
  else
    send_check (PInt FEATURE_SUPPORTS_COMPRESSION) "features" ;;
    reply <- receive_exactly fuel 1 "features"
               (ExpList [RESPONSE_HEADER_OK; RESPONSE_SUPPORTS_COMPRESSION]) true ;;
    features <- lift (match reply with features :: _ => Ok features | [] => Raise IndexError end) ;;
    reply <- receive_exactly fuel 1 "auth"
               (ExpList [RESPONSE_REQUEST_AUTH; RESPONSE_AUTH_OK]) true ;;
    auth <- lift (match reply with [auth] => Ok auth | _ => Raise ValueError end) ;;
    ret (version, features, auth).

(** The steps of [perform_ota] that follow the negotiation. *)
Definition upload_after (gzip_compress : list Z -> list Z) (fuel : nat) (password : string)
    (file_contents : list Z) (random_repr : string) (answer : Z * Z * Z) : M unit :=
  let '(version, features, auth) := answer in
  authenticate fuel password random_repr auth ;;
  prepare_and_upload fuel version
    (if features =? RESPONSE_SUPPORTS_COMPRESSION then gzip_compress file_contents
     else file_contents).

(** A computation is quiet when it only adds to the trace and draws no
    progress bar. *)
Definition quiet {A : Type} (m : M A) : Prop :=
  forall w r w', m w = (r, w') -> exists evs, trace w' = trace w ++ evs /\ renders evs = [].

(** A computation is tidy when, started before any bar was drawn, it
    never draws the same percentage twice in a row. *)
Definition tidy {A : Type} (m : M A) : Prop :=
  forall w r w',
    m w = (r, w') -> renders (trace w) = [] -> no_stutter (renders (trace w')) = true.

(** The reads of the engine: the name and the expectation of every call
    of [receive_exactly] in [perform_ota]. *)
Definition engine_reads : list (string * expect_arg) :=
  [("version", ExpCode RESPONSE_OK);
   ("features", ExpList [RESPONSE_HEADER_OK; RESPONSE_SUPPORTS_COMPRESSION]);
   ("auth", ExpList [RESPONSE_REQUEST_AUTH; RESPONSE_AUTH_OK]);
   ("authentication nonce", ExpList []);
   ("auth result", ExpCode RESPONSE_AUTH_OK);
   ("binary size", ExpCode RESPONSE_UPDATE_PREPARE_OK);
   ("file checksum", ExpCode RESPONSE_BIN_MD5_OK);
   ("chunk OK", ExpCode RESPONSE_CHUNK_OK);
   ("receive OK", ExpCode RESPONSE_RECEIVE_OK);
   ("Update end", ExpCode RESPONSE_UPDATE_END_OK)].

(** The events of a [recv] or a [sendall] that raised. *)
Definition is_transport_error (ev : event) : bool :=
  match ev with
  | EvRecvErr _ _ | EvSendErr _ _ => true
  | _ => false
  end.

(** The connection was closed because the decoder refused a byte, at one
    of the reads listed: the events end with the read of that byte and
    the close, and the outcome is the [OTAError] of that refusal. *)
Definition closed_on_refusal {A : Type} (reads : list (string * expect_arg))
    (evs : list event) (r : outcome A) : Prop :=
  exists pre b msg expect diagnostic,
    evs = pre ++ [EvRecv 1 [b]; EvClose]
    /\ In (msg, expect) reads
    /\ check_error [b] expect = Raise (OTAError diagnostic)
    /\ r = Raise (OTAError ("Error " ++ msg ++ ": " ++ diagnostic)).

(** A transport error is never followed by a close, and never lost: when
    a [recv] or a [sendall] raised, the socket is open at the end and the
    outcome is an [OTAError]. *)
Definition error_reported {A : Type} (evs : list event) (r : outcome A)
    (closed_at_end : bool) : Prop :=
  forall ev,
    In ev evs ->
    is_transport_error ev = true ->
    closed_at_end = false /\ exists msg, r = Raise (OTAError msg).

(** A computation is disciplined when, run on an open socket, it closes
    the socket on a refusal of the decoder only, at one of the reads
    listed, and hands a transport error to its caller as an [OTAError],
    with the socket open. *)
Definition disciplined {A : Type} (reads : list (string * expect_arg)) (m : M A) : Prop :=
  forall w r w',
    m w = (r, w') ->
    closed w = false ->
    exists evs,
      trace w' = trace w ++ evs
      /\ (closed w' = true -> closed_on_refusal reads evs r)
      /\ error_reported evs r (closed w').

(** * Properties *)

(** ** Running the model *)

(** RFC 1321, appendix A.5. *)
Example md5_test_suite :
  Hashlib.hexdigest (Hashlib.new []) = "d41d8cd98f00b204e9800998ecf8427e"
  /\ Hashlib.hexdigest (Hashlib.new (encode "a")) = "0cc175b9c0f1b6a831c399e269772661"
  /\ Hashlib.hexdigest (Hashlib.new (encode "abc")) = "900150983cd24fb0d6963f7d28e17f72"
  /\ Hashlib.hexdigest (Hashlib.new (encode "message digest"))
     = "f96b697d7cb7938d525a2f31aaf161d0"
  /\ Hashlib.hexdigest (Hashlib.new (encode "abcdefghijklmnopqrstuvwxyz"))
     = "c3fcd3d76192e4007dfb496cca67e13b"
  /\ Hashlib.hexdigest
       (Hashlib.new (encode "ABCDEFGHIJKLMNOPQRSTUVWXYZabcdefghijklmnopqrstuvwxyz0123456789"))
     = "d174ab98d277d9f5a5611c2c9f419d9f"
  /\ Hashlib.hexdigest
       (Hashlib.new
          (encode "12345678901234567890123456789012345678901234567890123456789012345678901234567890"))
     = "57edf4a22be3c955ac49da2e2107b67a".
Proof. vm_compute. repeat split. Qed.

(** Scenario A of the specification: version 1, no compression, no
    authentication, a 100-byte payload in one chunk. *)
Example scenario_A :
  let '(r, w) :=
    perform_ota toy_gzip 2 EmptyString (repeat 7 100) "0.5"
      (connect [Seg 0x00 [1]; Seg 0x40 []; Seg 0x41 [0x42]; Seg 0x43 []; Seg 0x44 [0x45]] []) in
  r = Ok tt
  /\ sent (trace w)
     = [MAGIC_BYTES; [0x01]; [0; 0; 0; 100];
        encode (Hashlib.hexdigest (Hashlib.new (repeat 7 100))); repeat 7 100; [0x00]]
  /\ recv_calls (trace w) = 8%nat
  /\ closed w = false.
Proof. vm_compute. repeat split. Qed.

(** Scenario C: the device answers the checksum with 0x8B. *)
Example scenario_C :
  let '(r, w) :=
    perform_ota toy_gzip 2 EmptyString (repeat 7 100) "0.5"
      (connect [Seg 0x00 [1; 0x40; 0x41; 0x42; 0x8B; 0x44; 0x45]] []) in
  r = Raise (OTAError ("Error file checksum: " ++ MSG_MD5_MISMATCH))
  /\ closed w = true
  /\ List.length (sent (trace w)) = 4%nat.
Proof. vm_compute. repeat split. Qed.

(** ** The monad *)

Lemma bind_inv {A B : Type} (m : M A) (k : A -> M B) (w : world) (r : outcome B) (w' : world) :
  bind m k w = (r, w') ->
  (exists a w1, m w = (Ok a, w1) /\ k a w1 = (r, w'))
  \/ (exists e, m w = (Raise e, w') /\ r = Raise e)
  \/ (m w = (Diverge, w') /\ r = Diverge).
Proof.
  unfold bind. destruct (m w) as [[a | e |] w1]; intros H.
  - left. eauto.
  - right. left. inversion H. eauto.
  - right. right. inversion H. auto.
Qed.

Lemma trace_emit (e : event) (w : world) : trace (emit e w) = trace w ++ [e].
Proof. reflexivity. Qed.

(** ** The error decoder *)

Lemma check_error_falsy (data : list Z) (expect : expect_arg) :
  truthy expect = false -> check_error data expect = Ok tt.
Proof. intros H. unfold check_error. rewrite H. reflexivity. Qed.

Lemma check_error_empty (expect : expect_arg) :
  truthy expect = true -> check_error [] expect = Raise IndexError.
Proof. intros H. unfold check_error. rewrite H. reflexivity. Qed.

Lemma check_error_total (data : list Z) (expect : expect_arg) :
  check_error data expect <> Diverge.
Proof.
  unfold check_error. destruct (negb (truthy expect)); [discriminate |].
  destruct data as [| dat rest]; [discriminate |].
  repeat match goal with
         | |- (if ?c then _ else _) <> _ => destruct c; [discriminate |]
         end.
  discriminate.
Qed.

(** When the code validates at all, it classifies as specified. *)
Lemma check_error_classify (dat : Z) (rest : list Z) (expect : expect_arg) :
  truthy expect = true ->
  check_error (dat :: rest) expect = classify dat (as_list expect).
Proof.
  intros H. unfold check_error, classify. rewrite H. cbn [negb lookup named_errors].
  repeat match goal with
         | |- context [if ?c then _ else _] =>
             lazymatch c with
             | Z.eqb _ _ => destruct c; [reflexivity |]
             end
         end.
  destruct (py_in dat (as_list expect)); reflexivity.
Qed.

(** The thirteen diagnostics are pairwise distinct, and so are their
    bytes. *)
Lemma named_errors_distinct :
  NoDup (map fst named_errors) /\ NoDup (map snd named_errors)
  /\ List.length named_errors = 13%nat.
Proof.
  repeat split;
    repeat (constructor; [cbn; intros H; repeat (destruct H as [H | H]; [discriminate H |]); exact H |]);
    constructor.
Qed.

(** C2 (code defect).  The classifier is to map the error byte 0x80 to
    the invalid-magic diagnostic for every non-empty expected set.  For the
    expected set of the version step, the bare code [RESPONSE_OK], it
    accepts every byte instead: 0 is falsy, so [if not expect: return]
    leaves before any test. *)
Theorem check_error_response_ok_accepts_all :
  as_list (ExpCode RESPONSE_OK) = [0x00]
  /\ classify RESPONSE_ERROR_MAGIC (as_list (ExpCode RESPONSE_OK))
     = Raise (OTAError MSG_MAGIC)
  /\ check_error [RESPONSE_ERROR_MAGIC] (ExpCode RESPONSE_OK) = Ok tt
  /\ forall data : list Z, check_error data (ExpCode RESPONSE_OK) = Ok tt.
Proof. repeat split. Qed.

(** The defect seen from the engine: a device that rejects the magic
    bytes with 0x80 is taken to have accepted them, and the upload goes
    on. *)
Example invalid_magic_goes_unnoticed :
  fst (perform_ota toy_gzip 2 EmptyString [7] "0.5"
         (connect [Seg RESPONSE_ERROR_MAGIC [1; 0x40; 0x41; 0x42; 0x43; 0x44; 0x45]] []))
  = Ok tt.
Proof. vm_compute. reflexivity. Qed.

(** ** Traces *)

Lemma sent_app (a b : list event) : sent (a ++ b) = sent a ++ sent b.
Proof.
  induction a as [| e a IH]; [reflexivity |].
  destruct e; cbn; rewrite IH; reflexivity.
Qed.

Lemma received_app (a b : list event) : received (a ++ b) = received a ++ received b.
Proof.
  induction a as [| e a IH]; [reflexivity |].
  destruct e; cbn; rewrite IH; try reflexivity. now rewrite app_assoc.
Qed.

Lemma recv_calls_app (a b : list event) :
  recv_calls (a ++ b) = (recv_calls a + recv_calls b)%nat.
Proof.
  induction a as [| e a IH]; [reflexivity |].
  destruct e; cbn; rewrite IH; reflexivity.
Qed.

Lemma renders_app (a b : list event) : renders (a ++ b) = renders a ++ renders b.
Proof.
  induction a as [| e a IH]; [reflexivity |].
  destruct e; cbn; rewrite IH; reflexivity.
Qed.

Lemma events_since_app (w w' : world) (evs : list event) :
  trace w' = trace w ++ evs -> events_since w w' = evs.
Proof.
  intros H. unfold events_since. rewrite H.
  rewrite skipn_app, skipn_all, Nat.sub_diag. reflexivity.
Qed.

(** ** Socket primitives *)

Lemma len_nonneg {A : Type} (l : list A) : 0 <= len l.
Proof. unfold len. lia. Qed.

Lemma len_app {A : Type} (a b : list A) : len (a ++ b) = len a + len b.
Proof. unfold len. rewrite length_app. lia. Qed.

Lemma sock_recv_spec (n : Z) (w : world) (r : outcome (list Z)) (w' : world) :
  sock_recv n w = (r, w') ->
  closed w = false ->
  0 <= n ->
  closed w' = false /\ tx w' = tx w
  /\ ((exists data, r = Ok data /\ trace w' = trace w ++ [EvRecv n data] /\ len data <= n
                    /\ (data = [] -> 0 < n -> rx w = [] /\ rx w' = []))
      \/ (exists err, r = Raise (OSError err) /\ trace w' = trace w ++ [EvRecvErr n err])).
Proof.
  unfold sock_recv. intros H Hc Hn. rewrite Hc in H.
  destruct (Z.ltb_spec n 0) as [Hlt | _]; [lia |].
  destruct (rx w) as [| [b bs | err] rest] eqn:Hrx; inversion H; subst; clear H; cbn.
  - repeat split; auto. left. exists []. repeat split; auto.
  - repeat split; auto. left. eexists. split; [reflexivity |]. split; [reflexivity |]. split.
    + unfold len. rewrite length_firstn. cbn [List.length]. lia.
    + intros E Hpos. destruct (Z.to_nat n) eqn:En; [lia | discriminate E].
  - repeat split; auto. right. eauto.
Qed.

Lemma sock_sendall_spec (data : list Z) (w : world) (r : outcome unit) (w' : world) :
  sock_sendall data w = (r, w') ->
  closed w' = closed w /\ rx w' = rx w
  /\ ((r = Ok tt /\ trace w' = trace w ++ [EvSend data])
      \/ (exists err, r = Raise (OSError err)
                      /\ (trace w' = trace w ++ [EvSendErr data err] \/ trace w' = trace w))).
Proof.
  unfold sock_sendall. intros H.
  destruct (closed w) eqn:Hc.
  - inversion H; subst. repeat split; auto. right. eauto.
  - destruct (tx w) as [| [| err] rest]; inversion H; subst; cbn; repeat split; auto.
    right. eauto.
Qed.

(** ** The transport helpers *)

Lemma recv_decode_eq (amount : Z) (decode : bool) (w : world) :
  recv_decode amount decode w = sock_recv amount w.
Proof.
  unfold recv_decode, bind, ret.
  destruct (sock_recv amount w) as [[data | e |] w1]; destruct decode; reflexivity.
Qed.

Lemma read_more_spec (n : Z) (decode : bool) (describe : string -> string) (data : list Z)
    (w : world) (r : outcome (list Z)) (w' : world) :
  read_more n decode describe data w = (r, w') ->
  closed w = false ->
  0 <= n ->
  closed w' = false /\ tx w' = tx w
  /\ ((exists more, r = Ok (data ++ more) /\ trace w' = trace w ++ [EvRecv n more]
                    /\ len more <= n
                    /\ (more = [] -> 0 < n -> rx w = [] /\ rx w' = []))
      \/ (exists err, r = Raise (OTAError (describe err))
                      /\ trace w' = trace w ++ [EvRecvErr n err])).
Proof.
  unfold read_more, try_except, bind, ret. rewrite recv_decode_eq.
  intros H Hc Hn.
  destruct (sock_recv n w) as [r0 w0] eqn:E.
  destruct (sock_recv_spec _ _ _ _ E Hc Hn) as (Hc' & Htx & [(more & -> & Ht & Hl & He) | (err & -> & Ht)]).
  - inversion H; subst. repeat split; auto. left. exists more. auto.
  - cbn in H. inversion H; subst. repeat split; auto. right. eauto.
Qed.

Lemma read_more_run (n : Z) (decode : bool) (describe : string -> string) (data : list Z)
    (w : world) :
  closed w = false ->
  0 <= n ->
  read_more n decode describe data w
  = (match rx w with
     | [] => Ok (data ++ [])
     | RxErr err :: _ => Raise (OTAError (describe err))
     | Seg b bs :: _ => Ok (data ++ firstn (Z.to_nat n) (b :: bs))
     end, after_recv n w).
Proof.
  intros Hc Hn.
  unfold read_more, try_except, bind, ret, after_recv. rewrite recv_decode_eq.
  unfold sock_recv. rewrite Hc.
  destruct (Z.ltb_spec n 0) as [Hlt | _]; [lia |].
  destruct (rx w) as [| [b bs | err] rest]; reflexivity.
Qed.

Lemma receive_rest_unfold (fuel : nat) (amount : Z) (msg : string) (decode : bool)
    (data : list Z) :
  receive_rest fuel amount msg decode data
  = if len data <? amount then
      match fuel with
      | O => diverge
      | S fuel' =>
          data <- read_more (amount - len data) decode
                    (fun err => "Error receiving " ++ msg ++ ": " ++ err)%string data ;;
          receive_rest fuel' amount msg decode data
      end
    else ret data.
Proof. destruct fuel; reflexivity. Qed.

Lemma receive_exactly_unfold (fuel : nat) (amount : Z) (msg : string) (expect : expect_arg)
    (decode : bool) :
  receive_exactly fuel amount msg expect decode
  = (data <- read_more 1 decode
               (fun err => "Error receiving acknowledge " ++ msg ++ ": " ++ err)%string [] ;;
     try_except
       (lift (check_error data expect))
       (except_OTAError (fun err =>
          sock_close ;; raise (OTAError ("Error " ++ msg ++ ": " ++ err)))) ;;
     receive_rest fuel amount msg decode data).
Proof. reflexivity. Qed.

(** The read loop at the end of the stream: it spins. *)
Lemma receive_rest_eof (fuel : nat) (amount : Z) (msg : string) (decode : bool)
    (data : list Z) (w : world) :
  rx w = [] -> closed w = false -> len data < amount ->
  fst (receive_rest fuel amount msg decode data w) = Diverge.
Proof.
  revert data w. induction fuel as [| fuel IH]; intros data w Hrx Hc Hlt;
    rewrite receive_rest_unfold;
    destruct (Z.ltb_spec (len data) amount) as [_ | Hge]; try lia; [reflexivity |].
  unfold bind.
  destruct (read_more _ _ _ _ w) as [r1 w1] eqn:E.
  destruct (read_more_spec _ _ _ _ _ _ _ E Hc ltac:(lia))
    as (Hc1 & _ & [(more & -> & Ht & Hl & He) | (err & -> & Ht)]).
  - assert (Hmore : more = []).
    { unfold read_more, try_except, bind, ret in E. rewrite recv_decode_eq in E.
      unfold sock_recv in E. rewrite Hc, Hrx in E.
      destruct (amount - len data <? 0); inversion E.
      apply app_inv_head in H0. congruence. }
    subst more. destruct (He eq_refl ltac:(lia)) as [_ Hrx1].
    apply IH; auto. rewrite app_nil_r. exact Hlt.
  - exfalso. unfold read_more, try_except, bind, ret in E. rewrite recv_decode_eq in E.
    unfold sock_recv in E. rewrite Hc, Hrx in E.
    destruct (amount - len data <? 0); inversion E.
Qed.

Lemma check_error_head (b : Z) (rest : list Z) (expect : expect_arg) :
  check_error (b :: rest) expect = check_error [b] expect.
Proof. reflexivity. Qed.

(** The failures of the decoder are [OTAError]s, or [IndexError] on an
    empty buffer. *)
Lemma check_error_raises (data : list Z) (expect : expect_arg) (e : exn) :
  check_error data expect = Raise e ->
  (data = [] /\ e = IndexError /\ truthy expect = true)
  \/ (exists b rest m, data = b :: rest /\ e = OTAError m).
Proof.
  unfold check_error. destruct (truthy expect); cbn [negb]; [| discriminate].
  destruct data as [| dat rest]; intros H.
  - inversion H. auto.
  - right. exists dat, rest.
    repeat match type of H with
           | (if ?c then _ else _) = _ => destruct c; [inversion H; eauto |]
           end.
    discriminate H.
Qed.

(** The read loop: what it returns and what it leaves behind. *)
Lemma receive_rest_spec (fuel : nat) (amount : Z) (msg : string) (decode : bool) :
  forall (data : list Z) (w : world) (r : outcome (list Z)) (w' : world),
    receive_rest fuel amount msg decode data w = (r, w') ->
    closed w = false ->
    exists evs,
      trace w' = trace w ++ evs /\ sent evs = [] /\ tx w' = tx w /\ closed w' = false
      /\ match r with
         | Ok data' =>
             data' = data ++ received evs /\ amount <= len data'
             /\ (len data <= amount -> len data' = amount)
         | Raise e => (exists m, e = OTAError m) /\ len (data ++ received evs) < amount
         | Diverge => len (data ++ received evs) < amount
         end.
Proof.
  induction fuel as [| fuel IH]; intros data w r w' H Hc;
    rewrite receive_rest_unfold in H;
    destruct (Z.ltb_spec (len data) amount) as [Hlt | Hge].
  - inversion H; subst. exists []. rewrite !app_nil_r. auto.
  - inversion H; subst. exists []. rewrite !app_nil_r. repeat split; auto; lia.
  - apply bind_inv in H.
    destruct H as [(data1 & w1 & E & H) | [(e & E & ->) | (E & ->)]];
      destruct (read_more_spec _ _ _ _ _ _ _ E Hc ltac:(lia))
        as (Hc1 & Htx1 & [(more & Hr & Ht & Hl & _) | (err & Hr & Ht)]);
      try discriminate Hr.
    + inversion Hr; subst data1.
      destruct (IH _ _ _ _ H Hc1) as (evs & Ht' & Hs & Htx & Hc' & Hres).
      exists (EvRecv (amount - len data) more :: evs).
      rewrite Ht', Ht, <- app_assoc. cbn [app sent received].
      repeat split; auto; try congruence.
      destruct r as [data' | e |]; rewrite <- ?app_assoc in Hres.
      * destruct Hres as (-> & Hge' & Heq). repeat split; auto.
        intros _. apply Heq. rewrite len_app. lia.
      * exact Hres.
      * exact Hres.
    + inversion Hr; subst e. exists [EvRecvErr (amount - len data) err].
      cbn. rewrite app_nil_r. repeat split; eauto.
  - inversion H; subst. exists []. rewrite !app_nil_r. repeat split; auto; lia.
Qed.

(** [receive_exactly], every outcome. *)
Lemma receive_exactly_spec (fuel : nat) (amount : Z) (msg : string) (expect : expect_arg)
    (decode : bool) (w : world) (r : outcome (list Z)) (w' : world) :
  receive_exactly fuel amount msg expect decode w = (r, w') ->
  closed w = false ->
  1 <= amount ->
  exists evs,
    trace w' = trace w ++ evs /\ sent evs = [] /\ tx w' = tx w
    /\ match r with
       | Ok data =>
           data = received evs /\ len data = amount /\ closed w' = false
           /\ check_error data expect = Ok tt
       | Raise e =>
           (exists b m,
               received evs = [b] /\ check_error [b] expect = Raise (OTAError m)
               /\ e = OTAError ("Error " ++ msg ++ ": " ++ m)
               /\ closed w' = true /\ evs = [EvRecv 1 [b]; EvClose])
           \/ (closed w' = false /\ len (received evs) < amount
               /\ ((e = IndexError /\ truthy expect = true /\ evs = [EvRecv 1 []])
                   \/ exists m, e = OTAError m))
       | Diverge => closed w' = false /\ len (received evs) < amount
       end.
Proof.
  rewrite receive_exactly_unfold. intros H Hc Ha.
  apply bind_inv in H.
  destruct H as [(data1 & w1 & E & H) | [(e & E & ->) | (E & ->)]];
    destruct (read_more_spec _ _ _ _ _ _ _ E Hc ltac:(lia))
      as (Hc1 & Htx1 & [(more & Hr & Ht & Hl & _) | (err & Hr & Ht)]);
    try discriminate Hr.
  - inversion Hr; subst data1. cbn [app] in *.
    apply bind_inv in H.
    destruct H as [(u & w2 & E2 & H) | [(e & E2 & ->) | (E2 & ->)]].
    + (* the first byte passed *)
      unfold try_except, lift in E2.
      destruct (check_error more expect) as [[] | e0 |] eqn:Hchk.
      * inversion E2; subst w2.
        destruct (receive_rest_spec _ _ _ _ _ _ _ _ H Hc1) as (evs & Ht' & Hs & Htx & Hc' & Hres).
        exists (EvRecv 1 more :: evs).
        rewrite Ht', Ht, <- app_assoc. cbn [app sent received].
        repeat split; auto; try congruence.
        destruct r as [data' | e |].
        -- destruct Hres as (-> & Hge & Heq).
           split; [reflexivity |]. split; [apply Heq; lia |]. split; [exact Hc' |].
           destruct more as [| b rest]; cbn [app].
           ++ unfold check_error in *.
              destruct (truthy expect); [discriminate Hchk | reflexivity].
           ++ exact Hchk.
        -- right. destruct Hres as (Hm & Hlen). repeat split; auto.
        -- auto.
      * destruct (except_OTAError _ e0) as [h |] eqn:Hh; [| discriminate E2].
        destruct e0; try discriminate Hh. cbn in Hh. inversion Hh; subst h.
        cbn in E2. discriminate E2.
      * discriminate E2.
    + (* the first byte was refused *)
      unfold try_except, lift in E2.
      destruct (check_error more expect) as [[] | e0 |] eqn:Hchk; try discriminate E2.
      destruct (check_error_raises _ _ _ Hchk) as [(-> & -> & Ht1) | (b & rest & m & -> & ->)].
      * cbn in E2. inversion E2; subst. exists [EvRecv 1 []]. cbn.
        repeat split; auto. right. repeat split; auto. unfold len; cbn; lia.
      * cbn in E2. inversion E2; subst. clear E2.
        assert (rest = []) as ->.
        { destruct rest; [reflexivity |]. unfold len in Hl. cbn in Hl. lia. }
        exists [EvRecv 1 [b]; EvClose]. cbn. rewrite Ht, <- app_assoc.
        repeat split; auto. left. exists b, m. repeat split; auto.
    + unfold try_except, lift in E2.
      destruct (check_error more expect) as [[] | e0 |] eqn:Hchk; try discriminate E2.
      * destruct (except_OTAError _ e0) as [h |] eqn:Hh; [| discriminate E2].
        destruct e0; try discriminate Hh. cbn in Hh. inversion Hh; subst h.
        cbn in E2. discriminate E2.
      * exfalso. exact (check_error_total _ _ Hchk).
  - inversion Hr; subst e. exists [EvRecvErr 1 err]. cbn.
    repeat split; auto. right. repeat split; auto; [unfold len; cbn; lia | eauto].
Qed.

(** The read loop on a stream that holds fewer bytes than wanted and then
    ends: it spins. *)
Lemma receive_rest_short (fuel : nat) (amount : Z) (msg : string) (decode : bool) :
  forall (data : list Z) (w : world),
    closed w = false ->
    rx w = [] \/ (exists b bs, rx w = [Seg b bs] /\ len data + len (b :: bs) < amount) ->
    len data < amount ->
    fst (receive_rest fuel amount msg decode data w) = Diverge.
Proof.
  induction fuel as [| fuel IH]; intros data w Hc Hrx Hlt;
    rewrite receive_rest_unfold;
    destruct (Z.ltb_spec (len data) amount) as [_ | Hge]; try lia; [reflexivity |].
  unfold bind. rewrite read_more_run by (auto; lia).
  destruct Hrx as [Hrx | (b & bs & Hrx & Hshort)].
  - rewrite Hrx. apply IH.
    + unfold after_recv. rewrite Hrx. exact Hc.
    + left. unfold after_recv. rewrite Hrx. exact Hrx.
    + rewrite app_nil_r. exact Hlt.
  - rewrite Hrx.
    assert (Hall : firstn (Z.to_nat (amount - len data)) (b :: bs) = b :: bs).
    { apply firstn_all2. unfold len in *. lia. }
    assert (Hnone : skipn (Z.to_nat (amount - len data)) (b :: bs) = []).
    { apply skipn_all2. unfold len in *. lia. }
    apply IH.
    + unfold after_recv. rewrite Hrx. exact Hc.
    + left. unfold after_recv. rewrite Hrx, Hnone. reflexivity.
    + rewrite Hall, len_app. lia.
Qed.

(** A stream that ends before [amount] bytes have come, its first byte
    passing the decoder: the helper never returns. *)
Lemma receive_exactly_short_stream (fuel : nat) (amount : Z) (msg : string)
    (expect : expect_arg) (decode : bool) (b : Z) (bs : list Z) (tx : list tx_item) :
  len (b :: bs) < amount ->
  check_error [b] expect = Ok tt ->
  fst (receive_exactly fuel amount msg expect decode (connect [Seg b bs] tx)) = Diverge.
Proof.
  intros Ha Hchk. rewrite receive_exactly_unfold. unfold bind at 1.
  rewrite read_more_run by (reflexivity || lia).
  cbn [rx connect app]. change (firstn (Z.to_nat 1) (b :: bs)) with [b].
  unfold bind, try_except, lift. rewrite Hchk.
  assert (Hl : len (b :: bs) = 1 + len bs) by (unfold len; cbn [List.length]; lia).
  apply receive_rest_short.
  - reflexivity.
  - unfold after_recv. cbn [rx connect emit]. change (skipn (Z.to_nat 1) (b :: bs)) with bs.
    destruct bs as [| b' bs']; [left; reflexivity |].
    right. exists b', bs'. split; [reflexivity |].
    change (len [b]) with 1. lia.
  - change (len [b]) with 1. pose proof (len_nonneg bs). lia.
Qed.

Lemma receive_rest_rx_nil (fuel : nat) (amount : Z) (msg : string) (decode : bool) :
  forall (data : list Z) (w : world),
    rx w = [] -> closed w = false ->
    rx (snd (receive_rest fuel amount msg decode data w)) = [].
Proof.
  induction fuel as [| fuel IH]; intros data w Hrx Hc; rewrite receive_rest_unfold;
    destruct (Z.ltb_spec (len data) amount) as [Hlt | Hge]; try exact Hrx.
  unfold bind. rewrite read_more_run by (auto; lia). rewrite Hrx.
  apply IH; unfold after_recv; rewrite Hrx; assumption.
Qed.

(** With fuel for [amount] iterations, the read loop runs out of fuel only
    on a stream that has ended. *)
Lemma receive_rest_diverges_at_eof (fuel : nat) (amount : Z) (msg : string) (decode : bool) :
  forall (data : list Z) (w w' : world),
    receive_rest fuel amount msg decode data w = (Diverge, w') ->
    closed w = false ->
    amount - len data <= Z.of_nat fuel ->
    rx w' = [].
Proof.
  induction fuel as [| fuel IH]; intros data w w' H Hc Hfuel;
    rewrite receive_rest_unfold in H;
    destruct (Z.ltb_spec (len data) amount) as [Hlt | Hge]; try discriminate H; [lia |].
  apply bind_inv in H.
  destruct H as [(data1 & w1 & E & H) | [(e & _ & He) | (E & _)]]; [| discriminate He |];
    destruct (read_more_spec _ _ _ _ _ _ _ E Hc ltac:(lia))
      as (Hc1 & _ & [(more & Hr & _ & _ & Hnil) | (err & Hr & _)]);
    try discriminate Hr.
  inversion Hr; subst data1.
  destruct more as [| b rest].
  - destruct (Hnil eq_refl ltac:(lia)) as [_ Hrx1].
    pose proof (receive_rest_rx_nil fuel amount msg decode (data ++ []) w1 Hrx1 Hc1) as Hrx.
    rewrite H in Hrx. exact Hrx.
  - apply (IH _ _ _ H Hc1). rewrite len_app. unfold len at 2. cbn [List.length]. lia.
Qed.

(** So does [receive_exactly]: short of fuel, the one way not to return
    is the orderly end of the stream. *)
Lemma receive_exactly_diverges_at_eof (fuel : nat) (amount : Z) (msg : string)
    (expect : expect_arg) (decode : bool) (w w' : world) :
  receive_exactly fuel amount msg expect decode w = (Diverge, w') ->
  closed w = false ->
  amount <= Z.of_nat fuel + 1 ->
  rx w' = [].
Proof.
  rewrite receive_exactly_unfold. intros H Hc Hfuel.
  apply bind_inv in H.
  destruct H as [(data1 & w1 & E & H) | [(e & _ & He) | (E & _)]]; [| discriminate He |];
    destruct (read_more_spec _ _ _ _ _ _ _ E Hc ltac:(lia))
      as (Hc1 & _ & [(more & Hr & _ & Hl & Hnil) | (err & Hr & _)]);
    try discriminate Hr.
  inversion Hr; subst data1. cbn [app] in *.
  apply bind_inv in H.
  destruct H as [([] & w2 & E2 & H) | [(e & _ & He) | (E2 & _)]]; [| discriminate He |].
  - assert (w2 = w1) as ->.
    { unfold try_except, lift in E2.
      destruct (check_error more expect) as [[] | e0 |]; [congruence | | congruence].
      destruct (except_OTAError _ e0) as [h |] eqn:Hh; [| discriminate E2].
      destruct e0; try discriminate Hh. cbn in Hh. inversion Hh; subst h.
      cbn in E2. discriminate E2. }
    destruct more as [| b rest].
    + destruct (Hnil eq_refl ltac:(lia)) as [_ Hrx1].
      pose proof (receive_rest_rx_nil fuel amount msg decode [] w1 Hrx1 Hc1) as Hrx.
      rewrite H in Hrx. exact Hrx.
    + apply (receive_rest_diverges_at_eof _ _ _ _ _ _ _ H Hc1).
      unfold len in *. cbn [List.length] in *. lia.
  - exfalso. unfold try_except, lift in E2.
    destruct (check_error more expect) as [[] | e0 |] eqn:Hchk; try discriminate E2.
    + destruct (except_OTAError _ e0) as [h |] eqn:Hh; [| discriminate E2].
      destruct e0; try discriminate Hh. cbn in Hh. inversion Hh; subst h.
      cbn in E2. discriminate E2.
    + exact (check_error_total _ _ Hchk).
Qed.

(** C6 (code defect).  [receive_exactly] is to terminate on every input
    stream.  When the peer closes the connection in an orderly way before
    [amount] bytes have arrived, [recv] keeps returning the empty bytes
    object and the [while len(data) < amount] loop never exits: at the
    version read (two bytes wanted, one delivered) and at the nonce read
    (32 wanted, three delivered) the call yields no result for any number
    of iterations. *)
Theorem receive_exactly_spins_at_end_of_stream :
  forall fuel : nat,
    fst (receive_exactly fuel 2 "version" (ExpCode RESPONSE_OK) true
           (connect [Seg RESPONSE_OK []] []))
    = Diverge
    /\ fst (receive_exactly fuel 32 "authentication nonce" (ExpList []) false
              (connect [Seg 97 [98; 99]] []))
       = Diverge.
Proof.
  intros fuel. split; apply receive_exactly_short_stream; reflexivity.
Qed.

(** C9, the claim as stated fails: for the expected set of the version
    step, [RESPONSE_OK] alone, an orderly close on the first read raises
    no [IndexError]; the decoder is skipped and the read loop spins. *)
Lemma eof_on_version_read_raises_no_IndexError :
  as_list (ExpCode RESPONSE_OK) <> []
  /\ ~ (exists fuel : nat,
           fst (receive_exactly fuel 2 "version" (ExpCode RESPONSE_OK) true (connect [] []))
           = Raise IndexError).
Proof.
  split; [discriminate |].
  intros [fuel H].
  assert (D : fst (receive_exactly fuel 2 "version" (ExpCode RESPONSE_OK) true (connect [] []))
              = Diverge).
  { rewrite receive_exactly_unfold. unfold bind at 1.
    rewrite read_more_run by (reflexivity || lia).
    apply receive_rest_eof; reflexivity. }
  rewrite D in H. discriminate H.
Qed.

(** C9, amended.  If the first read of [receive_exactly] yields zero bytes
    without raising and [expect] is one the decoder validates against (a
    non-empty list, or a code other than 0), the call raises [IndexError],
    which is not an [OTAError], after that single read and without closing
    the connection. *)
Theorem receive_exactly_eof_IndexError (fuel : nat) (amount : Z) (msg : string)
    (expect : expect_arg) (decode : bool) (w : world) :
  rx w = [] ->
  closed w = false ->
  truthy expect = true ->
  receive_exactly fuel amount msg expect decode w = (Raise IndexError, emit (EvRecv 1 []) w)
  /\ closed (snd (receive_exactly fuel amount msg expect decode w)) = false
  /\ events_since w (snd (receive_exactly fuel amount msg expect decode w)) = [EvRecv 1 []]
  /\ (forall m : string, IndexError <> OTAError m).
Proof.
  intros Hrx Hc Ht.
  assert (E : receive_exactly fuel amount msg expect decode w
              = (Raise IndexError, emit (EvRecv 1 []) w)).
  { rewrite receive_exactly_unfold. unfold bind at 1.
    rewrite read_more_run by (auto; lia).
    unfold after_recv. rewrite Hrx. cbn [app].
    unfold bind, try_except, lift. rewrite (check_error_empty _ Ht). reflexivity. }
  rewrite E. cbn [snd]. repeat split.
  - exact Hc.
  - apply events_since_app. reflexivity.
  - discriminate.
Qed.

Lemma receive_exactly_eof_IndexError_witness :
  receive_exactly 3 1 "features" (ExpList [RESPONSE_HEADER_OK; RESPONSE_SUPPORTS_COMPRESSION])
    true (connect [] [])
  = (Raise IndexError, emit (EvRecv 1 []) (connect [] [])).
Proof.
  apply (receive_exactly_eof_IndexError 3 1 "features"
           (ExpList [RESPONSE_HEADER_OK; RESPONSE_SUPPORTS_COMPRESSION]) true (connect [] []));
    reflexivity.
Defined.

(** An orderly close right after the version exchange: the [IndexError]
    escapes the [except OTAError] clause of the caller. *)
Example eof_escapes_the_caller :
  fst (run_ota_connected toy_gzip 2 EmptyString [7] "0.5" (connect [Seg 0 [1]] []))
  = Raise IndexError.
Proof. vm_compute. reflexivity. Qed.

(** ** Closing the connection *)

Lemma send_check_closed (data : payload) (msg : string) (w : world) :
  closed (snd (send_check data msg w)) = closed w.
Proof.
  unfold send_check, try_except, bind, lift.
  destruct (match data with
            | PInt n => bytes_of_list [n]
            | PList l => bytes_of_list l
            | PStr s => Ok (encode s)
            | PBytes b => Ok b
            end) as [bs | e |]; cbn; try reflexivity.
  - destruct (sock_sendall bs w) as [[[] | e |] w1] eqn:E;
      destruct (sock_sendall_spec _ _ _ _ E) as (Hc & _); cbn; auto.
    destruct e; cbn; auto.
  - destruct e; reflexivity.
Qed.

(** C5, the claim as stated fails: after a read error and after a send
    error the engine hands the failure to its caller with the connection
    still open. *)
Lemma engine_leaves_socket_open_on_io_failure :
  (let '(r, w) :=
     perform_ota toy_gzip 2 EmptyString [7] "0.5" (connect [RxErr "timed out"] []) in
   r = Raise (OTAError "Error receiving acknowledge version: timed out")
   /\ closed w = false)
  /\ (let '(r, w) :=
        perform_ota toy_gzip 2 EmptyString [7] "0.5" (connect [] [TxErr "Broken pipe"]) in
      r = Raise (OTAError "Error sending magic bytes: Broken pipe")
      /\ closed w = false).
Proof. vm_compute. repeat split. Qed.

(** ** The progress reporter *)

Lemma last_opt_snoc {A : Type} (l : list A) (x : A) : last_opt (l ++ [x]) = Some x.
Proof.
  induction l as [| y l IH]; [reflexivity |].
  cbn [app last_opt]. rewrite IH. destruct (l ++ [x]) eqn:E; [| reflexivity].
  destruct l; discriminate E.
Qed.

Lemma no_stutter_snoc (l : list Z) (p : Z) :
  no_stutter l = true ->
  ProgressBar.same_progress p (last_opt l) = false ->
  no_stutter (l ++ [p]) = true.
Proof.
  induction l as [| x l IH]; intros Hl Hp; [reflexivity |].
  destruct l as [| y l].
  - cbn in *. rewrite Z.eqb_sym, Hp. reflexivity.
  - cbn [app no_stutter] in *. apply andb_true_iff in Hl. destruct Hl as [Hxy Hl].
    rewrite Hxy. cbn [andb]. apply IH; assumption.
Qed.

Lemma int_total (x : PyNum.num) : PyNum.int x <> Diverge.
Proof.
  destruct x as [n | f]; cbn; [discriminate |]. destruct (Prim2SF f); discriminate.
Qed.

Lemma round_total (x : PyNum.num) : PyNum.round x <> Diverge.
Proof.
  destruct x as [n | f]; cbn; [discriminate |]. destruct (Prim2SF f); discriminate.
Qed.

(** One call of [update], every outcome: nothing is written, and the bar
    is unchanged unless an exception is raised, or one render is written,
    of a percentage that differs from the last one. *)
Lemma update_cases (self : ProgressBar.t) (progress : PyNum.num) (w : world) :
  (snd (ProgressBar.update self progress w) = w
   /\ ((fst (ProgressBar.update self progress w) = Ok self
        /\ exists p, percentage progress = Ok p
                     /\ ProgressBar.same_progress p (ProgressBar.last_progress self) = true)
       \/ exists e, fst (ProgressBar.update self progress w) = Raise e))
  \/ (exists block p status,
         ProgressBar.update self progress w
         = (Ok (ProgressBar.mk (Some p)), emit (EvProgress block p status) w)
         /\ percentage progress = Ok p
         /\ ProgressBar.same_progress p (ProgressBar.last_progress self) = false).
Proof.
  unfold ProgressBar.update, percentage.
  destruct (PyNum.ge progress (PyNum.Int 1)).
  - (* clamped *)
    cbn [PyNum.mul PyNum.int PyNum.round]. unfold bind, lift, ret. cbn [fst snd].
    destruct (ProgressBar.same_progress (1 * 100) (ProgressBar.last_progress self)) eqn:E.
    + left. split; [reflexivity |]. left. split; [reflexivity |]. eauto.
    + right. do 3 eexists. split; [reflexivity |]. split; [reflexivity | exact E].
  - unfold bind, lift, ret.
    destruct (PyNum.int (PyNum.mul progress (PyNum.Int 100))) as [p | e |] eqn:Ep;
      [| left; split; [reflexivity | right; eexists; reflexivity] | exfalso; exact (int_total _ Ep)].
    destruct (ProgressBar.same_progress p (ProgressBar.last_progress self)) eqn:E.
    { left. split; [reflexivity |]. left. split; [reflexivity |]. eauto. }
    destruct (PyNum.round (PyNum.mul (PyNum.Int 60) progress)) as [rounded | e |] eqn:Er;
      [| left; split; [reflexivity | right; eexists; reflexivity] | exfalso; exact (round_total _ Er)].
    destruct (PyNum.int rounded) as [block | e |] eqn:Eb;
      [| left; split; [reflexivity | right; eexists; reflexivity] | exfalso; exact (int_total _ Eb)].
    right. do 3 eexists. split; [reflexivity |]. split; [reflexivity | exact E].
Qed.

Lemma updates_no_stutter (fractions : list PyNum.num) :
  forall (self : ProgressBar.t) (w : world),
    no_stutter (renders (trace w)) = true ->
    ProgressBar.last_progress self = last_opt (renders (trace w)) ->
    no_stutter (renders (trace (snd (ProgressBar.updates self fractions w)))) = true.
Proof.
  induction fractions as [| progress rest IH]; intros self w Hw Hlast; [exact Hw |].
  cbn [ProgressBar.updates]. unfold bind.
  destruct (update_cases self progress w)
    as [(Hsame & [(Hok & _) | (e & Hraise)]) | (block & p & status & Hrun & _ & Hnew)].
  - destruct (ProgressBar.update self progress w) as [r w1]. cbn [fst snd] in *. subst r w1.
    apply IH; assumption.
  - destruct (ProgressBar.update self progress w) as [r w1]. cbn [fst snd] in *. subst r w1.
    exact Hw.
  - rewrite Hrun. apply IH.
    + rewrite trace_emit, renders_app. cbn [renders]. apply no_stutter_snoc; [exact Hw |].
      rewrite <- Hlast. exact Hnew.
    + rewrite trace_emit, renders_app. cbn [renders ProgressBar.last_progress].
      symmetry. apply last_opt_snoc.
Qed.

(** They are the fractions of a 1000-byte transfer at offsets 0, 1, 20
    and 1000. *)
Example sample_fractions_of_1000 :
  map (fun offset => PyNum.true_div offset 1000) [0; 1; 20; 1000] = map Ok sample_fractions.
Proof. vm_compute. reflexivity. Qed.

(** What the sample sequence writes on standard error. *)
Example sample_renders_text :
  map written
    (trace (snd (ProgressBar.updates ProgressBar.init sample_fractions (connect [] []))))
  = [ProgressBar.text 0 0 EmptyString;
     (ProgressBar.CR
        ++ "Uploading: [=                                                           ] 2% ")%string;
     ProgressBar.text 60 100 ("Done..." ++ ProgressBar.CR ++ ProgressBar.LF)].
Proof. vm_compute. reflexivity. Qed.

(** C8.  A call of [update] writes at most one render, and only when the
    integer percentage [int(min(fraction, 1) * 100)] differs from the last
    one rendered: when it is the same the call does nothing.  Hence over
    any sequence of fractions no two consecutive renders carry the same
    percentage.  A fraction of 1.0 or more has percentage 100.  The
    fractions 0.0, 0.001, 0.02, 1.0 render 0%, 2%, 100%. *)
Theorem progress_renders_are_deduplicated :
  (forall self progress w,
      let new := renders (events_since w (snd (ProgressBar.update self progress w))) in
      new = []
      \/ exists p, new = [p] /\ percentage progress = Ok p
                   /\ ProgressBar.same_progress p (ProgressBar.last_progress self) = false)
  /\ (forall self progress w p,
         percentage progress = Ok p ->
         ProgressBar.same_progress p (ProgressBar.last_progress self) = true ->
         ProgressBar.update self progress w = (Ok self, w))
  /\ (forall fractions rx tx,
         no_stutter
           (renders (trace (snd (ProgressBar.updates ProgressBar.init fractions (connect rx tx)))))
         = true)
  /\ (forall progress,
         PyNum.ge progress (PyNum.Int 1) = true -> percentage progress = Ok 100)
  /\ (forall rx tx,
         renders
           (trace (snd (ProgressBar.updates ProgressBar.init sample_fractions (connect rx tx))))
         = [0; 2; 100]).
Proof.
  split; [| split; [| split; [| split]]].
  - intros self progress w. cbv zeta.
    destruct (update_cases self progress w)
      as [(Hsame & _) | (block & p & status & Hrun & Hp & Hnew)].
    + left. rewrite Hsame. unfold events_since. rewrite skipn_all. reflexivity.
    + right. exists p. rewrite Hrun. cbn [snd].
      rewrite (events_since_app w _ [EvProgress block p status]) by apply trace_emit.
      auto.
  - intros self progress w p Hp Hsame. unfold percentage in Hp.
    unfold ProgressBar.update.
    destruct (PyNum.ge progress (PyNum.Int 1)); unfold bind, lift; rewrite Hp, Hsame;
      reflexivity.
  - intros fractions rx tx. apply updates_no_stutter; reflexivity.
  - intros progress H. unfold percentage. rewrite H. reflexivity.
  - intros rx tx. vm_compute. reflexivity.
Qed.

Lemma progress_renders_are_deduplicated_witness :
  ProgressBar.update (ProgressBar.mk (Some 0)) (PyNum.Float 0x1.0624dd2f1a9fcp-10%float)
    (connect [] [])
  = (Ok (ProgressBar.mk (Some 0)), connect [] [])
  /\ percentage (PyNum.Float 0x1.8p+0%float) = Ok 100.
Proof.
  split.
  - apply (proj1 (proj2 progress_renders_are_deduplicated)
             (ProgressBar.mk (Some 0)) (PyNum.Float 0x1.0624dd2f1a9fcp-10%float)
             (connect [] []) 0); vm_compute; reflexivity.
  - apply (proj1 (proj2 (proj2 (proj2 progress_renders_are_deduplicated)))
             (PyNum.Float 0x1.8p+0%float)).
    vm_compute. reflexivity.
Defined.

(** ** The Transfer step *)

Section Chunks.

Variable size : nat.
Hypothesis size_pos : (0 < size)%nat.

Lemma length_skip_chunk (b : Z) (rest : list Z) :
  (List.length (skipn size (b :: rest)) <= List.length rest)%nat.
Proof. rewrite length_skipn. cbn [List.length]. lia. Qed.

Lemma chunks_by_enough (fuel : nat) :
  forall data : list Z,
    (List.length data <= fuel)%nat ->
    chunks_by size fuel data = chunks_by size (List.length data) data.
Proof.
  induction fuel as [fuel IH] using lt_wf_ind. intros data Hle.
  destruct data as [| b rest].
  - destruct fuel; reflexivity.
  - destruct fuel as [| fuel]; [cbn in Hle; lia |].
    cbn [List.length chunks_by]. f_equal.
    pose proof (length_skip_chunk b rest) as Hs.
    cbn [List.length] in Hle.
    set (rem := skipn size (b :: rest)) in *.
    rewrite (IH fuel ltac:(lia) rem ltac:(lia)).
    rewrite (IH (List.length rest) ltac:(lia) rem Hs). reflexivity.
Qed.

Lemma chunks_by_cons (b : Z) (rest : list Z) :
  chunks_by size (List.length (b :: rest)) (b :: rest)
  = firstn size (b :: rest)
      :: chunks_by size (List.length (skipn size (b :: rest))) (skipn size (b :: rest)).
Proof.
  cbn [List.length chunks_by]. f_equal.
  apply chunks_by_enough. apply length_skip_chunk.
Qed.

Lemma chunks_by_count (data : list Z) :
  Z.of_nat (List.length (chunks_by size (List.length data) data))
  = (len data + (Z.of_nat size - 1)) / Z.of_nat size.
Proof.
  remember (List.length data) as n eqn:Hn. revert data Hn.
  induction n as [n IH] using lt_wf_ind. intros data Hn. subst n.
  destruct data as [| b rest].
  - cbn. symmetry. apply Z.div_small. unfold len. cbn. lia.
  - rewrite chunks_by_cons. cbn [List.length].
    pose proof (length_skip_chunk b rest) as Hs.
    set (rem := skipn size (b :: rest)) in *.
    assert (Hrem : Z.of_nat (List.length rem) = Z.max 0 (len (b :: rest) - Z.of_nat size)).
    { unfold rem, len. rewrite length_skipn. lia. }
    rewrite Nat2Z.inj_succ,
      (IH (List.length rem) ltac:(cbn [List.length]; lia) rem eq_refl).
    unfold len at 1. rewrite Hrem.
    pose proof (len_nonneg rest) as Hr.
    assert (Hl : len (b :: rest) = len rest + 1) by (unfold len; cbn [List.length]; lia).
    rewrite Hl.
    destruct (Z.le_gt_cases (Z.of_nat size) (len rest + 1)) as [Hbig | Hsmall].
    + rewrite Z.max_r by lia.
      replace (len rest + 1 + (Z.of_nat size - 1))
        with (len rest + 1 - Z.of_nat size + (Z.of_nat size - 1) + 1 * Z.of_nat size) by lia.
      rewrite Z.div_add by lia. lia.
    + rewrite Z.max_l by lia.
      replace ((0 + (Z.of_nat size - 1)) / Z.of_nat size) with 0
        by (symmetry; apply Z.div_small; lia).
      apply Z.div_unique with (r := len rest); lia.
Qed.

Lemma chunks_by_concat (data : list Z) :
  List.concat (chunks_by size (List.length data) data) = data.
Proof.
  remember (List.length data) as n eqn:Hn. revert data Hn.
  induction n as [n IH] using lt_wf_ind. intros data Hn. subst n.
  destruct data as [| b rest]; [reflexivity |].
  rewrite chunks_by_cons. cbn [List.concat].
  pose proof (length_skip_chunk b rest) as Hs.
  rewrite (IH (List.length (skipn size (b :: rest))) ltac:(cbn [List.length]; lia) _ eq_refl).
  apply firstn_skipn.
Qed.

End Chunks.

Lemma BLOCK_pos : (0 < BLOCK)%nat.
Proof. unfold BLOCK, UPLOAD_BLOCK_SIZE. lia. Qed.

Lemma BLOCK_size : Z.of_nat BLOCK = UPLOAD_BLOCK_SIZE.
Proof. unfold BLOCK, UPLOAD_BLOCK_SIZE. lia. Qed.

Lemma chunks_cons (b : Z) (rest : list Z) :
  chunks (b :: rest) = firstn BLOCK (b :: rest) :: chunks (skipn BLOCK (b :: rest)).
Proof. apply chunks_by_cons. apply BLOCK_pos. Qed.

(** There are ceil(length / 8192) chunks, and together they are the
    payload. *)
Lemma chunks_count (data : list Z) :
  Z.of_nat (List.length (chunks data)) = (len data + (UPLOAD_BLOCK_SIZE - 1)) / UPLOAD_BLOCK_SIZE.
Proof. unfold chunks. rewrite (chunks_by_count BLOCK BLOCK_pos), BLOCK_size. reflexivity. Qed.

Lemma chunks_concat (data : list Z) : List.concat (chunks data) = data.
Proof. apply chunks_by_concat. apply BLOCK_pos. Qed.

Lemma sockets_app (a b : list event) : sockets (a ++ b) = sockets a ++ sockets b.
Proof. apply filter_app. Qed.

Lemma sent_expected_events (version : Z) (cs : list (list Z)) :
  sent (expected_events version cs) = cs.
Proof.
  induction cs as [| c cs IH]; [reflexivity |].
  cbn [expected_events flat_map]. fold (expected_events version cs).
  destruct (OTA_VERSION_2_0 <=? version); cbn; rewrite IH; reflexivity.
Qed.

Lemma sent_sockets (tr : list event) : sent (sockets tr) = sent tr.
Proof.
  unfold sockets. induction tr as [| e tr IH]; [reflexivity |].
  destruct e; cbn [filter is_socket sent]; rewrite ?IH; reflexivity.
Qed.

Lemma sock_sendall_cases (data : list Z) (w : world) (r : outcome unit) (w' : world) :
  sock_sendall data w = (r, w') ->
  (r = Ok tt /\ closed w = false /\ closed w' = false /\ trace w' = trace w ++ [EvSend data])
  \/ (exists err evs,
         r = Raise (OSError err) /\ trace w' = trace w ++ evs
         /\ (evs = [] \/ evs = [EvSendErr data err])).
Proof.
  unfold sock_sendall. intros H.
  destruct (closed w) eqn:Hc.
  - inversion H; subst. right. exists EBADF, []. rewrite app_nil_r. auto.
  - destruct (tx w) as [| [| err] rest]; inversion H; subst; cbn; auto.
    right. exists err, [EvSendErr data err]. auto.
Qed.

(** A decoder that validates against a single code accepts that code
    only. *)
Lemma check_error_code_ok (b c : Z) :
  truthy (ExpCode c) = true -> check_error [b] (ExpCode c) = Ok tt -> b = c.
Proof.
  intros Ht H. rewrite (check_error_classify _ _ _ Ht) in H.
  unfold classify in H. destruct (lookup b named_errors); [discriminate H |].
  cbn [as_list py_in existsb] in H. destruct (Z.eqb_spec b c); [assumption | discriminate H].
Qed.

(** A one-byte read against a validated expectation: one [recv] call,
    whatever comes of it. *)
Lemma receive_exactly_one_spec (fuel : nat) (msg : string) (expect : expect_arg)
    (decode : bool) (w : world) (r : outcome (list Z)) (w' : world) :
  receive_exactly fuel 1 msg expect decode w = (r, w') ->
  closed w = false ->
  truthy expect = true ->
  exists ev tail,
    trace w' = trace w ++ ev :: tail
    /\ recv_calls [ev] = 1%nat /\ sent [ev] = []
    /\ (tail = [] \/ tail = [EvClose])
    /\ (forall data, r = Ok data ->
          exists b, data = [b] /\ ev = EvRecv 1 [b] /\ tail = []
                    /\ check_error [b] expect = Ok tt /\ closed w' = false)
    /\ (forall e, r = Raise e -> e = IndexError \/ exists m, e = OTAError m)
    /\ r <> Diverge.
Proof.
  intros H Hc Ht. rewrite receive_exactly_unfold in H. unfold bind at 1 in H.
  rewrite read_more_run in H by (auto; lia). unfold after_recv in H.
  destruct (rx w) as [| [b bs | err] rest] eqn:Hrx.
  - (* end of stream *)
    cbn [app] in H. unfold bind, try_except, lift in H.
    rewrite (check_error_empty _ Ht) in H. cbn in H. inversion H; subst.
    exists (EvRecv 1 []), []. repeat split; auto; try discriminate.
    intros e He. inversion He. auto.
  - change (firstn (Z.to_nat 1) (b :: bs)) with [b] in H. cbn [app] in H.
    unfold bind, try_except, lift in H.
    destruct (check_error [b] expect) as [[] | e0 |] eqn:Hchk.
    + rewrite receive_rest_unfold in H. change (len [b] <? 1) with false in H.
      inversion H; subst. exists (EvRecv 1 [b]), []. repeat split; auto; try discriminate.
      intros data Hd. inversion Hd; subst. exists b. auto.
    + destruct (check_error_raises _ _ _ Hchk) as [(Hnil & _) | (b0 & rest0 & m & _ & ->)];
        [discriminate Hnil |].
      cbn in H. inversion H; subst. exists (EvRecv 1 [b]), [EvClose].
      cbn. rewrite <- app_assoc. repeat split; auto; try discriminate.
      intros e He. inversion He. eauto.
    + exfalso. exact (check_error_total _ _ Hchk).
  - inversion H; subst. exists (EvRecvErr 1 err), []. repeat split; auto; try discriminate.
    intros e He. inversion He. eauto.
Qed.

Lemma send_chunk_spec (rfuel : nat) (version : Z) (chunk : list Z)
    (w : world) (r : outcome unit) (w' : world) :
  send_chunk rfuel version chunk w = (r, w') ->
  exists evs,
    trace w' = trace w ++ evs
    /\ (version < OTA_VERSION_2_0 -> recv_calls evs = 0%nat)
    /\ (OTA_VERSION_2_0 <= version -> recv_calls evs = List.length (sent evs))
    /\ (r = Ok tt -> sockets evs = expected_events version [chunk])
    /\ (forall e, r = Raise e -> e = IndexError \/ exists m, e = OTAError m)
    /\ r <> Diverge.
Proof.
  unfold send_chunk, try_except. intros H.
  destruct (bind (sock_sendall chunk) _ w) as [r0 w0] eqn:E.
  apply bind_inv in E.
  destruct E as [([] & w1 & Es & E) | [(e & Es & ->) | (Es & ->)]];
    destruct (sock_sendall_cases _ _ _ _ Es)
      as [(Hr & Hc & Hc1 & Ht1) | (err & evs & Hr & Ht1 & Hevs)];
    try discriminate Hr.
  - (* the chunk was sent *)
    unfold OTA_VERSION_2_0 in *.
    destruct (Z.leb_spec 2 version) as [Hv | Hv].
    + apply bind_inv in E.
      destruct E as [(data & w2 & Er & E) | [(e & Er & ->) | (Er & ->)]];
        destruct (receive_exactly_one_spec _ _ _ _ _ _ _ Er Hc1 eq_refl)
          as (ev & tail & Ht2 & Hrc & Hs & Htail & Hok & Hraise & Hdiv);
        try (exfalso; apply Hdiv; reflexivity).
      * destruct (Hok _ eq_refl) as (b & -> & -> & -> & Hchk & _).
        apply (check_error_code_ok b RESPONSE_CHUNK_OK eq_refl) in Hchk. subst b.
        inversion E; subst. inversion H; subst.
        exists [EvSend chunk; EvRecv 1 [RESPONSE_CHUNK_OK]].
        rewrite Ht2, Ht1, <- app_assoc. cbn [app].
        split; [reflexivity |]. split; [lia |]. split; [reflexivity |].
        split; [| split; [discriminate | discriminate]].
        intros _. unfold expected_events. cbn [flat_map].
        unfold OTA_VERSION_2_0. destruct (Z.leb_spec 2 version); [reflexivity | lia].
      * assert (Hh : except_OSError
                       (fun err => stderr_write ProgressBar.LF ;;
                                   raise (A := unit) (OTAError ("Error sending data: " ++ err)))
                       e = None).
        { destruct (Hraise _ eq_refl) as [-> | (m & ->)]; reflexivity. }
        rewrite Hh in H. inversion H; subst.
        exists (EvSend chunk :: ev :: tail).
        rewrite Ht2, Ht1, <- app_assoc. cbn [app].
        split; [reflexivity |]. split; [lia |]. split.
        { intros _. change (EvSend chunk :: ev :: tail) with ([EvSend chunk] ++ [ev] ++ tail).
          rewrite !recv_calls_app, !sent_app, Hrc, Hs.
          destruct Htail as [-> | ->]; reflexivity. }
        split; [discriminate |]. split; [| discriminate].
        intros e' He'. inversion He'; subst. apply Hraise. reflexivity.
    + inversion E; subst. inversion H; subst.
      exists [EvSend chunk]. rewrite Ht1.
      split; [reflexivity |]. split; [reflexivity |]. split; [lia |].
      split; [| split; [discriminate | discriminate]].
      intros _. unfold expected_events. cbn [flat_map].
      unfold OTA_VERSION_2_0. destruct (Z.leb_spec 2 version); [lia | reflexivity].
  - (* [sendall] raised *)
    inversion Hr; subst e. cbn in H. inversion H; subst. cbn.
    exists (evs ++ [EvStderr ProgressBar.LF]). rewrite Ht1, <- app_assoc.
    split; [reflexivity |].
    assert (Hq : recv_calls (evs ++ [EvStderr ProgressBar.LF]) = 0%nat
                 /\ sent (evs ++ [EvStderr ProgressBar.LF]) = []).
    { destruct Hevs as [-> | ->]; split; reflexivity. }
    destruct Hq as [Hq1 Hq2]. rewrite Hq1, Hq2.
    split; [reflexivity |]. split; [reflexivity |]. split; [discriminate |].
    split; [| discriminate]. intros e' He'. inversion He'. eauto.
Qed.

Lemma int_raises (x : PyNum.num) (e : exn) :
  PyNum.int x = Raise e -> e = OverflowError \/ e = ValueError.
Proof.
  destruct x as [n | f]; cbn; [discriminate |].
  destruct (Prim2SF f); intros H; inversion H; auto.
Qed.

Lemma round_raises (x : PyNum.num) (e : exn) :
  PyNum.round x = Raise e -> e = OverflowError \/ e = ValueError.
Proof.
  destruct x as [n | f]; cbn; [discriminate |].
  destruct (Prim2SF f); intros H; inversion H; auto.
Qed.

(** [update] touches nothing but standard error, and raises at most the
    exceptions of [int] and [round]. *)
Lemma update_trace (self : ProgressBar.t) (progress : PyNum.num) (w : world) :
  exists pev,
    trace (snd (ProgressBar.update self progress w)) = trace w ++ pev
    /\ sockets pev = [] /\ recv_calls pev = 0%nat /\ sent pev = []
    /\ fst (ProgressBar.update self progress w) <> Diverge
    /\ (forall e, fst (ProgressBar.update self progress w) = Raise e ->
                  e = OverflowError \/ e = ValueError).
Proof.
  unfold ProgressBar.update.
  destruct (PyNum.ge progress (PyNum.Int 1)).
  - cbn [PyNum.mul PyNum.int PyNum.round]. unfold bind, lift, ret.
    destruct (ProgressBar.same_progress (1 * 100) (ProgressBar.last_progress self)); cbn.
    + exists []. rewrite app_nil_r. repeat split; discriminate.
    + eexists [_]. repeat split; discriminate.
  - unfold bind, lift, ret.
    destruct (PyNum.int (PyNum.mul progress (PyNum.Int 100))) as [p | e |] eqn:Ep; cbn [fst snd];
      [| exists []; rewrite app_nil_r; repeat split; try discriminate;
         intros e' He'; inversion He'; subst; exact (int_raises _ _ Ep)
       | exfalso; exact (int_total _ Ep)].
    destruct (ProgressBar.same_progress p (ProgressBar.last_progress self)); cbn [fst snd].
    { exists []. rewrite app_nil_r. repeat split; discriminate. }
    destruct (PyNum.round (PyNum.mul (PyNum.Int 60) progress)) as [rounded | e |] eqn:Er;
      cbn [fst snd];
      [| exists []; rewrite app_nil_r; repeat split; try discriminate;
         intros e' He'; inversion He'; subst; exact (round_raises _ _ Er)
       | exfalso; exact (round_total _ Er)].
    destruct (PyNum.int rounded) as [block | e |] eqn:Eb; cbn [fst snd];
      [| exists []; rewrite app_nil_r; repeat split; try discriminate;
         intros e' He'; inversion He'; subst; exact (int_raises _ _ Eb)
       | exfalso; exact (int_total _ Eb)].
    eexists [_]. repeat split; discriminate.
Qed.

Lemma transfer_loop_unfold (rfuel fuel : nat) (version : Z) (upload_contents : list Z)
    (offset : Z) (progress : ProgressBar.t) :
  transfer_loop rfuel (S fuel) version upload_contents offset progress
  = match slice upload_contents offset (offset + UPLOAD_BLOCK_SIZE) with
    | [] => ret progress
    | _ :: _ =>
        let chunk := slice upload_contents offset (offset + UPLOAD_BLOCK_SIZE) in
        send_chunk rfuel version chunk ;;
        fraction <- lift (PyNum.true_div (offset + len chunk) (len upload_contents)) ;;
        progress <- ProgressBar.update progress fraction ;;
        transfer_loop rfuel fuel version upload_contents (offset + len chunk) progress
    end.
Proof. reflexivity. Qed.

Lemma slice_block (upload : list Z) (offset : Z) :
  slice upload offset (offset + UPLOAD_BLOCK_SIZE)
  = firstn BLOCK (skipn (Z.to_nat offset) upload).
Proof.
  unfold slice, BLOCK.
  replace (offset + UPLOAD_BLOCK_SIZE - offset) with UPLOAD_BLOCK_SIZE by lia. reflexivity.
Qed.

Lemma skip_after_chunk (upload : list Z) (offset : Z) :
  0 <= offset ->
  skipn (Z.to_nat (offset + len (slice upload offset (offset + UPLOAD_BLOCK_SIZE)))) upload
  = skipn BLOCK (skipn (Z.to_nat offset) upload).
Proof.
  intros Hoff. rewrite slice_block.
  set (rem := skipn (Z.to_nat offset) upload).
  set (B := BLOCK).
  replace (Z.to_nat (offset + len (firstn B rem)))
    with (List.length (firstn B rem) + Z.to_nat offset)%nat by (unfold len; lia).
  rewrite <- skipn_skipn. fold rem. rewrite length_firstn.
  destruct (Nat.le_gt_cases B (List.length rem)) as [Hle | Hgt].
  - rewrite Nat.min_l by exact Hle. reflexivity.
  - rewrite Nat.min_r by lia. rewrite skipn_all. symmetry. apply skipn_all2. lia.
Qed.

Lemma expected_events_cons (version : Z) (c : list Z) (cs : list (list Z)) :
  expected_events version (c :: cs)
  = expected_events version [c] ++ expected_events version cs.
Proof. unfold expected_events. cbn [flat_map]. rewrite app_nil_r. reflexivity. Qed.

(** The Transfer loop, every outcome: below version 2 it reads nothing;
    from version 2 on it makes one read per chunk sent; when it completes,
    the socket has seen each chunk of the payload in order, each followed
    (from version 2 on) by the read of one 0x47 byte. *)
Lemma transfer_loop_spec (rfuel : nat) (version : Z) (upload : list Z) (fuel : nat) :
  forall (offset : Z) (pb : ProgressBar.t) (w : world) (r : outcome ProgressBar.t) (w' : world),
    transfer_loop rfuel fuel version upload offset pb w = (r, w') ->
    0 <= offset ->
    exists evs,
      trace w' = trace w ++ evs
      /\ (version < OTA_VERSION_2_0 -> recv_calls evs = 0%nat)
      /\ (OTA_VERSION_2_0 <= version -> recv_calls evs = List.length (sent evs))
      /\ (forall pb', r = Ok pb' ->
            sockets evs = expected_events version (chunks (skipn (Z.to_nat offset) upload)))
      /\ r <> Raise ZeroDivisionError.
Proof.
  induction fuel as [| fuel IH]; intros offset pb w r w' H Hoff.
  - inversion H; subst. exists []. rewrite app_nil_r. repeat split; discriminate.
  - rewrite transfer_loop_unfold in H.
    pose proof (skip_after_chunk upload offset Hoff) as Hskip.
    pose proof (slice_block upload offset) as Hslice.
    set (rem := skipn (Z.to_nat offset) upload) in *.
    destruct (slice upload offset (offset + UPLOAD_BLOCK_SIZE)) as [| c0 crest] eqn:Hchunk.
    + (* the payload is exhausted *)
      inversion H; subst. exists []. rewrite app_nil_r.
      repeat split; try discriminate. intros pb' _.
      destruct rem as [| b rest]; [reflexivity |].
      exfalso. pose proof BLOCK_pos as Hb.
      destruct BLOCK as [| k]; [lia | discriminate Hslice].
    + cbv zeta in H. set (chunk := c0 :: crest) in *.
      assert (Hrem : chunks rem = chunk :: chunks (skipn BLOCK rem)).
      { destruct rem as [| b rest].
        - rewrite firstn_nil in Hslice. discriminate Hslice.
        - rewrite chunks_cons, <- Hslice. reflexivity. }
      assert (Hsize : len upload <> 0).
      { unfold len. destruct upload; [| cbn; lia].
        unfold rem in Hslice. rewrite skipn_nil, firstn_nil in Hslice. discriminate Hslice. }
      apply bind_inv in H.
      destruct H as [([] & w1 & E1 & H) | [(e & E1 & ->) | (E1 & ->)]];
        destruct (send_chunk_spec _ _ _ _ _ _ E1)
          as (evs1 & Ht1 & Hlt1 & Hge1 & Hok1 & Hraise1 & Hdiv1);
        try (exfalso; apply Hdiv1; reflexivity).
      * (* the chunk went through *)
        unfold PyNum.true_div in H.
        destruct (Z.eqb_spec (len upload) 0) as [Hz | _]; [contradiction |].
        unfold bind at 1, lift at 1 in H.
        match type of H with bind (ProgressBar.update ?s ?p) _ _ = _ =>
          destruct (update_trace s p w1) as (pev & Ht2 & Hp1 & Hp2 & Hp3 & Hp4 & Hp5);
          unfold bind at 1 in H;
          destruct (ProgressBar.update s p w1) as [[pb1 | e |] w2] eqn:E2
        end; cbn [fst snd] in *; try (exfalso; apply Hp4; reflexivity).
        -- destruct (IH _ _ _ _ _ H ltac:(pose proof (len_nonneg chunk); lia))
             as (evs3 & Ht3 & Hlt3 & Hge3 & Hok3 & Hz3).
           exists (evs1 ++ pev ++ evs3).
           rewrite Ht3, Ht2, Ht1, <- !app_assoc.
           split; [reflexivity |].
           rewrite !recv_calls_app, !sent_app, !length_app, !sockets_app, Hp1, Hp2, Hp3.
           cbn [app List.length Nat.add].
           split; [intros Hv; rewrite (Hlt1 Hv), (Hlt3 Hv); reflexivity |].
           split; [intros Hv; rewrite (Hge1 Hv), (Hge3 Hv); reflexivity |].
           split; [| exact Hz3].
           intros pb' Hr. rewrite (Hok1 eq_refl), (Hok3 _ Hr), Hskip, Hrem.
           symmetry. apply expected_events_cons.
        -- inversion H; subst. exists (evs1 ++ pev).
           rewrite Ht2, Ht1, <- !app_assoc.
           split; [reflexivity |].
           rewrite !recv_calls_app, !sent_app, Hp2, Hp3, ?app_nil_r, ?Nat.add_0_r.
           split; [exact Hlt1 |]. split; [exact Hge1 |].
           split; [discriminate |].
           intros Hr. inversion Hr; subst.
           destruct (Hp5 _ eq_refl); discriminate.
      * exists evs1. split; [exact Ht1 |]. split; [exact Hlt1 |]. split; [exact Hge1 |].
        split; [discriminate |].
        intros Hr. inversion Hr; subst.
        destruct (Hraise1 _ eq_refl) as [He | (m & He)]; discriminate He.
Qed.

Lemma recv_calls_sockets (tr : list event) : recv_calls (sockets tr) = recv_calls tr.
Proof.
  unfold sockets. induction tr as [| e tr IH]; [reflexivity |].
  destruct e; cbn [filter is_socket recv_calls]; rewrite ?IH; reflexivity.
Qed.

Lemma recv_calls_expected_events (version : Z) (cs : list (list Z)) :
  recv_calls (expected_events version cs)
  = if OTA_VERSION_2_0 <=? version then List.length cs else 0%nat.
Proof.
  induction cs as [| c cs IH].
  - destruct (OTA_VERSION_2_0 <=? version); reflexivity.
  - rewrite expected_events_cons, recv_calls_app, IH. unfold expected_events. cbn [flat_map].
    destruct (OTA_VERSION_2_0 <=? version); reflexivity.
Qed.

(** The loop ends: with fuel beyond the number of chunks left it never
    runs out. *)
Lemma transfer_loop_terminates (rfuel : nat) (version : Z) (upload : list Z) (fuel : nat) :
  forall (offset : Z) (pb : ProgressBar.t) (w : world),
    0 <= offset ->
    (List.length (chunks (skipn (Z.to_nat offset) upload)) < fuel)%nat ->
    fst (transfer_loop rfuel fuel version upload offset pb w) <> Diverge.
Proof.
  induction fuel as [| fuel IH]; intros offset pb w Hoff Hfuel; [lia |].
  rewrite transfer_loop_unfold.
  pose proof (skip_after_chunk upload offset Hoff) as Hskip.
  pose proof (slice_block upload offset) as Hslice.
  set (rem := skipn (Z.to_nat offset) upload) in *.
  destruct (slice upload offset (offset + UPLOAD_BLOCK_SIZE)) as [| c0 crest] eqn:Hchunk;
    [discriminate |].
  cbv zeta. set (chunk := c0 :: crest) in *.
  assert (Hrem : chunks rem = chunk :: chunks (skipn BLOCK rem)).
  { destruct rem as [| b rest].
    - rewrite firstn_nil in Hslice. discriminate Hslice.
    - rewrite chunks_cons, <- Hslice. reflexivity. }
  unfold bind at 1.
  destruct (send_chunk rfuel version chunk w) as [[[] | e |] w1] eqn:E1;
    [| discriminate | destruct (send_chunk_spec _ _ _ _ _ _ E1) as (_ & _ & _ & _ & _ & _ & Hd);
                      exfalso; apply Hd; reflexivity].
  unfold bind at 1, lift at 1.
  destruct (PyNum.true_div (offset + len chunk) (len upload)) as [fraction | e |] eqn:Ed;
    [| discriminate | unfold PyNum.true_div in Ed; destruct (len upload =? 0); discriminate Ed].
  unfold bind at 1.
  destruct (update_trace pb fraction w1) as (_ & _ & _ & _ & _ & Hd & _).
  destruct (ProgressBar.update pb fraction w1) as [[pb1 | e |] w2];
    [| discriminate | exfalso; apply Hd; reflexivity].
  apply IH.
  - pose proof (len_nonneg chunk). lia.
  - rewrite Hskip. rewrite Hrem in Hfuel. cbn [List.length] in Hfuel. lia.
Qed.

(** C1.  In the Transfer step, below version 2 the engine makes no
    acknowledgement read at all; from version 2 on it makes one read for
    each chunk it has sent, whatever the outcome.  When the step completes,
    the socket has seen the 8192-byte chunks of the payload in order, each
    followed, from version 2 on, by the read of one 0x47 byte before the
    next chunk is sent, so that the number of acknowledgement reads is
    ceil(length / 8192) from version 2 on and 0 below.  The step does
    complete or fail: with fuel beyond the number of chunks it never runs
    out. *)
Theorem chunk_acknowledgements (rfuel fuel : nat) (version : Z) (upload : list Z)
    (pb : ProgressBar.t) (w : world) :
  let run := transfer_loop rfuel fuel version upload 0 pb w in
  let evs := events_since w (snd run) in
  (version < OTA_VERSION_2_0 -> recv_calls evs = 0%nat)
  /\ (OTA_VERSION_2_0 <= version -> recv_calls evs = List.length (sent evs))
  /\ (forall pb', fst run = Ok pb' ->
        sockets evs = expected_events version (chunks upload)
        /\ sent evs = chunks upload
        /\ Z.of_nat (recv_calls evs)
           = if OTA_VERSION_2_0 <=? version
             then (len upload + (UPLOAD_BLOCK_SIZE - 1)) / UPLOAD_BLOCK_SIZE
             else 0)
  /\ ((List.length (chunks upload) < fuel)%nat -> fst run <> Diverge).
Proof.
  cbv zeta.
  destruct (transfer_loop rfuel fuel version upload 0 pb w) as [r w'] eqn:E.
  destruct (transfer_loop_spec _ _ _ _ _ _ _ _ _ E ltac:(lia))
    as (evs & Ht & Hlt & Hge & Hok & _).
  cbn [fst snd]. rewrite (events_since_app _ _ _ Ht).
  change (skipn (Z.to_nat 0) upload) with upload in Hok.
  split; [exact Hlt |]. split; [exact Hge |]. split.
  - intros pb' Hr. specialize (Hok _ Hr). split; [exact Hok |]. split.
    + rewrite <- sent_sockets, Hok. apply sent_expected_events.
    + rewrite <- recv_calls_sockets, Hok, recv_calls_expected_events.
      destruct (OTA_VERSION_2_0 <=? version); [apply chunks_count | reflexivity].
  - intros Hfuel. pose proof (transfer_loop_terminates rfuel version upload fuel 0 pb w) as Hd.
    rewrite E in Hd. apply Hd; [lia | exact Hfuel].
Qed.

(** A payload of 8193 bytes to a version 2 device: two chunks, two
    acknowledgement reads. *)
Lemma chunk_acknowledgements_witness :
  Z.of_nat
    (recv_calls
       (events_since (connect [Seg 0x47 [0x47]] [])
          (snd (transfer_loop 1 3 2 (repeat 7 (Z.to_nat 8193)) 0 ProgressBar.init
                  (connect [Seg 0x47 [0x47]] [])))))
  = 2.
Proof.
  pose proof (chunk_acknowledgements 1 3 2 (repeat 7 (Z.to_nat 8193)) ProgressBar.init
                (connect [Seg 0x47 [0x47]] [])) as H.
  cbv zeta in H. destruct H as (_ & _ & H & _).
  destruct (H (ProgressBar.mk (Some 100)) ltac:(vm_compute; reflexivity)) as (_ & _ & Hn).
  rewrite Hn. vm_compute. reflexivity.
Defined.

(** ** The engine, step by step *)

Lemma tame_ret {A : Type} (a : A) : tame (ret a).
Proof.
  intros w r w' H. inversion H; subst. split; [exists []; now rewrite app_nil_r | discriminate].
Qed.

Lemma tame_diverge {A : Type} : tame (@diverge A).
Proof.
  intros w r w' H. inversion H; subst. split; [exists []; now rewrite app_nil_r | discriminate].
Qed.

Lemma tame_lift {A : Type} (o : outcome A) : o <> Raise ZeroDivisionError -> tame (lift o).
Proof.
  intros Ho w r w' H. inversion H; subst. split; [exists []; now rewrite app_nil_r | exact Ho].
Qed.

Lemma tame_raise {A : Type} (e : exn) : e <> ZeroDivisionError -> tame (@raise A e).
Proof.
  intros He w r w' H. inversion H; subst.
  split; [exists []; now rewrite app_nil_r | congruence].
Qed.

Lemma tame_bind {A B : Type} (m : M A) (k : A -> M B) :
  tame m -> (forall a, tame (k a)) -> tame (bind m k).
Proof.
  intros Hm Hk w r w' H. apply bind_inv in H.
  destruct H as [(a & w1 & E & H) | [(e & E & ->) | (E & ->)]].
  - destruct (Hm _ _ _ E) as [(evs1 & Ht1) _]. destruct (Hk a _ _ _ H) as [(evs2 & Ht2) Hr].
    split; [| exact Hr]. exists (evs1 ++ evs2). rewrite Ht2, Ht1. symmetry. apply app_assoc.
  - destruct (Hm _ _ _ E) as [Ht Hr]. split; [exact Ht |].
    intros He. apply Hr. inversion He. reflexivity.
  - destruct (Hm _ _ _ E) as [Ht _]. split; [exact Ht | discriminate].
Qed.

Lemma tame_try_except {A : Type} (m : M A) (handler : exn -> option (M A)) :
  tame m -> (forall e h, handler e = Some h -> tame h) -> tame (try_except m handler).
Proof.
  intros Hm Hh w r w' H. unfold try_except in H.
  destruct (m w) as [[a | e |] w1] eqn:E.
  - inversion H; subst. exact (Hm _ _ _ E).
  - destruct (handler e) as [h |] eqn:Eh.
    + destruct (Hm _ _ _ E) as [(evs1 & Ht1) _]. destruct (Hh _ _ Eh _ _ _ H) as [(evs2 & Ht2) Hr].
      split; [| exact Hr]. exists (evs1 ++ evs2). rewrite Ht2, Ht1. symmetry. apply app_assoc.
    + inversion H; subst. exact (Hm _ _ _ E).
  - inversion H; subst. exact (Hm _ _ _ E).
Qed.

Lemma tame_emit {A : Type} (a : A) (e : event) : tame (fun w => (Ok a, emit e w)).
Proof. intros w r w' H. inversion H; subst. split; [exists [e]; reflexivity | discriminate]. Qed.

Lemma tame_sock_recv (n : Z) : tame (sock_recv n).
Proof.
  intros w r w' H. unfold sock_recv in H.
  destruct (closed w); [inversion H; subst; split; [exists []; now rewrite app_nil_r | discriminate] |].
  destruct (n <? 0); [inversion H; subst; split; [exists []; now rewrite app_nil_r | discriminate] |].
  destruct (rx w) as [| [b bs | err] rest]; inversion H; subst;
    (split; [eexists [_]; reflexivity | discriminate]).
Qed.

Lemma tame_sock_sendall (data : list Z) : tame (sock_sendall data).
Proof.
  intros w r w' H. unfold sock_sendall in H.
  destruct (closed w); [inversion H; subst; split; [exists []; now rewrite app_nil_r | discriminate] |].
  destruct (tx w) as [| [| err] rest]; inversion H; subst;
    (split; [eexists [_]; reflexivity | discriminate]).
Qed.

Lemma tame_sock_close : tame sock_close.
Proof. intros w r w' H. inversion H; subst. split; [exists [EvClose]; reflexivity | discriminate]. Qed.

Lemma tame_sock_setsockopt (o : sockopt) : tame (sock_setsockopt o).
Proof.
  intros w r w' H. unfold sock_setsockopt in H.
  destruct (closed w); inversion H; subst.
  - split; [exists []; now rewrite app_nil_r | discriminate].
  - split; [eexists [_]; reflexivity | discriminate].
Qed.

Lemma tame_sock_settimeout (secs : Z) : tame (sock_settimeout secs).
Proof.
  intros w r w' H. unfold sock_settimeout in H.
  destruct (closed w); inversion H; subst.
  - split; [exists []; now rewrite app_nil_r | discriminate].
  - split; [eexists [_]; reflexivity | discriminate].
Qed.

Lemma tame_stderr_write (text : string) : tame (stderr_write text).
Proof. apply tame_emit. Qed.

Lemma tame_time_sleep (secs : Z) : tame (time_sleep secs).
Proof. apply tame_emit. Qed.

Lemma tame_except_OSError {A : Type} (f : string -> M A) :
  (forall err, tame (f err)) -> forall e h, except_OSError f e = Some h -> tame h.
Proof. intros Hf e h H. destruct e; inversion H; subst. apply Hf. Qed.

Lemma tame_except_OTAError {A : Type} (f : string -> M A) :
  (forall err, tame (f err)) -> forall e h, except_OTAError f e = Some h -> tame h.
Proof. intros Hf e h H. destruct e; inversion H; subst. apply Hf. Qed.

Lemma tame_recv_decode (amount : Z) (decode : bool) : tame (recv_decode amount decode).
Proof.
  apply tame_bind; [apply tame_sock_recv |]. intros data. destruct decode; apply tame_ret.
Qed.

Lemma tame_read_more (n : Z) (decode : bool) (describe : string -> string) (data : list Z) :
  tame (read_more n decode describe data).
Proof.
  apply tame_try_except.
  - apply tame_bind; [apply tame_recv_decode | intros; apply tame_ret].
  - apply tame_except_OSError. intros err. apply tame_raise. discriminate.
Qed.

Lemma tame_receive_rest (fuel : nat) (amount : Z) (msg : string) (decode : bool) :
  forall data, tame (receive_rest fuel amount msg decode data).
Proof.
  induction fuel as [| fuel IH]; intros data; rewrite receive_rest_unfold;
    destruct (len data <? amount); try apply tame_ret; [apply tame_diverge |].
  apply tame_bind; [apply tame_read_more | exact IH].
Qed.

Lemma check_error_no_zero_division (data : list Z) (expect : expect_arg) :
  check_error data expect <> Raise ZeroDivisionError.
Proof.
  intros H. destruct (check_error_raises _ _ _ H) as [(_ & He & _) | (b & rest & m & _ & He)];
    discriminate He.
Qed.

Lemma tame_receive_exactly (fuel : nat) (amount : Z) (msg : string) (expect : expect_arg)
    (decode : bool) :
  tame (receive_exactly fuel amount msg expect decode).
Proof.
  rewrite receive_exactly_unfold.
  apply tame_bind; [apply tame_read_more |]. intros data.
  apply tame_bind; [| intros; apply tame_receive_rest].
  apply tame_try_except; [apply tame_lift, check_error_no_zero_division |].
  apply tame_except_OTAError. intros err.
  apply tame_bind; [apply tame_sock_close | intros; apply tame_raise; discriminate].
Qed.

Lemma tame_send_check (data : payload) (msg : string) : tame (send_check data msg).
Proof.
  apply tame_try_except.
  - apply tame_bind; [| intros; apply tame_sock_sendall].
    apply tame_lift. destruct data; unfold bytes_of_list;
      try match goal with |- context [if ?c then _ else _] => destruct c end; discriminate.
  - apply tame_except_OSError. intros err. apply tame_raise. discriminate.
Qed.

Lemma tame_update (self : ProgressBar.t) (progress : PyNum.num) :
  tame (ProgressBar.update self progress).
Proof.
  intros w r w' H.
  destruct (update_trace self progress w) as (pev & Ht & _ & _ & _ & _ & Hraise).
  rewrite H in Ht, Hraise. cbn [fst snd] in *.
  split; [eauto |]. intros Hr. destruct (Hraise _ Hr); discriminate.
Qed.

Lemma tame_transfer_loop (rfuel fuel : nat) (version : Z) (upload : list Z)
    (progress : ProgressBar.t) :
  tame (transfer_loop rfuel fuel version upload 0 progress).
Proof.
  intros w r w' H.
  destruct (transfer_loop_spec _ _ _ _ _ _ _ _ _ H ltac:(lia)) as (evs & Ht & _ & _ & _ & Hz).
  eauto.
Qed.

Create HintDb tame.
#[local] Hint Resolve tame_ret tame_diverge tame_sock_close tame_sock_setsockopt
  tame_sock_settimeout tame_stderr_write tame_time_sleep tame_receive_exactly
  tame_send_check tame_update tame_transfer_loop tame_sock_sendall : tame.

Ltac tame_step :=
  first
    [ solve [auto with tame]
    | match goal with
      | |- tame (bind _ _) => apply tame_bind; [| intros]
      end
    | match goal with
      | |- tame (if ?c then _ else _) => destruct c
      | |- tame (lift _) =>
          apply tame_lift;
          repeat match goal with
                 | |- context [match ?x with _ => _ end] => destruct x
                 end;
          discriminate
      | |- tame (raise _) => apply tame_raise; discriminate
      | |- tame (ProgressBar.done _) => apply tame_stderr_write
      end ].

(** *** The steps of [perform_ota] *)

(** [perform_ota] is its steps in sequence. *)
Lemma perform_ota_unfold (gzip_compress : list Z -> list Z) (fuel : nat) (password : string)
    (file_contents : list Z) (random_repr : string) :
  perform_ota gzip_compress fuel password file_contents random_repr
  = (sock_setsockopt (TCP_NODELAY 1) ;;
     send_check (PList MAGIC_BYTES) "magic bytes" ;;
     reply <- receive_exactly fuel 2 "version" (ExpCode RESPONSE_OK) true ;;
     version <- lift (match reply with [_; version] => Ok version | _ => Raise ValueError end) ;;
     if negb (py_in version [OTA_VERSION_1_0; OTA_VERSION_2_0]) then
       raise (OTAError (MSG_UNSUPPORTED_VERSION version))
     else
       send_check (PInt FEATURE_SUPPORTS_COMPRESSION) "features" ;;
       reply <- receive_exactly fuel 1 "features"
                  (ExpList [RESPONSE_HEADER_OK; RESPONSE_SUPPORTS_COMPRESSION]) true ;;
       features <- lift (match reply with features :: _ => Ok features | [] => Raise IndexError end) ;;
       reply <- receive_exactly fuel 1 "auth"
                  (ExpList [RESPONSE_REQUEST_AUTH; RESPONSE_AUTH_OK]) true ;;
       auth <- lift (match reply with [auth] => Ok auth | _ => Raise ValueError end) ;;
       authenticate fuel password random_repr auth ;;
       prepare_and_upload fuel version
         (if features =? RESPONSE_SUPPORTS_COMPRESSION then gzip_compress file_contents
          else file_contents)).
Proof. reflexivity. Qed.

Lemma tame_finalize (fuel : nat) : tame (finalize fuel).
Proof. unfold finalize. repeat tame_step. Qed.

Lemma tame_transfer_and_finalize (fuel : nat) (version : Z) (upload : list Z) :
  tame (transfer_and_finalize fuel version upload).
Proof. unfold transfer_and_finalize. repeat tame_step. apply tame_finalize. Qed.

Lemma tame_prepare_and_upload (fuel : nat) (version : Z) (upload : list Z) :
  tame (prepare_and_upload fuel version upload).
Proof. unfold prepare_and_upload. repeat tame_step. apply tame_transfer_and_finalize. Qed.

Lemma tame_authenticate (fuel : nat) (password random_repr : string) (auth : Z) :
  tame (authenticate fuel password random_repr auth).
Proof.
  unfold authenticate. repeat tame_step.
  apply tame_lift. unfold decode. destruct (utf8_valid _); discriminate.
Qed.

Lemma tame_perform_ota (gz : list Z -> list Z) (fuel : nat) (password : string)
    (file_contents : list Z) (random_repr : string) :
  tame (perform_ota gz fuel password file_contents random_repr).
Proof.
  rewrite perform_ota_unfold. repeat tame_step.
  - apply tame_authenticate.
  - apply tame_prepare_and_upload.
Qed.

(** *** One step at a time *)

Lemma send_check_step (data : payload) (msg : string) (bytes : list Z)
    (w : world) (r : outcome unit) (w' : world) :
  payload_bytes data = Ok bytes ->
  closed w = false ->
  send_check data msg w = (r, w') ->
  closed w' = false
  /\ received (trace w') = received (trace w)
  /\ ((r = Ok tt /\ trace w' = trace w ++ [EvSend bytes]
       /\ sent (trace w') = sent (trace w) ++ [bytes])
      \/ ((exists m, r = Raise (OTAError m)) /\ sent (trace w') = sent (trace w))).
Proof.
  intros Hb Hc H. unfold send_check, try_except, bind, lift in H.
  fold (payload_bytes data) in H. rewrite Hb in H.
  destruct (sock_sendall bytes w) as [r0 w0] eqn:E.
  destruct (sock_sendall_cases _ _ _ _ E)
    as [(-> & _ & Hc' & Ht) | (err & evs & -> & Ht & Hevs)].
  - inversion H; subst. rewrite Ht, received_app, sent_app. cbn. rewrite app_nil_r.
    split; [exact Hc' |]. split; [reflexivity |]. left. auto.
  - cbn in H. inversion H; subst.
    assert (Hc' : closed w' = false).
    { destruct (sock_sendall_spec _ _ _ _ E) as (Hcc & _). congruence. }
    rewrite Ht, received_app, sent_app.
    split; [exact Hc' |].
    destruct Hevs as [-> | ->]; cbn; rewrite !app_nil_r;
      (split; [reflexivity |]); right; eauto.
Qed.

Lemma receive_exactly_step (fuel : nat) (amount : Z) (msg : string) (expect : expect_arg)
    (decode : bool) (w : world) (r : outcome (list Z)) (w' : world) :
  receive_exactly fuel amount msg expect decode w = (r, w') ->
  closed w = false ->
  1 <= amount ->
  sent (trace w') = sent (trace w)
  /\ exists rcv,
      received (trace w') = received (trace w) ++ rcv
      /\ match r with
         | Ok data =>
             data = rcv /\ len data = amount /\ closed w' = false
             /\ check_error data expect = Ok tt
         | _ => len rcv < amount \/ exists b, rcv = [b] /\ check_error [b] expect <> Ok tt
         end.
Proof.
  intros H Hc Ha.
  destruct (receive_exactly_spec _ _ _ _ _ _ _ _ H Hc Ha) as (evs & Ht & Hs & _ & Hres).
  rewrite Ht, sent_app, received_app, Hs, app_nil_r. split; [reflexivity |].
  exists (received evs). split; [reflexivity |].
  destruct r as [data | e |].
  - exact Hres.
  - destruct Hres as [(b & m & Hr & Hchk & _) | (_ & Hlen & _)]; [right | left; exact Hlen].
    exists b. split; [exact Hr |]. rewrite Hchk. discriminate.
  - left. apply Hres.
Qed.

Lemma sock_setsockopt_run (o : sockopt) (w : world) :
  closed w = false -> sock_setsockopt o w = (Ok tt, emit (EvSetsockopt o) w).
Proof. intros Hc. unfold sock_setsockopt. rewrite Hc. reflexivity. Qed.

Lemma land_255_in_byte_range (x : Z) : in_byte_range (Z.land x 0xFF) = true.
Proof.
  change 0xFF with (Z.ones 8). rewrite Z.land_ones by lia.
  unfold in_byte_range. pose proof (Z.mod_pos_bound x (2 ^ 8) ltac:(lia)) as H.
  change (2 ^ 8) with 256 in *.
  destruct (Z.leb_spec 0 (x mod 256)); destruct (Z.ltb_spec (x mod 256) 256); auto; lia.
Qed.

Lemma encode_size_bytes (n : Z) : payload_bytes (PList (encode_size n)) = Ok (encode_size n).
Proof.
  unfold payload_bytes, bytes_of_list, encode_size. cbn [forallb].
  rewrite !land_255_in_byte_range. reflexivity.
Qed.

(** The four bytes are the length, most significant byte first. *)
Lemma encode_size_big_endian (n : Z) :
  0 <= n < 2 ^ 32 ->
  match encode_size n with
  | [b3; b2; b1; b0] => ((b3 * 256 + b2) * 256 + b1) * 256 + b0 = n
  | _ => False
  end.
Proof.
  intros Hn. unfold encode_size.
  change 0xFF with (Z.ones 8). rewrite !Z.land_ones, !Z.shiftr_div_pow2 by lia.
  change (2 ^ 8) with 256. change (2 ^ 24) with 16777216. change (2 ^ 16) with 65536.
  change (2 ^ 0) with 1. change (2 ^ 32) with 4294967296 in Hn.
  rewrite Z.div_1_r.
  pose proof (Z.div_mod n 16777216 ltac:(lia)).
  pose proof (Z.div_mod n 65536 ltac:(lia)).
  pose proof (Z.div_mod n 256 ltac:(lia)).
  pose proof (Z.div_mod (n / 65536) 256 ltac:(lia)).
  pose proof (Z.div_mod (n / 256) 256 ltac:(lia)).
  pose proof (Z.div_mod (n / 16777216) 256 ltac:(lia)).
  rewrite (Z.div_div n 256 256) in * by lia.
  rewrite (Z.div_div n 65536 256) in * by lia.
  change (256 * 256) with 65536 in *. change (65536 * 256) with 16777216 in *.
  assert (n / 16777216 < 256) by (apply Z.div_lt_upper_bound; lia).
  assert (0 <= n / 16777216) by (apply Z.div_pos; lia).
  rewrite (Z.mod_small (n / 16777216) 256) by lia.
  lia.
Qed.

Lemma firstn_len_app {A : Type} (raw rest : list A) (n : nat) :
  len raw = Z.of_nat n -> firstn n (raw ++ rest) = raw.
Proof.
  intros H. assert (Hn : List.length raw = n) by (unfold len in H; lia).
  subst n. rewrite firstn_app, Nat.sub_diag, firstn_all. cbn. apply app_nil_r.
Qed.

(** The Auth step after the status byte, every outcome. *)
Lemma authenticate_spec (fuel : nat) (password random_repr : string) (auth : Z)
    (w : world) (r : outcome unit) (w' : world) :
  authenticate fuel password random_repr auth w = (r, w') ->
  closed w = false ->
  let cnonce := client_nonce random_repr in
  (auth <> RESPONSE_REQUEST_AUTH /\ r = Ok tt /\ w' = w)
  \/ (auth = RESPONSE_REQUEST_AUTH /\ is_empty password = true
      /\ r = Raise (OTAError MSG_NO_PASSWORD) /\ w' = w)
  \/ (auth = RESPONSE_REQUEST_AUTH /\ is_empty password = false
      /\ (forall u, r <> Ok u)
      /\ exists more,
          received (trace w') = received (trace w) ++ more
          /\ (sent (trace w') = sent (trace w)
              \/ exists nonce,
                  decode (firstn 32 more) = Ok nonce
                  /\ (sent (trace w') = sent (trace w) ++ [encode cnonce]
                      \/ sent (trace w')
                         = sent (trace w)
                             ++ [encode cnonce; encode (auth_result password nonce cnonce)])))
  \/ (auth = RESPONSE_REQUEST_AUTH /\ is_empty password = false
      /\ r = Ok tt /\ closed w' = false
      /\ exists raw nonce,
          len raw = 32 /\ decode raw = Ok nonce
          /\ received (trace w') = received (trace w) ++ raw ++ [RESPONSE_AUTH_OK]
          /\ sent (trace w')
             = sent (trace w) ++ [encode cnonce; encode (auth_result password nonce cnonce)]).
Proof.
  intros H Hc cnonce. unfold authenticate in H.
  destruct (Z.eqb_spec auth RESPONSE_REQUEST_AUTH) as [Ha | Ha];
    [| inversion H; subst; left; auto].
  right. destruct (is_empty password) eqn:Hpw; [inversion H; subst; left; auto |].
  right. fold (client_nonce random_repr) in H. fold cnonce in H.
  (* the nonce *)
  apply bind_inv in H.
  destruct H as [(raw & w1 & E1 & H) | [(e & E1 & ->) | (E1 & ->)]];
    destruct (receive_exactly_step _ _ _ _ _ _ _ _ E1 Hc ltac:(lia)) as (Hs1 & rcv1 & Hr1 & Hres1);
    [| left; repeat split; auto; try discriminate; exists rcv1; auto
     | left; repeat split; auto; try discriminate; exists rcv1; auto].
  destruct Hres1 as (<- & Hlen & Hc1 & _).
  (* its decoding *)
  unfold bind at 1, lift at 1 in H.
  destruct (decode raw) as [nonce | e |] eqn:Hdec;
    [| inversion H; subst; left; repeat split; auto; try discriminate; exists raw; auto
     | inversion H; subst; left; repeat split; auto; try discriminate; exists raw; auto].
  assert (Hfirst : forall rest, decode (firstn 32 (raw ++ rest)) = Ok nonce).
  { intros rest. rewrite (firstn_len_app raw rest 32) by exact Hlen. exact Hdec. }
  (* the client nonce *)
  apply bind_inv in H.
  destruct H as [([] & w2 & E3 & H) | [(e & E3 & ->) | (E3 & ->)]];
    destruct (send_check_step (PStr cnonce) _ (encode cnonce) _ _ _ eq_refl Hc1 E3)
      as (Hc2 & Hr2 & [(Hok & _ & Hs2) | ((m & Hm) & Hs2)]);
    try discriminate;
    [| left; repeat split; auto; try discriminate; exists raw; split; [congruence | left; congruence]].
  (* the digest *)
  apply bind_inv in H.
  destruct H as [([] & w3 & E4 & H) | [(e & E4 & ->) | (E4 & ->)]];
    destruct (send_check_step (PStr (auth_result password nonce cnonce)) _
                (encode (auth_result password nonce cnonce)) _ _ _ eq_refl Hc2 E4)
      as (Hc3 & Hr3 & [(Hok' & _ & Hs3) | ((m & Hm) & Hs3)]);
    try discriminate.
  2:{ left. repeat split; auto; try discriminate. exists raw. split; [congruence |].
      right. exists nonce. split; [rewrite <- (app_nil_r raw); apply Hfirst |].
      left. congruence. }
  (* the verdict *)
  assert (Hsent : sent (trace w3)
                  = sent (trace w) ++ [encode cnonce; encode (auth_result password nonce cnonce)]).
  { rewrite Hs3, Hs2, Hs1, <- app_assoc. reflexivity. }
  apply bind_inv in H.
  destruct H as [(reply & w4 & E5 & H) | [(e & E5 & ->) | (E5 & ->)]];
    destruct (receive_exactly_step _ _ _ _ _ _ _ _ E5 Hc3 ltac:(lia)) as (Hs4 & rcv4 & Hr4 & Hres4).
  - inversion H; subst. right. destruct Hres4 as (<- & Hlen4 & Hc4 & Hchk).
    destruct reply as [| b [| b' rest]]; try (unfold len in Hlen4; cbn in Hlen4; lia).
    apply (check_error_code_ok b RESPONSE_AUTH_OK eq_refl) in Hchk. subst b.
    repeat split; auto. exists raw, nonce. repeat split; auto; try congruence.
    rewrite Hr4, Hr3, Hr2, Hr1, <- app_assoc. reflexivity.
  - left. repeat split; auto; try discriminate. exists (raw ++ rcv4).
    split; [rewrite Hr4, Hr3, Hr2, Hr1, <- app_assoc; reflexivity |].
    right. exists nonce. split; [apply Hfirst |]. right. congruence.
  - left. repeat split; auto; try discriminate. exists (raw ++ rcv4).
    split; [rewrite Hr4, Hr3, Hr2, Hr1, <- app_assoc; reflexivity |].
    right. exists nonce. split; [apply Hfirst |]. right. congruence.
Qed.

Lemma check_error_accepts (b : Z) (expect : expect_arg) :
  truthy expect = true -> check_error [b] expect = Ok tt -> In b (as_list expect).
Proof.
  intros Ht H. rewrite (check_error_classify _ _ _ Ht) in H. unfold classify in H.
  destruct (lookup b named_errors); [discriminate H |].
  destruct (py_in b (as_list expect)) eqn:E; [| discriminate H].
  unfold py_in in E. apply existsb_exists in E. destruct E as (x & Hin & Hx).
  apply Z.eqb_eq in Hx. subst x. exact Hin.
Qed.

Lemma no_fourth_byte (pre rcv : list Z) (a : Z) :
  (List.length pre + List.length rcv <= 3)%nat -> nth_error (pre ++ rcv) 3 <> Some a.
Proof.
  intros Hlen H. assert (Hn : nth_error (pre ++ rcv) 3 = None).
  { apply nth_error_None. rewrite length_app. exact Hlen. }
  congruence.
Qed.

(** The received bytes of a failed or unfinished read of [amount] bytes
    number at most [max amount 1]. *)
Lemma failed_read_length (amount : Z) (expect : expect_arg) (rcv : list Z) :
  (len rcv < amount \/ exists b, rcv = [b] /\ check_error [b] expect <> Ok tt) ->
  1 <= amount ->
  len rcv <= amount.
Proof.
  intros [H | (b & -> & _)] Ha; [lia | unfold len; cbn; lia].
Qed.

(** The handshake, every outcome: it fails early, or for want of a
    password, or in the authentication exchange, or it passes and the
    engine goes on with PrepareUpdate. *)
Lemma perform_ota_handshake (gz : list Z -> list Z) (fuel : nat) (password : string)
    (file_contents : list Z) (random_repr : string) (rx : list rx_item) (tx : list tx_item)
    (r : outcome unit) (w' : world) :
  perform_ota gz fuel password file_contents random_repr (connect rx tx) = (r, w') ->
  let cnonce := client_nonce random_repr in
  let FEATURES := [FEATURE_SUPPORTS_COMPRESSION] in
  ((forall u, r <> Ok u)
   /\ (List.length (sent (trace w')) <= 2)%nat
   /\ (forall a, nth_error (received (trace w')) 3 = Some a -> a <> RESPONSE_REQUEST_AUTH))
  \/ (is_empty password = true
      /\ r = Raise (OTAError MSG_NO_PASSWORD)
      /\ sent (trace w') = [MAGIC_BYTES; FEATURES]
      /\ (exists s v f, received (trace w') = [s; v; f; RESPONSE_REQUEST_AUTH])
      /\ (exists pre, trace w' = pre ++ [EvRecv 1 [RESPONSE_REQUEST_AUTH]])
      /\ closed w' = false)
  \/ (is_empty password = false
      /\ (forall u, r <> Ok u)
      /\ exists s v f more,
          received (trace w') = s :: v :: f :: RESPONSE_REQUEST_AUTH :: more
          /\ (sent (trace w') = [MAGIC_BYTES; FEATURES]
              \/ exists nonce,
                  decode (firstn 32 more) = Ok nonce
                  /\ (sent (trace w') = [MAGIC_BYTES; FEATURES; encode cnonce]
                      \/ sent (trace w')
                         = [MAGIC_BYTES; FEATURES; encode cnonce;
                            encode (auth_result password nonce cnonce)])))
  \/ (exists s v f a w_mid,
         (v = OTA_VERSION_1_0 \/ v = OTA_VERSION_2_0)
         /\ (f = RESPONSE_HEADER_OK \/ f = RESPONSE_SUPPORTS_COMPRESSION)
         /\ closed w_mid = false
         /\ prepare_and_upload fuel v
              (if f =? RESPONSE_SUPPORTS_COMPRESSION then gz file_contents else file_contents)
              w_mid
            = (r, w')
         /\ ((a = RESPONSE_AUTH_OK
              /\ received (trace w_mid) = [s; v; f; a]
              /\ sent (trace w_mid) = [MAGIC_BYTES; FEATURES])
             \/ (a = RESPONSE_REQUEST_AUTH
                 /\ is_empty password = false
                 /\ exists raw nonce,
                     len raw = 32 /\ decode raw = Ok nonce
                     /\ received (trace w_mid) = [s; v; f; a] ++ raw ++ [RESPONSE_AUTH_OK]
                     /\ sent (trace w_mid)
                        = [MAGIC_BYTES; FEATURES; encode cnonce;
                           encode (auth_result password nonce cnonce)]))).
Proof.
  intros H cnonce FEATURES. rewrite perform_ota_unfold in H.
  (* Init *)
  unfold bind at 1 in H. rewrite sock_setsockopt_run in H by reflexivity.
  set (w0 := emit (EvSetsockopt (TCP_NODELAY 1)) (connect rx tx)) in H.
  assert (Hc0 : closed w0 = false) by reflexivity.
  assert (Hs0 : sent (trace w0) = []) by reflexivity.
  assert (Hr0 : received (trace w0) = []) by reflexivity.
  clearbody w0.
  apply bind_inv in H.
  destruct H as [([] & w1 & E1 & H) | [(e & E1 & ->) | (E1 & ->)]];
    destruct (send_check_step (PList MAGIC_BYTES) _ MAGIC_BYTES _ _ _ eq_refl Hc0 E1)
      as (Hc1 & Hr1 & [(Hok & _ & Hs1) | ((m & Hm) & Hs1)]);
    try discriminate;
    [| left; rewrite Hs1, Hs0, Hr1, Hr0; repeat split; try discriminate; cbn; try lia;
       try (intros a Ha; discriminate Ha)].
  rewrite Hs0 in Hs1. rewrite Hr0 in Hr1. cbn [app] in Hs1.
  (* VersionCheck *)
  apply bind_inv in H.
  destruct H as [(reply & w2 & E2 & H) | [(e & E2 & ->) | (E2 & ->)]];
    destruct (receive_exactly_step _ _ _ _ _ _ _ _ E2 Hc1 ltac:(lia)) as (Hs2 & rcv2 & Hr2 & Hres2);
    rewrite Hs1 in Hs2; rewrite Hr1 in Hr2; cbn [app] in Hr2;
    try (pose proof (failed_read_length _ _ _ Hres2 ltac:(lia)) as Hl2;
         left; rewrite Hs2, Hr2; repeat split; try discriminate; cbn; try lia;
         intros a Ha; exfalso; apply (no_fourth_byte [] rcv2 a); [unfold len in Hl2; cbn; lia | exact Ha]).
  destruct Hres2 as (<- & Hlen2 & Hc2 & _).
  destruct reply as [| s [| v [| x rest]]]; try (unfold len in Hlen2; cbn in Hlen2; lia).
  unfold bind at 1, lift at 1 in H.
  destruct (negb (py_in v [OTA_VERSION_1_0; OTA_VERSION_2_0])) eqn:Hv.
  { inversion H; subst. left. rewrite Hs2, Hr2.
    repeat split; try discriminate; cbn; lia. }
  assert (Hversion : v = OTA_VERSION_1_0 \/ v = OTA_VERSION_2_0).
  { apply negb_false_iff in Hv. unfold py_in in Hv. cbn [existsb] in Hv.
    destruct (Z.eqb_spec v OTA_VERSION_1_0); [auto |].
    destruct (Z.eqb_spec v OTA_VERSION_2_0); [auto | discriminate Hv]. }
  (* FeatureNegotiation *)
  apply bind_inv in H.
  destruct H as [([] & w3 & E3 & H) | [(e & E3 & ->) | (E3 & ->)]];
    destruct (send_check_step (PInt FEATURE_SUPPORTS_COMPRESSION) _ FEATURES _ _ _ eq_refl Hc2 E3)
      as (Hc3 & Hr3 & [(Hok3 & _ & Hs3) | ((m & Hm) & Hs3)]);
    try discriminate;
    rewrite Hs2 in Hs3; rewrite Hr2 in Hr3; cbn [app] in Hs3;
    [| left; rewrite Hs3, Hr3; repeat split; try discriminate; cbn; try lia;
       try (intros a Ha; discriminate Ha)].
  apply bind_inv in H.
  destruct H as [(reply & w4 & E4 & H) | [(e & E4 & ->) | (E4 & ->)]];
    destruct (receive_exactly_step _ _ _ _ _ _ _ _ E4 Hc3 ltac:(lia)) as (Hs4 & rcv4 & Hr4 & Hres4);
    rewrite Hs3 in Hs4; rewrite Hr3 in Hr4;
    try (pose proof (failed_read_length _ _ _ Hres4 ltac:(lia)) as Hl4;
         left; rewrite Hs4, Hr4; repeat split; try discriminate; cbn; try lia;
         intros a Ha; exfalso; apply (no_fourth_byte [s; v] rcv4 a);
         [unfold len in Hl4; cbn; lia | exact Ha]).
  destruct Hres4 as (<- & Hlen4 & Hc4 & Hchk4).
  destruct reply as [| f [| x rest]]; try (unfold len in Hlen4; cbn in Hlen4; lia).
  cbn [app] in Hr4.
  assert (Hfeatures : f = RESPONSE_HEADER_OK \/ f = RESPONSE_SUPPORTS_COMPRESSION).
  { apply check_error_accepts in Hchk4; [| reflexivity].
    cbn in Hchk4. intuition congruence. }
  unfold bind at 1, lift at 1 in H.
  (* Auth *)
  apply bind_inv in H.
  destruct H as [(reply & w5 & E5 & H) | [(e & E5 & ->) | (E5 & ->)]];
    destruct (receive_exactly_step _ _ _ _ _ _ _ _ E5 Hc4 ltac:(lia)) as (Hs5 & rcv5 & Hr5 & Hres5);
    rewrite Hs4 in Hs5; rewrite Hr4 in Hr5;
    try (left; rewrite Hs5, Hr5; repeat split; try discriminate; cbn; try lia;
         intros a Ha;
         destruct Hres5 as [Hshort | (b & -> & Hrefused)];
         [ exfalso; apply (no_fourth_byte [s; v; f] rcv5 a);
           [unfold len in Hshort; cbn; lia | exact Ha]
         | cbn in Ha; inversion Ha; subst b; intros ->; apply Hrefused; reflexivity ]).
  destruct (receive_exactly_one_spec _ _ _ _ _ _ _ E5 Hc4 eq_refl)
    as (ev & tail & Ht5 & _ & _ & _ & Hone & _).
  destruct (Hone _ eq_refl) as (a & -> & -> & -> & Hchk5 & Hc5).
  destruct Hres5 as (<- & _ & _ & _). cbn [app] in Hr5.
  unfold bind at 1, lift at 1 in H.
  apply bind_inv in H.
  destruct H as [([] & w6 & E6 & H) | [(e & E6 & ->) | (E6 & ->)]];
    destruct (authenticate_spec _ _ _ _ _ _ _ E6 Hc5)
      as [(Ha & Hr & ->)
         | [(-> & Hpw & Hr & ->)
           | [(-> & Hpw & Hr & more & Hrm & Hsm)
             | (-> & Hpw & Hr & Hc6 & raw & nonce & Hlen & Hdec & Hr6 & Hs6)]]];
    try discriminate Hr; try (exfalso; exact (Hr tt eq_refl)).
  - (* no authentication wanted *)
    right. right. right. exists s, v, f, a, w5.
    repeat split; auto. left. repeat split; auto.
    apply check_error_accepts in Hchk5; [| reflexivity].
    cbn in Hchk5. intuition congruence.
  - (* authenticated *)
    right. right. right. exists s, v, f, RESPONSE_REQUEST_AUTH, w6.
    repeat split; auto. right. repeat split; auto.
    exists raw, nonce. rewrite Hr6, Hs6, Hr5, Hs5. repeat split; auto.
  - (* no password *)
    inversion Hr; subst e.
    right. left. repeat split; eauto.
  - (* the exchange failed *)
    right. right. left. split; [exact Hpw |]. split; [exact Hr |].
    exists s, v, f, more. rewrite Hrm, Hr5. split; [reflexivity |].
    rewrite Hs5 in Hsm. exact Hsm.
  - right. right. left. split; [exact Hpw |]. split; [exact Hr |].
    exists s, v, f, more. rewrite Hrm, Hr5. split; [reflexivity |].
    rewrite Hs5 in Hsm. exact Hsm.
Qed.

(** PrepareUpdate and ChecksumExchange: the first message sent is the
    encoded length of the payload handed over, the second the hexadecimal
    MD5 digest of that payload. *)
Lemma prepare_and_upload_spec (fuel : nat) (version : Z) (upload : list Z)
    (w : world) (r : outcome unit) (w' : world) :
  prepare_and_upload fuel version upload w = (r, w') ->
  closed w = false ->
  exists snt rcv,
    sent (trace w') = sent (trace w) ++ snt
    /\ received (trace w') = received (trace w) ++ rcv
    /\ (forall m, nth_error snt 0 = Some m -> m = encode_size (len upload))
    /\ (forall m, nth_error snt 1 = Some m
                  -> m = encode (Hashlib.hexdigest (Hashlib.new upload))).
Proof.
  intros H Hc. unfold prepare_and_upload in H.
  unfold bind at 1, sock_settimeout at 1 in H. rewrite Hc in H.
  set (w0 := emit (EvSettimeout 30) w) in H.
  assert (Hc0 : closed w0 = false) by exact Hc.
  assert (Hs0 : sent (trace w0) = sent (trace w)).
  { unfold w0. rewrite trace_emit, sent_app. apply app_nil_r. }
  assert (Hr0 : received (trace w0) = received (trace w)).
  { unfold w0. rewrite trace_emit, received_app. apply app_nil_r. }
  clearbody w0.
  set (size := encode_size (len upload)) in *.
  set (digest := encode (Hashlib.hexdigest (Hashlib.new upload))) in *.
  assert (Hnone : forall (P : list Z -> Prop) (m : list Z), nth_error (@nil (list Z)) 0 = Some m -> P m)
    by (intros P m Hm; discriminate Hm).
  (* the length *)
  apply bind_inv in H.
  destruct H as [([] & w1 & E1 & H) | [(e & E1 & ->) | (E1 & ->)]];
    destruct (send_check_step (PList size) _ size _ _ _ (encode_size_bytes _) Hc0 E1)
      as (Hc1 & Hr1 & [(Hok & _ & Hs1) | ((m & Hm) & Hs1)]);
    try discriminate;
    [| exists [], []; rewrite Hs1, Hr1, Hs0, Hr0, !app_nil_r;
       repeat split; intros m' Hm'; discriminate Hm'].
  apply bind_inv in H.
  destruct H as [(reply & w2 & E2 & H) | [(e & E2 & ->) | (E2 & ->)]];
    destruct (receive_exactly_step _ _ _ _ _ _ _ _ E2 Hc1 ltac:(lia)) as (Hs2 & rcv2 & Hr2 & Hres2);
    try (exists [size], rcv2; rewrite Hs2, Hs1, Hs0, Hr2, Hr1, Hr0;
         repeat split; intros m' Hm'; inversion Hm'; reflexivity).
  destruct Hres2 as (_ & _ & Hc2 & _).
  (* the checksum *)
  apply bind_inv in H.
  destruct H as [([] & w3 & E3 & H) | [(e & E3 & ->) | (E3 & ->)]];
    destruct (send_check_step (PStr (Hashlib.hexdigest (Hashlib.new upload))) _ digest
                _ _ _ eq_refl Hc2 E3)
      as (Hc3 & Hr3 & [(Hok3 & _ & Hs3) | ((m & Hm) & Hs3)]);
    try discriminate;
    [| exists [size], rcv2; rewrite Hs3, Hr3, Hs2, Hs1, Hs0, Hr2, Hr1, Hr0;
       repeat split; intros m' Hm'; inversion Hm'; reflexivity].
  (* the rest only adds to the trace *)
  destruct (tame_bind _ _ (tame_receive_exactly fuel 1 "file checksum"
                             (ExpCode RESPONSE_BIN_MD5_OK) true)
              (fun _ => tame_transfer_and_finalize fuel version upload) _ _ _ H)
    as [(evs & Ht) _].
  exists ([size; digest] ++ sent evs), (rcv2 ++ received evs).
  rewrite Ht, sent_app, received_app, Hs3, Hr3, Hs2, Hs1, Hs0, Hr2, Hr1, Hr0, <- !app_assoc.
  repeat split; intros m' Hm'; inversion Hm'; reflexivity.
Qed.

Lemma nth_error_app_left {A : Type} (l l' : list A) (n : nat) (x : A) :
  nth_error l n = Some x -> nth_error (l ++ l') n = Some x.
Proof.
  intros H. rewrite nth_error_app1; [exact H |].
  apply nth_error_Some. congruence.
Qed.

(** C3.  In any run, let [f] be the byte read in feature negotiation and
    [a] the byte read next, in the Auth step.  The payload the engine goes
    on with is the compressed file exactly when [f] is 0x46, and the file
    as it is when [f] is 0x40; no other byte passes.  The message sent in
    PrepareUpdate (the third message, or the fifth after an authentication
    exchange) is the four-byte big-endian length of that payload, and the
    message sent in ChecksumExchange is the hexadecimal MD5 digest of that
    payload. *)
Theorem compression_decided_by_feature_byte (gz : list Z -> list Z) (fuel : nat)
    (password : string) (file_contents : list Z) (random_repr : string)
    (rx : list rx_item) (tx : list tx_item) :
  let run := perform_ota gz fuel password file_contents random_repr (connect rx tx) in
  let messages := sent (trace (snd run)) in
  let replies := received (trace (snd run)) in
  forall f a,
    nth_error replies 2 = Some f ->
    nth_error replies 3 = Some a ->
    let upload_contents :=
      if f =? RESPONSE_SUPPORTS_COMPRESSION then gz file_contents else file_contents in
    let k := size_index a in
    forall size_message,
      nth_error messages k = Some size_message ->
      (f = RESPONSE_SUPPORTS_COMPRESSION \/ f = RESPONSE_HEADER_OK)
      /\ size_message = encode_size (len upload_contents)
      /\ (len upload_contents < 2 ^ 32 ->
          match size_message with
          | [b3; b2; b1; b0] => ((b3 * 256 + b2) * 256 + b1) * 256 + b0 = len upload_contents
          | _ => False
          end)
      /\ (forall m, nth_error messages (S k) = Some m ->
                    m = encode (Hashlib.hexdigest (Hashlib.new upload_contents))).
Proof.
  cbv zeta.
  destruct (perform_ota gz fuel password file_contents random_repr (connect rx tx))
    as [r w'] eqn:E.
  cbn [snd]. intros f a Hf Ha size_message Hsize.
  destruct (perform_ota_handshake _ _ _ _ _ _ _ _ _ E)
    as [(_ & Hshort & _)
       | [(_ & _ & Hs & _)
         | [(_ & _ & s & v & f' & more & Hr & Hs)
           | (s & v & f' & a' & w_mid & _ & Hfeat & Hc & Hrest & Hauth)]]].
  - (* early failure: no such message *)
    exfalso. assert (Hn : nth_error (sent (trace w')) (size_index a) = None).
    { apply nth_error_None. unfold size_index. destruct (a =? RESPONSE_REQUEST_AUTH); lia. }
    congruence.
  - exfalso. rewrite Hs in Hsize. unfold size_index in Hsize.
    destruct (a =? RESPONSE_REQUEST_AUTH); discriminate Hsize.
  - exfalso. rewrite Hr in Ha. cbn in Ha. inversion Ha; subst a.
    cbn in Hsize.
    destruct Hs as [Hs | (nonce & _ & [Hs | Hs])]; rewrite Hs in Hsize; discriminate Hsize.
  - destruct (prepare_and_upload_spec _ _ _ _ _ _ Hrest Hc)
      as (snt & rcv & Hs & Hr & Hfirst & Hsecond).
    assert (Hfa : f' = f /\ a' = a
                  /\ exists pre, sent (trace w_mid) = pre
                                 /\ List.length pre = (size_index a)).
    { destruct Hauth as [(-> & Hrm & Hsm) | (-> & _ & raw & nonce & _ & _ & Hrm & Hsm)];
        rewrite Hrm in Hr; rewrite Hr in Hf, Ha; cbn in Hf, Ha;
        inversion Hf; inversion Ha; subst; rewrite Hsm; repeat split; eauto. }
    destruct Hfa as (-> & -> & pre & Hpre & Hlen).
    rewrite Hpre in Hs. rewrite Hs in *.
    assert (Hk : forall i m, nth_error (pre ++ snt)
                                (i + size_index a) = Some m
                             -> nth_error snt i = Some m).
    { intros i m Hm. rewrite nth_error_app2 in Hm by lia.
      rewrite Hlen, Nat.add_sub in Hm. exact Hm. }
    pose proof (Hfirst _ (Hk 0%nat _ Hsize)) as ->.
    split; [tauto |]. split; [reflexivity |]. split.
    + intros Hlt. apply encode_size_big_endian. split; [apply len_nonneg | exact Hlt].
    + intros m Hm. apply Hsecond. apply (Hk 1%nat). exact Hm.
Qed.

(** A device that accepts compression and asks for no authentication. *)
Lemma compression_decided_by_feature_byte_witness :
  nth_error
    (sent (trace (snd (perform_ota toy_gzip 2 EmptyString [7; 7; 7] "0.5"
                         (connect [Seg 0 [1; 0x46; 0x41; 0x42; 0x43; 0x44; 0x45]] [])))))
    2
  = Some [0; 0; 0; 6]
  /\ [0; 0; 0; 6] = encode_size (len (toy_gzip [7; 7; 7])).
Proof.
  split; [vm_compute; reflexivity |].
  apply (compression_decided_by_feature_byte toy_gzip 2 EmptyString [7; 7; 7] "0.5"
           [Seg 0 [1; 0x46; 0x41; 0x42; 0x43; 0x44; 0x45]] []
           0x46 0x41 ltac:(vm_compute; reflexivity) ltac:(vm_compute; reflexivity)
           [0; 0; 0; 6] ltac:(vm_compute; reflexivity)).
Defined.

(** C7.  If the device requests authentication and no password was
    supplied, the engine fails with the missing-password error right after
    reading the status byte: nothing of the nonce has been read and
    nothing has been sent beyond the magic bytes and the feature byte. *)
Theorem missing_password_fails_before_nonce (gz : list Z -> list Z) (fuel : nat)
    (file_contents : list Z) (random_repr : string)
    (rx : list rx_item) (tx : list tx_item) :
  let run := perform_ota gz fuel EmptyString file_contents random_repr (connect rx tx) in
  nth_error (received (trace (snd run))) 3 = Some RESPONSE_REQUEST_AUTH ->
  fst run = Raise (OTAError MSG_NO_PASSWORD)
  /\ List.length (received (trace (snd run))) = 4%nat
  /\ sent (trace (snd run)) = [MAGIC_BYTES; [FEATURE_SUPPORTS_COMPRESSION]]
  /\ exists pre, trace (snd run) = pre ++ [EvRecv 1 [RESPONSE_REQUEST_AUTH]].
Proof.
  cbv zeta.
  destruct (perform_ota gz fuel EmptyString file_contents random_repr (connect rx tx))
    as [r w'] eqn:E.
  cbn [fst snd]. intros Ha.
  destruct (perform_ota_handshake _ _ _ _ _ _ _ _ _ E)
    as [(_ & _ & Hno)
       | [(_ & Hr & Hs & (s & v & f & Hrcv) & Hpre & _)
         | [(Hpw & _)
           | (s & v & f & a' & w_mid & _ & _ & Hc & Hrest & Hauth)]]].
  - exfalso. exact (Hno _ Ha eq_refl).
  - rewrite Hrcv. auto.
  - discriminate Hpw.
  - exfalso.
    destruct (prepare_and_upload_spec _ _ _ _ _ _ Hrest Hc) as (snt & rcv & _ & Hr & _).
    destruct Hauth as [(-> & Hrm & _) | (_ & Hpw & _)]; [| discriminate Hpw].
    rewrite Hr, Hrm in Ha. cbn in Ha. discriminate Ha.
Qed.

Lemma missing_password_fails_before_nonce_witness :
  fst (perform_ota toy_gzip 2 EmptyString [7] "0.5"
         (connect [Seg 0 [2; 0x40; 0x01]; Seg 97 (tl nonce32)] []))
  = Raise (OTAError MSG_NO_PASSWORD).
Proof.
  apply (missing_password_fails_before_nonce toy_gzip 2 [7] "0.5"
           [Seg 0 [2; 0x40; 0x01]; Seg 97 (tl nonce32)] []).
  vm_compute. reflexivity.
Defined.

(** C10.  For an empty payload the Transfer loop returns at once: it
    sends no chunk, does not call the progress update and evaluates no
    division, leaving the world and the progress bar as they were; the
    engine goes from the socket options of the Transfer step straight to
    [done()] and Finalize.  Nor does any run of the engine, with any
    payload, raise [ZeroDivisionError]. *)
Theorem empty_payload_skips_transfer :
  (forall rfuel fuel version progress w,
      transfer_loop rfuel (S fuel) version [] 0 progress w = (Ok progress, w))
  /\ (forall fuel version w,
         closed w = false ->
         transfer_and_finalize (S fuel) version [] w
         = finalize (S fuel)
             (emit (EvStderr ProgressBar.LF)
                (emit (EvSetsockopt (SO_SNDBUF UPLOAD_BUFFER_SIZE))
                   (emit (EvSetsockopt (TCP_NODELAY 0)) w))))
  /\ (forall rfuel fuel version upload_contents progress w,
         fst (transfer_loop rfuel fuel version upload_contents 0 progress w)
         <> Raise ZeroDivisionError)
  /\ (forall gz fuel password file_contents random_repr w,
         fst (perform_ota gz fuel password file_contents random_repr w)
         <> Raise ZeroDivisionError).
Proof.
  split; [| split; [| split]].
  - reflexivity.
  - intros fuel version w Hc. unfold transfer_and_finalize.
    unfold bind at 1. rewrite sock_setsockopt_run by exact Hc.
    unfold bind at 1. rewrite sock_setsockopt_run by exact Hc.
    reflexivity.
  - intros rfuel fuel version upload_contents progress w.
    destruct (transfer_loop rfuel fuel version upload_contents 0 progress w) as [r w'] eqn:E.
    exact (proj2 (tame_transfer_loop _ _ _ _ _ _ _ _ E)).
  - intros gz fuel password file_contents random_repr w.
    destruct (perform_ota gz fuel password file_contents random_repr w) as [r w'] eqn:E.
    exact (proj2 (tame_perform_ota _ _ _ _ _ _ _ _ E)).
Qed.

Lemma empty_payload_skips_transfer_witness :
  transfer_and_finalize 1 1 [] (connect [Seg 0x44 [0x45]] [])
  = finalize 1
      (emit (EvStderr ProgressBar.LF)
         (emit (EvSetsockopt (SO_SNDBUF UPLOAD_BUFFER_SIZE))
            (emit (EvSetsockopt (TCP_NODELAY 0)) (connect [Seg 0x44 [0x45]] [])))).
Proof.
  apply (proj1 (proj2 empty_payload_skips_transfer) 0%nat 1 (connect [Seg 0x44 [0x45]] [])).
  reflexivity.
Defined.

(** An empty file to a device that does not compress: after the checksum
    exchange come the socket options, the newline of [done()], and
    Finalize; no chunk, no render. *)
Example empty_file_upload :
  perform_ota toy_gzip 1 EmptyString [] "0.5"
    (connect [Seg 0 [1; 0x40; 0x41; 0x42; 0x43; 0x44; 0x45]] [])
  = (Ok tt,
     mkWorld [] [] false
       [EvSetsockopt (TCP_NODELAY 1); EvSend MAGIC_BYTES; EvRecv 1 [0]; EvRecv 1 [1];
        EvSend [1]; EvRecv 1 [0x40]; EvRecv 1 [0x41]; EvSettimeout 30;
        EvSend [0; 0; 0; 0]; EvRecv 1 [0x42];
        EvSend (encode "d41d8cd98f00b204e9800998ecf8427e"); EvRecv 1 [0x43];
        EvSetsockopt (TCP_NODELAY 0); EvSetsockopt (SO_SNDBUF 65536);
        EvStderr ProgressBar.LF;
        EvSetsockopt (TCP_NODELAY 1); EvRecv 1 [0x44]; EvRecv 1 [0x45]; EvSend [0];
        EvSleep 1]).
Proof. vm_compute. reflexivity. Qed.

(** ** The authentication digest *)

Lemma in_range_true (lo hi b : Z) : in_range lo hi b = true -> lo <= b <= hi.
Proof. unfold in_range. intros H. apply andb_true_iff in H. lia. Qed.

Ltac ranges :=
  repeat match goal with
         | H : _ && _ = true |- _ => apply andb_true_iff in H; destruct H
         | H : in_range _ _ _ = true |- _ => apply in_range_true in H
         | H : continuation _ = true |- _ => apply in_range_true in H
         | H : (if ?c then _ else _) = true |- _ => destruct c
         end.

(** A valid UTF-8 sequence is made of bytes. *)
Lemma utf8_valid_bytes (n : nat) :
  forall bs : list Z,
    (List.length bs <= n)%nat -> utf8_valid bs = true -> Forall (fun b => 0 <= b < 256) bs.
Proof.
  induction n as [| n IH]; intros bs Hlen H.
  - destruct bs; [constructor | cbn in Hlen; lia].
  - destruct bs as [| b0 t0]; [constructor |]. cbn [utf8_valid] in H. cbn [List.length] in Hlen.
    destruct (in_range 0 127 b0) eqn:E0.
    { apply in_range_true in E0. constructor; [lia | apply IH; [lia | exact H]]. }
    destruct t0 as [| b1 t1]; [discriminate H |]. cbn [List.length] in Hlen.
    destruct (in_range 194 223 b0) eqn:E1.
    { ranges. repeat (constructor; [lia |]). apply IH; [lia | assumption]. }
    destruct t1 as [| b2 t2]; [discriminate H |]. cbn [List.length] in Hlen.
    destruct (in_range 224 239 b0) eqn:E2.
    { ranges; repeat (constructor; [lia |]); (apply IH; [lia | assumption]). }
    destruct t2 as [| b3 t3]; [discriminate H |]. cbn [List.length] in Hlen.
    ranges; repeat (constructor; [lia |]); (apply IH; [lia | assumption]).
Qed.

(** Decoding then encoding gives the bytes back. *)
Lemma encode_decode (raw : list Z) (text : string) :
  decode raw = Ok text -> encode text = raw.
Proof.
  unfold decode. destruct (utf8_valid raw) eqn:Hv; [| discriminate].
  intros H. inversion H; subst text. clear H.
  unfold encode. rewrite list_ascii_of_string_of_list_ascii, map_map.
  pose proof (utf8_valid_bytes _ raw (Nat.le_refl _) Hv) as Hb. clear Hv.
  induction Hb as [| b rest Hb _ IH]; [reflexivity |].
  cbn [map]. rewrite IH. f_equal.
  rewrite nat_ascii_embedding by lia. lia.
Qed.

Lemma hex_digit_lower (d : Z) : 0 <= d < 16 -> is_lower_hex (hex_digit false d) = true.
Proof.
  intros H.
  assert (Hd : d = 0 \/ d = 1 \/ d = 2 \/ d = 3 \/ d = 4 \/ d = 5 \/ d = 6 \/ d = 7
               \/ d = 8 \/ d = 9 \/ d = 10 \/ d = 11 \/ d = 12 \/ d = 13 \/ d = 14 \/ d = 15)
    by lia.
  repeat (destruct Hd as [-> | Hd]; [reflexivity |]). subst d. reflexivity.
Qed.

Lemma hexlify_shape (bs : list Z) :
  Forall (fun b => 0 <= b < 256) bs ->
  String.length (Hashlib.hexlify bs) = (2 * List.length bs)%nat
  /\ string_forall is_lower_hex (Hashlib.hexlify bs) = true.
Proof.
  induction 1 as [| b rest Hb _ [IHl IHf]]; [split; reflexivity |].
  cbn [Hashlib.hexlify String.length string_forall List.length]. rewrite IHl, IHf. split; [lia |].
  rewrite !hex_digit_lower; [reflexivity | |].
  - apply Z.mod_pos_bound. lia.
  - split; [apply Z.div_pos; lia | apply Z.div_lt_upper_bound; lia].
Qed.

Lemma le_bytes_shape (count : nat) :
  forall x : Z,
    List.length (Hashlib.le_bytes count x) = count
    /\ Forall (fun b => 0 <= b < 256) (Hashlib.le_bytes count x).
Proof.
  induction count as [| count IH]; intros x; [split; [reflexivity | constructor] |].
  destruct (IH (Z.shiftr x 8)) as [IHl IHf].
  cbn [Hashlib.le_bytes List.length]. rewrite IHl. split; [reflexivity |].
  constructor; [| exact IHf].
  pose proof (land_255_in_byte_range x) as Hr. unfold in_byte_range in Hr.
  apply andb_true_iff in Hr. lia.
Qed.

(** An MD5 digest is 128 bits: sixteen bytes. *)
Lemma md5_digest_shape (msg : list Z) :
  List.length (Hashlib.md5_digest msg) = 16%nat
  /\ Forall (fun b => 0 <= b < 256) (Hashlib.md5_digest msg).
Proof.
  unfold Hashlib.md5_digest.
  destruct (Hashlib.blocks _ _ _) as [[[a b] c] d].
  destruct (le_bytes_shape 4 a) as [La Fa]. destruct (le_bytes_shape 4 b) as [Lb Fb].
  destruct (le_bytes_shape 4 c) as [Lc Fc]. destruct (le_bytes_shape 4 d) as [Ld Fd].
  rewrite !length_app, La, Lb, Lc, Ld. split; [reflexivity |].
  repeat (apply Forall_app; split); assumption.
Qed.

(** Its hexadecimal text is 32 lower-case hexadecimal characters. *)
Lemma hexdigest_shape (h : Hashlib.md5) :
  String.length (Hashlib.hexdigest h) = 32%nat
  /\ string_forall is_lower_hex (Hashlib.hexdigest h) = true.
Proof.
  unfold Hashlib.hexdigest.
  destruct (md5_digest_shape (Hashlib.fed h)) as [Hl Hf].
  destruct (hexlify_shape _ Hf) as [Hl' Hf']. rewrite Hl', Hl. split; [reflexivity | exact Hf'].
Qed.

(** Feeding the hash object the three parts is hashing their
    concatenation. *)
Lemma auth_result_concat (password nonce cnonce : string) :
  auth_result password nonce cnonce
  = Hashlib.hexlify (Hashlib.md5_digest (encode password ++ encode nonce ++ encode cnonce)).
Proof.
  unfold auth_result, Hashlib.hexdigest, Hashlib.update, Hashlib.new. cbn [Hashlib.fed app].
  rewrite <- app_assoc. reflexivity.
Qed.

(** What was sent as fourth message of a run in which the device asked
    for authentication. *)
Lemma auth_response_sent (gz : list Z -> list Z) (fuel : nat) (password : string)
    (file_contents : list Z) (random_repr : string) (rx : list rx_item) (tx : list tx_item) :
  let run := perform_ota gz fuel password file_contents random_repr (connect rx tx) in
  let messages := sent (trace (snd run)) in
  let replies := received (trace (snd run)) in
  nth_error replies 3 = Some RESPONSE_REQUEST_AUTH ->
  forall m,
    nth_error messages 3 = Some m ->
    let server_nonce := firstn 32 (skipn 4 replies) in
    let cnonce := client_nonce random_repr in
    nth_error messages 2 = Some (encode cnonce)
    /\ m = encode (Hashlib.hexlify
                     (Hashlib.md5_digest (encode password ++ server_nonce ++ encode cnonce))).
Proof.
  cbv zeta.
  destruct (perform_ota gz fuel password file_contents random_repr (connect rx tx))
    as [r w'] eqn:E.
  cbn [snd]. intros Ha m Hm.
  destruct (perform_ota_handshake _ _ _ _ _ _ _ _ _ E)
    as [(_ & Hshort & _)
       | [(_ & _ & Hs & _)
         | [(_ & _ & s & v & f & more & Hr & Hs)
           | (s & v & f & a' & w_mid & _ & _ & Hc & Hrest & Hauth)]]].
  - exfalso. assert (Hn : nth_error (sent (trace w')) 3 = None) by (apply nth_error_None; lia).
    congruence.
  - exfalso. rewrite Hs in Hm. discriminate Hm.
  - rewrite Hr. cbn [skipn].
    destruct Hs as [Hs | (nonce & Hdec & [Hs | Hs])]; rewrite Hs in Hm |- *;
      try discriminate Hm.
    cbn in Hm. inversion Hm; subst m. split; [reflexivity |].
    rewrite auth_result_concat, (encode_decode _ _ Hdec). reflexivity.
  - destruct (prepare_and_upload_spec _ _ _ _ _ _ Hrest Hc) as (snt & rcv & Hs & Hr & _).
    destruct Hauth as [(-> & Hrm & _) | (-> & _ & raw & nonce & Hlen & Hdec & Hrm & Hsm)].
    + exfalso. rewrite Hr, Hrm in Ha. cbn in Ha. discriminate Ha.
    + rewrite Hr, Hrm, Hs, Hsm in *. cbn [app skipn] in *.
      cbn in Hm. inversion Hm; subst m. split; [reflexivity |].
      rewrite <- app_assoc, (firstn_len_app raw _ 32 Hlen).
      rewrite auth_result_concat, (encode_decode _ _ Hdec). reflexivity.
Qed.

(** C4.  When the device asks for authentication, the response digest
    the engine sends is the lower-case hexadecimal text, 32 characters
    long, of the MD5 digest of the bytes of the password, then the 32
    bytes of the server nonce, then the client nonce it has just sent; two
    runs with the same password, server nonce and client nonce send the
    same text. *)
Theorem auth_response_digest :
  (forall gz fuel password file_contents random_repr rx tx,
      let run := perform_ota gz fuel password file_contents random_repr (connect rx tx) in
      let messages := sent (trace (snd run)) in
      let replies := received (trace (snd run)) in
      nth_error replies 3 = Some RESPONSE_REQUEST_AUTH ->
      forall m,
        nth_error messages 3 = Some m ->
        let server_nonce := firstn 32 (skipn 4 replies) in
        let cnonce := client_nonce random_repr in
        nth_error messages 2 = Some (encode cnonce)
        /\ exists text,
            m = encode text
            /\ text = Hashlib.hexlify
                        (Hashlib.md5_digest (encode password ++ server_nonce ++ encode cnonce))
            /\ String.length text = 32%nat
            /\ string_forall is_lower_hex text = true)
  /\ (forall gz1 gz2 fuel1 fuel2 password file1 file2 random_repr rx1 rx2 tx1 tx2,
         let run1 := perform_ota gz1 fuel1 password file1 random_repr (connect rx1 tx1) in
         let run2 := perform_ota gz2 fuel2 password file2 random_repr (connect rx2 tx2) in
         let replies1 := received (trace (snd run1)) in
         let replies2 := received (trace (snd run2)) in
         nth_error replies1 3 = Some RESPONSE_REQUEST_AUTH ->
         nth_error replies2 3 = Some RESPONSE_REQUEST_AUTH ->
         firstn 32 (skipn 4 replies1) = firstn 32 (skipn 4 replies2) ->
         forall m1 m2,
           nth_error (sent (trace (snd run1))) 3 = Some m1 ->
           nth_error (sent (trace (snd run2))) 3 = Some m2 ->
           m1 = m2).
Proof.
  split.
  - intros gz fuel password file_contents random_repr rx tx. cbv zeta. intros Ha m Hm.
    destruct (auth_response_sent gz fuel password file_contents random_repr rx tx Ha m Hm)
      as [Hc ->].
    split; [exact Hc |]. eexists. split; [reflexivity |]. split; [reflexivity |].
    apply (hexdigest_shape (Hashlib.mk _)).
  - intros gz1 gz2 fuel1 fuel2 password file1 file2 random_repr rx1 rx2 tx1 tx2.
    cbv zeta. intros Ha1 Ha2 Hnonce m1 m2 Hm1 Hm2.
    destruct (auth_response_sent gz1 fuel1 password file1 random_repr rx1 tx1 Ha1 m1 Hm1)
      as [_ ->].
    destruct (auth_response_sent gz2 fuel2 password file2 random_repr rx2 tx2 Ha2 m2 Hm2)
      as [_ ->].
    rewrite Hnonce. reflexivity.
Qed.

(** Scenario B of the specification: password "test", the nonce
    "abc...", a fixed client nonce source. *)
Lemma auth_response_digest_witness :
  nth_error
    (sent (trace (snd (perform_ota toy_gzip 2 "test" [7] "0.5"
                         (connect [Seg 0 [2; 0x40; 0x01]; Seg 97 (tl nonce32); Seg 0x82 []] [])))))
    2
  = Some (encode (client_nonce "0.5"))
  /\ exists text,
      encode "40b1865e3d466ac3e2e073b743e7008e" = encode text
      /\ text = Hashlib.hexlify
                  (Hashlib.md5_digest
                     (encode "test"
                        ++ firstn 32
                             (skipn 4
                                (received
                                   (trace
                                      (snd (perform_ota toy_gzip 2 "test" [7] "0.5"
                                              (connect [Seg 0 [2; 0x40; 0x01];
                                                        Seg 97 (tl nonce32); Seg 0x82 []] []))))))
                        ++ encode (client_nonce "0.5")))
      /\ String.length text = 32%nat
      /\ string_forall is_lower_hex text = true.
Proof.
  apply (proj1 auth_response_digest toy_gzip 2%nat "test" [7] "0.5"
           [Seg 0 [2; 0x40; 0x01]; Seg 97 (tl nonce32); Seg 0x82 []] []);
    vm_compute; reflexivity.
Defined.

(** ** Fuel *)

Lemma steady_const {A : Type} (m : M A) : steady (fun _ => m).
Proof. intros fuel fuel' w r w' _ H _. exact H. Qed.

Lemma steady_bind {A B : Type} (m : nat -> M A) (k : nat -> A -> M B) :
  steady m -> (forall a, steady (fun fuel => k fuel a)) ->
  steady (fun fuel => bind (m fuel) (k fuel)).
Proof.
  intros Hm Hk fuel fuel' w r w' Hle H Hr. apply bind_inv in H.
  destruct H as [(a & w1 & E & H) | [(e & E & ->) | (_ & ->)]]; [| | congruence].
  - unfold bind. rewrite (Hm _ _ _ _ _ Hle E ltac:(discriminate)).
    exact (Hk a _ _ _ _ _ Hle H Hr).
  - unfold bind. rewrite (Hm _ _ _ _ _ Hle E ltac:(discriminate)). reflexivity.
Qed.

Lemma steady_try_except {A : Type} (m : nat -> M A) (handler : exn -> option (M A)) :
  steady m -> steady (fun fuel => try_except (m fuel) handler).
Proof.
  intros Hm fuel fuel' w r w' Hle H Hr. unfold try_except in *.
  destruct (m fuel w) as [[a | e |] w1] eqn:E.
  - rewrite (Hm _ _ _ _ _ Hle E ltac:(discriminate)). exact H.
  - rewrite (Hm _ _ _ _ _ Hle E ltac:(discriminate)). exact H.
  - inversion H; subst. congruence.
Qed.

Lemma steady_receive_rest (amount : Z) (msg : string) (decode : bool) :
  forall data, steady (fun fuel => receive_rest fuel amount msg decode data).
Proof.
  intros data fuel. revert data.
  induction fuel as [| fuel IH]; intros data fuel' w r w' Hle H Hr;
    rewrite receive_rest_unfold in H; rewrite receive_rest_unfold;
    destruct (len data <? amount).
  - inversion H; subst. congruence.
  - destruct fuel'; exact H.
  - destruct fuel' as [| fuel']; [lia |].
    apply bind_inv in H.
    destruct H as [(data1 & w1 & E & H) | [(e & E & ->) | (_ & ->)]]; [| | congruence];
      unfold bind; rewrite E; [| reflexivity].
    apply IH; [lia | exact H | exact Hr].
  - destruct fuel'; exact H.
Qed.

Lemma steady_receive_exactly (amount : Z) (msg : string) (expect : expect_arg) (decode : bool) :
  steady (fun fuel => receive_exactly fuel amount msg expect decode).
Proof.
  unfold receive_exactly.
  apply (steady_bind (fun _ => _) (fun fuel data => _)); [apply steady_const |]. intros data.
  apply (steady_bind (fun _ => _) (fun fuel _ => _)); [apply steady_const |]. intros _.
  apply steady_receive_rest.
Qed.

Lemma steady_send_chunk (version : Z) (chunk : list Z) :
  steady (fun rfuel => send_chunk rfuel version chunk).
Proof.
  unfold send_chunk.
  apply (steady_try_except (fun rfuel => _) _).
  apply (steady_bind (fun _ => _) (fun rfuel _ => _)); [apply steady_const |]. intros _.
  destruct (OTA_VERSION_2_0 <=? version); [| apply steady_const].
  apply (steady_bind (fun rfuel => _) (fun _ _ => _));
    [apply steady_receive_exactly | intros; apply steady_const].
Qed.

Lemma steady_transfer_loop (version : Z) (upload : list Z) :
  forall (fuel rfuel fuel' rfuel' : nat) (offset : Z) (progress : ProgressBar.t) w r w',
    (fuel <= fuel')%nat -> (rfuel <= rfuel')%nat ->
    transfer_loop rfuel fuel version upload offset progress w = (r, w') ->
    r <> Diverge ->
    transfer_loop rfuel' fuel' version upload offset progress w = (r, w').
Proof.
  induction fuel as [| fuel IH]; intros rfuel fuel' rfuel' offset progress w r w' Hle Hrle H Hr.
  - inversion H; subst. congruence.
  - destruct fuel' as [| fuel']; [lia |].
    rewrite transfer_loop_unfold in *.
    destruct (slice upload offset (offset + UPLOAD_BLOCK_SIZE)) as [| c0 crest]; [exact H |].
    cbv zeta in *.
    apply bind_inv in H.
    destruct H as [([] & w1 & E & H) | [(e & E & ->) | (_ & ->)]]; [| | congruence].
    + assert (E' : send_chunk rfuel' version (c0 :: crest) w = (Ok tt, w1)).
      { exact (steady_send_chunk version (c0 :: crest) _ _ _ _ _ Hrle E ltac:(discriminate)). }
      unfold bind at 1. rewrite E'.
      apply bind_inv in H.
      destruct H as [(fraction & w2 & E2 & H) | [(e & E2 & ->) | (_ & ->)]]; [| | congruence];
        unfold bind at 1; rewrite E2; [| reflexivity].
      apply bind_inv in H.
      destruct H as [(progress1 & w3 & E3 & H) | [(e & E3 & ->) | (_ & ->)]]; [| | congruence];
        unfold bind at 1; rewrite E3; [| reflexivity].
      apply (IH rfuel); [lia | exact Hrle | exact H | exact Hr].
    + assert (E' : send_chunk rfuel' version (c0 :: crest) w = (Raise e, w')).
      { exact (steady_send_chunk version (c0 :: crest) _ _ _ _ _ Hrle E ltac:(discriminate)). }
      unfold bind at 1. rewrite E'. reflexivity.
Qed.

Ltac steady_step :=
  lazymatch goal with
  | |- steady (fun fuel => bind _ _) =>
      apply (steady_bind (fun fuel => _) (fun fuel a => _)); [| intros]
  | |- steady (fun fuel => if ?c then _ else _) => destruct c
  | |- steady (fun fuel => receive_exactly fuel _ _ _ _) => apply steady_receive_exactly
  | |- steady (fun fuel => transfer_loop fuel fuel _ _ _ _) =>
      intros ? ? ? ? ? ? ? ?; eapply steady_transfer_loop; eassumption
  | |- steady (fun _ => _) => apply steady_const
  end.

(** More fuel never changes what [perform_ota] does. *)
Lemma steady_perform_ota (gz : list Z -> list Z) (password : string) (file_contents : list Z)
    (random_repr : string) :
  steady (fun fuel => perform_ota gz fuel password file_contents random_repr).
Proof. unfold perform_ota. cbv zeta. repeat steady_step. Qed.

(** ** A successful upload, message by message *)

Lemma send_chunk_open (rfuel : nat) (version : Z) (chunk : list Z) (w w' : world) :
  send_chunk rfuel version chunk w = (Ok tt, w') -> closed w = false /\ closed w' = false.
Proof.
  unfold send_chunk, try_except. intros H.
  destruct (bind (sock_sendall chunk) _ w) as [r0 w0] eqn:E.
  apply bind_inv in E.
  destruct E as [([] & w1 & Es & E) | [(e & Es & ->) | (Es & ->)]];
    destruct (sock_sendall_cases _ _ _ _ Es)
      as [(Hr & Hc & Hc1 & _) | (err & evs & Hr & _)];
    try discriminate Hr.
  - destruct (OTA_VERSION_2_0 <=? version).
    + apply bind_inv in E.
      destruct E as [(data & w2 & Er & E) | [(e & Er & ->) | (Er & ->)]];
        destruct (receive_exactly_one_spec _ _ _ _ _ _ _ Er Hc1 eq_refl)
          as (ev & tl & _ & _ & _ & _ & Hok & Hraise & _).
      * destruct (Hok _ eq_refl) as (b & _ & _ & _ & _ & Hc2).
        inversion E; subst. inversion H; subst. auto.
      * destruct (Hraise _ eq_refl) as [-> | (m & ->)]; discriminate H.
      * discriminate H.
    + inversion E; subst. inversion H; subst. auto.
  - inversion Hr; subst e. cbn in H. discriminate H.
Qed.

Lemma update_closed (self : ProgressBar.t) (progress : PyNum.num) (w : world) :
  closed (snd (ProgressBar.update self progress w)) = closed w.
Proof.
  destruct (update_cases self progress w) as [(Hsame & _) | (block & p & status & Hrun & _)].
  - rewrite Hsame. reflexivity.
  - rewrite Hrun. reflexivity.
Qed.

Lemma transfer_loop_open (rfuel : nat) (version : Z) (upload : list Z) (fuel : nat) :
  forall (offset : Z) (pb pb' : ProgressBar.t) (w w' : world),
    transfer_loop rfuel fuel version upload offset pb w = (Ok pb', w') ->
    closed w' = closed w.
Proof.
  induction fuel as [| fuel IH]; intros offset pb pb' w w' H; [discriminate H |].
  rewrite transfer_loop_unfold in H.
  destruct (slice upload offset (offset + UPLOAD_BLOCK_SIZE)) as [| c0 crest];
    [inversion H; reflexivity |].
  cbv zeta in H.
  apply bind_inv in H.
  destruct H as [([] & w1 & E1 & H) | [(e & _ & He) | (_ & He)]]; try discriminate He.
  destruct (send_chunk_open _ _ _ _ _ E1) as [Hc Hc1].
  apply bind_inv in H.
  destruct H as [(fraction & w2 & E2 & H) | [(e & _ & He) | (_ & He)]]; try discriminate He.
  assert (w2 = w1) as -> by (unfold lift in E2; congruence).
  apply bind_inv in H.
  destruct H as [(pb1 & w3 & E3 & H) | [(e & _ & He) | (_ & He)]]; try discriminate He.
  pose proof (update_closed pb fraction w1) as Hu. rewrite E3 in Hu. cbn [snd] in Hu.
  rewrite (IH _ _ _ _ _ H). congruence.
Qed.

(** A one-byte read that succeeds against a single expected code. *)
Lemma receive_code_ok (fuel : nat) (msg : string) (code : Z) (w : world)
    (data : list Z) (w' : world) :
  receive_exactly fuel 1 msg (ExpCode code) true w = (Ok data, w') ->
  closed w = false ->
  truthy (ExpCode code) = true ->
  closed w' = false
  /\ sent (trace w') = sent (trace w)
  /\ received (trace w') = received (trace w) ++ [code].
Proof.
  intros H Hc Ht.
  destruct (receive_exactly_one_spec _ _ _ _ _ _ _ H Hc Ht)
    as (ev & tail & Htr & _ & _ & _ & Hok & _).
  destruct (Hok _ eq_refl) as (b & _ & -> & -> & Hchk & Hc').
  apply (check_error_code_ok b code Ht) in Hchk. subst b.
  rewrite Htr, sent_app, received_app. cbn. rewrite !app_nil_r. auto.
Qed.

(** PrepareUpdate to Finalize when all goes well: the length, the
    checksum, the chunks of the payload in order, the final
    acknowledgement. *)
Lemma prepare_and_upload_success (fuel : nat) (version : Z) (upload : list Z) (w w' : world) :
  prepare_and_upload fuel version upload w = (Ok tt, w') ->
  closed w = false ->
  closed w' = false
  /\ sent (trace w')
     = sent (trace w)
         ++ [encode_size (len upload); encode (Hashlib.hexdigest (Hashlib.new upload))]
         ++ chunks upload ++ [[RESPONSE_OK]].
Proof.
  intros H Hc. unfold prepare_and_upload in H.
  unfold bind at 1, sock_settimeout at 1 in H. rewrite Hc in H.
  set (w0 := emit (EvSettimeout 30) w) in H.
  assert (Hc0 : closed w0 = false) by exact Hc.
  assert (Hs0 : sent (trace w0) = sent (trace w)).
  { unfold w0. rewrite trace_emit, sent_app. apply app_nil_r. }
  clearbody w0.
  apply bind_inv in H.
  destruct H as [([] & w1 & E1 & H) | [(e & _ & He) | (_ & He)]]; try discriminate He.
  destruct (send_check_step (PList (encode_size (len upload))) _ _ _ _ _
              (encode_size_bytes _) Hc0 E1)
    as (Hc1 & _ & [(_ & _ & Hs1) | ((m & Hm) & _)]); [| discriminate Hm].
  apply bind_inv in H.
  destruct H as [(d2 & w2 & E2 & H) | [(e & _ & He) | (_ & He)]]; try discriminate He.
  destruct (receive_code_ok _ _ _ _ _ _ E2 Hc1 eq_refl) as (Hc2 & Hs2 & _).
  apply bind_inv in H.
  destruct H as [([] & w3 & E3 & H) | [(e & _ & He) | (_ & He)]]; try discriminate He.
  destruct (send_check_step (PStr (Hashlib.hexdigest (Hashlib.new upload))) _
              (encode (Hashlib.hexdigest (Hashlib.new upload))) _ _ _ eq_refl Hc2 E3)
    as (Hc3 & _ & [(_ & _ & Hs3) | ((m & Hm) & _)]); [| discriminate Hm].
  apply bind_inv in H.
  destruct H as [(d4 & w4 & E4 & H) | [(e & _ & He) | (_ & He)]]; try discriminate He.
  destruct (receive_code_ok _ _ _ _ _ _ E4 Hc3 eq_refl) as (Hc4 & Hs4 & _).
  (* Transfer *)
  unfold transfer_and_finalize in H.
  unfold bind at 1 in H. rewrite sock_setsockopt_run in H by exact Hc4.
  unfold bind at 1 in H. rewrite sock_setsockopt_run in H by exact Hc4.
  set (w5 := emit _ (emit _ w4)) in H.
  assert (Hc5 : closed w5 = false) by exact Hc4.
  assert (Hs5 : sent (trace w5) = sent (trace w4)).
  { unfold w5. rewrite !trace_emit, !sent_app. cbn. now rewrite !app_nil_r. }
  clearbody w5.
  apply bind_inv in H.
  destruct H as [(pb & w6 & E6 & H) | [(e & _ & He) | (_ & He)]]; try discriminate He.
  destruct (transfer_loop_spec _ _ _ _ _ _ _ _ _ E6 ltac:(lia)) as (evs & Ht6 & _ & _ & Hok6 & _).
  specialize (Hok6 _ eq_refl). change (skipn (Z.to_nat 0) upload) with upload in Hok6.
  assert (Hs6 : sent (trace w6) = sent (trace w5) ++ chunks upload).
  { rewrite Ht6, sent_app, <- (sent_sockets evs), Hok6, sent_expected_events. reflexivity. }
  pose proof (transfer_loop_open _ _ _ _ _ _ _ _ _ E6) as Hc6. rewrite Hc5 in Hc6.
  unfold bind at 1, ProgressBar.done, stderr_write in H.
  (* Finalize *)
  set (w7 := emit (EvStderr ProgressBar.LF) w6) in H.
  assert (Hc7 : closed w7 = false) by exact Hc6.
  assert (Hs7 : sent (trace w7) = sent (trace w6)).
  { unfold w7. rewrite trace_emit, sent_app. apply app_nil_r. }
  clearbody w7.
  unfold finalize in H.
  unfold bind at 1 in H. rewrite sock_setsockopt_run in H by exact Hc7.
  set (w8 := emit _ w7) in H.
  assert (Hc8 : closed w8 = false) by exact Hc7.
  assert (Hs8 : sent (trace w8) = sent (trace w7)).
  { unfold w8. rewrite trace_emit, sent_app. apply app_nil_r. }
  clearbody w8.
  apply bind_inv in H.
  destruct H as [(d9 & w9 & E9 & H) | [(e & _ & He) | (_ & He)]]; try discriminate He.
  destruct (receive_code_ok _ _ _ _ _ _ E9 Hc8 eq_refl) as (Hc9 & Hs9 & _).
  apply bind_inv in H.
  destruct H as [(d10 & w10 & E10 & H) | [(e & _ & He) | (_ & He)]]; try discriminate He.
  destruct (receive_code_ok _ _ _ _ _ _ E10 Hc9 eq_refl) as (Hc10 & Hs10 & _).
  apply bind_inv in H.
  destruct H as [([] & w11 & E11 & H) | [(e & _ & He) | (_ & He)]]; try discriminate He.
  destruct (send_check_step (PInt RESPONSE_OK) _ [RESPONSE_OK] _ _ _ eq_refl Hc10 E11)
    as (Hc11 & _ & [(_ & _ & Hs11) | ((m & Hm) & _)]); [| discriminate Hm].
  inversion H; subst w'. split; [exact Hc11 |].
  rewrite trace_emit, sent_app. cbn [sent]. rewrite app_nil_r.
  rewrite Hs11, Hs10, Hs9, Hs8, Hs7, Hs6, Hs5, Hs4, Hs3, Hs2, Hs1, Hs0.
  rewrite <- !app_assoc. reflexivity.
Qed.

(** A run of the engine that returns has sent, in order: the magic bytes,
    the feature byte, the two authentication messages if the device asked
    for them, the length and the MD5 digest of the payload, the payload in
    chunks of 8192 bytes, and the final acknowledgement; the payload being
    the compressed file exactly when the device answered the features with
    0x46.  The connection is still open. *)
Lemma perform_ota_success (gz : list Z -> list Z) (fuel : nat) (password : string)
    (file_contents : list Z) (random_repr : string) (rx : list rx_item) (tx : list tx_item)
    (w' : world) :
  perform_ota gz fuel password file_contents random_repr (connect rx tx) = (Ok tt, w') ->
  exists s v f a auth_messages,
    firstn 4 (received (trace w')) = [s; v; f; a]
    /\ (v = OTA_VERSION_1_0 \/ v = OTA_VERSION_2_0)
    /\ (f = RESPONSE_HEADER_OK \/ f = RESPONSE_SUPPORTS_COMPRESSION)
    /\ ((a = RESPONSE_AUTH_OK /\ auth_messages = [])
        \/ (a = RESPONSE_REQUEST_AUTH /\ List.length auth_messages = 2%nat))
    /\ closed w' = false
    /\ let upload_contents :=
         if f =? RESPONSE_SUPPORTS_COMPRESSION then gz file_contents else file_contents in
       sent (trace w')
       = [MAGIC_BYTES; [FEATURE_SUPPORTS_COMPRESSION]] ++ auth_messages
           ++ [encode_size (len upload_contents);
               encode (Hashlib.hexdigest (Hashlib.new upload_contents))]
           ++ chunks upload_contents ++ [[RESPONSE_OK]].
Proof.
  intros E.
  destruct (perform_ota_handshake _ _ _ _ _ _ _ _ _ E)
    as [(Hr & _) | [(_ & Hr & _) | [(_ & Hr & _)
       | (s & v & f & a & w_mid & Hv & Hf & Hc & Hrest & Hauth)]]];
    try discriminate Hr; try (exfalso; exact (Hr tt eq_refl)).
  destruct (prepare_and_upload_success _ _ _ _ _ Hrest Hc) as [Hc' Hs].
  destruct (prepare_and_upload_spec _ _ _ _ _ _ Hrest Hc) as (_ & rcv & _ & Hr & _).
  destruct Hauth as [(-> & Hrm & Hsm) | (-> & _ & raw & nonce & _ & _ & Hrm & Hsm)].
  - exists s, v, f, RESPONSE_AUTH_OK, [].
    rewrite Hr, Hrm, Hs, Hsm. repeat split; auto.
  - exists s, v, f, RESPONSE_REQUEST_AUTH,
      [encode (client_nonce random_repr);
       encode (auth_result password nonce (client_nonce random_repr))].
    rewrite Hr, Hrm, Hs, Hsm. repeat split; auto.
Qed.

(** * Further properties *)

(** ** The decoder and its messages *)

Lemma byte_cases (b : Z) : 0 <= b < 256 -> In b (map Z.of_nat (seq 0 256)).
Proof.
  intros H. apply in_map_iff. exists (Z.to_nat b). split; [lia |]. apply in_seq. lia.
Qed.

Lemma lookup_not_in (dat : Z) (table : list (Z * string)) :
  ~ In dat (map fst table) -> lookup dat table = None.
Proof.
  induction table as [| [code msg] table IH]; intros H; [reflexivity |].
  cbn [lookup]. destruct (Z.eqb_spec dat code) as [-> | _].
  - exfalso. apply H. left. reflexivity.
  - apply IH. intros Hin. apply H. right. exact Hin.
Qed.

Lemma py_in_false (dat : Z) (l : list Z) : ~ In dat l -> py_in dat l = false.
Proof.
  intros H. unfold py_in. destruct (existsb (Z.eqb dat) l) eqn:E; [| reflexivity].
  apply existsb_exists in E. destruct E as (x & Hin & Heq).
  apply Z.eqb_eq in Heq. subst x. contradiction.
Qed.

(** X1.  An error byte that has a diagnostic of its own is refused with
    that diagnostic whatever the caller expects, also when the caller
    lists the byte among the expected codes: the error bytes are tested
    before the expectation is. *)
Theorem listed_error_refused_even_if_expected (dat : Z) (rest : list Z) (expect : expect_arg) :
  truthy expect = true ->
  In dat (map fst named_errors) ->
  exists msg,
    In (dat, msg) named_errors
    /\ check_error (dat :: rest) expect = Raise (OTAError msg).
Proof.
  intros Ht Hin. unfold check_error. rewrite Ht. cbn [negb].
  cbn in Hin.
  repeat (destruct Hin as [<- | Hin];
          [eexists; split; [| reflexivity]; cbn; auto 20 |]).
  contradiction.
Qed.

Lemma listed_error_refused_even_if_expected_witness :
  exists msg,
    In (RESPONSE_ERROR_UNKNOWN, msg) named_errors
    /\ check_error [RESPONSE_ERROR_UNKNOWN]
         (ExpList [RESPONSE_ERROR_UNKNOWN; RESPONSE_HEADER_OK])
       = Raise (OTAError msg).
Proof.
  apply (listed_error_refused_even_if_expected RESPONSE_ERROR_UNKNOWN []
           (ExpList [RESPONSE_ERROR_UNKNOWN; RESPONSE_HEADER_OK])).
  - reflexivity.
  - cbn. auto 20.
Defined.

Lemma format_02X_bytes :
  forallb (fun b => Nat.eqb (String.length (format_02X b)) 2
                    && match hex_value 0 (format_02X b) with
                       | Some v => v =? b
                       | None => false
                       end)
          (map Z.of_nat (seq 0 256))
  = true.
Proof. vm_compute. reflexivity. Qed.

(** X2.  A byte that is neither a listed error nor expected is reported
    as [Unexpected response from ESP: 0x] followed by exactly two
    hexadecimal digits, and those digits read back as the byte. *)
Theorem unexpected_response_names_the_byte (b : Z) (rest : list Z) (expect : expect_arg) :
  0 <= b < 256 ->
  truthy expect = true ->
  ~ In b (map fst named_errors) ->
  ~ In b (as_list expect) ->
  exists hex,
    check_error (b :: rest) expect
    = Raise (OTAError ("Unexpected response from ESP: 0x" ++ hex))
    /\ String.length hex = 2%nat
    /\ hex_value 0 hex = Some b.
Proof.
  intros Hb Ht Hnamed Hexp.
  rewrite (check_error_classify _ _ _ Ht). unfold classify.
  rewrite (lookup_not_in _ _ Hnamed), (py_in_false _ _ Hexp).
  exists (format_02X b). split; [reflexivity |].
  pose proof (proj1 (forallb_forall _ _) format_02X_bytes b (byte_cases b Hb)) as H.
  apply andb_prop in H. destruct H as [Hlen Hval].
  apply Nat.eqb_eq in Hlen. split; [exact Hlen |].
  destruct (hex_value 0 (format_02X b)) as [v |]; [| discriminate Hval].
  apply Z.eqb_eq in Hval. congruence.
Qed.

Lemma unexpected_response_names_the_byte_witness :
  exists hex,
    check_error [0x7A] (ExpCode RESPONSE_CHUNK_OK)
    = Raise (OTAError ("Unexpected response from ESP: 0x" ++ hex))
    /\ String.length hex = 2%nat
    /\ hex_value 0 hex = Some 0x7A.
Proof.
  apply (unexpected_response_names_the_byte 0x7A [] (ExpCode RESPONSE_CHUNK_OK)).
  - lia.
  - reflexivity.
  - cbn. intros H. repeat (destruct H as [H | H]; [discriminate H |]). exact H.
  - cbn. intros [H | H]; [discriminate H | exact H].
Defined.

(** ** The length field *)

(** X3.  The four bytes announcing the payload length are bytes, and read
    most significant first they give the length modulo 2^32: the length
    itself below 4 GiB, a wrapped value from there on. *)
Theorem encode_size_modulo (n : Z) :
  List.length (encode_size n) = 4%nat
  /\ forallb in_byte_range (encode_size n) = true
  /\ big_endian (encode_size n) = n mod 2 ^ 32.
Proof.
  split; [reflexivity |]. split.
  - unfold encode_size. cbn [forallb]. rewrite !land_255_in_byte_range. reflexivity.
  - unfold encode_size, big_endian. cbn [fold_left].
    change 0xFF with (Z.ones 8). rewrite !Z.land_ones, !Z.shiftr_div_pow2 by lia.
    change (2 ^ 8) with 256. change (2 ^ 24) with 16777216. change (2 ^ 16) with 65536.
    change (2 ^ 0) with 1. change (2 ^ 32) with 4294967296.
    rewrite Z.div_1_r.
    pose proof (Z.div_mod n 256 ltac:(lia)).
    pose proof (Z.div_mod (n / 256) 256 ltac:(lia)).
    pose proof (Z.div_mod (n / 65536) 256 ltac:(lia)).
    pose proof (Z.div_mod (n / 16777216) 256 ltac:(lia)).
    pose proof (Z.mod_pos_bound n 256 ltac:(lia)).
    pose proof (Z.mod_pos_bound (n / 256) 256 ltac:(lia)).
    pose proof (Z.mod_pos_bound (n / 65536) 256 ltac:(lia)).
    pose proof (Z.mod_pos_bound (n / 16777216) 256 ltac:(lia)).
    rewrite (Z.div_div n 256 256) in * by lia.
    rewrite (Z.div_div n 65536 256) in * by lia.
    change (256 * 256) with 65536 in *. change (65536 * 256) with 16777216 in *.
    apply Z.mod_unique_pos with (q := n / 16777216 / 256); lia.
Qed.

(** ** The transport helpers, failure by failure *)

Lemma payload_bytes_cases (data : payload) :
  (exists bytes, payload_bytes data = Ok bytes)
  \/ (payload_bytes data = Raise ValueError
      /\ exists l x, (data = PList l \/ (data = PInt x /\ l = [x]))
                     /\ In x l /\ in_byte_range x = false).
Proof.
  assert (Hl : forall l, (exists bytes, bytes_of_list l = Ok bytes)
                         \/ (bytes_of_list l = Raise ValueError
                             /\ exists x, In x l /\ in_byte_range x = false)).
  { intros l. unfold bytes_of_list. destruct (forallb in_byte_range l) eqn:E.
    - left. eauto.
    - right. split; [reflexivity |].
      induction l as [| y l IH]; [discriminate E |].
      cbn in E. destruct (in_byte_range y) eqn:Ey.
      + destruct (IH E) as (x & Hin & Hx). exists x. split; [right; exact Hin | exact Hx].
      + exists y. split; [left; reflexivity | exact Ey]. }
  destruct data as [n | l | s | b]; cbn [payload_bytes]; eauto.
  - destruct (Hl [n]) as [H | (H & x & Hin & Hx)]; [left; exact H |].
    right. split; [exact H |].
    destruct Hin as [<- | []]. exists [n], n. split; [right; auto | split; [left; reflexivity | exact Hx]].
  - destruct (Hl l) as [H | (H & x & Hin & Hx)]; [left; exact H |].
    right. split; [exact H |]. exists l, x. auto.
Qed.

(** X4.  [send_check] ends in one of three ways.  An int outside
    [range(256)] in its argument raises [ValueError] before anything
    reaches the socket.  Otherwise the whole argument goes out in a single
    [sendall] on an open socket, or the [OSError] of that call comes back
    as [OTAError] with the message [Error sending <msg>: <err>], nothing
    having been sent; the socket is never closed. *)
Theorem send_check_outcomes (data : payload) (msg : string)
    (w : world) (r : outcome unit) (w' : world) :
  send_check data msg w = (r, w') ->
  (r = Raise ValueError /\ w' = w
   /\ exists l x, (data = PList l \/ (data = PInt x /\ l = [x]))
                  /\ In x l /\ in_byte_range x = false)
  \/ (exists bytes,
         payload_bytes data = Ok bytes
         /\ closed w' = closed w
         /\ ((r = Ok tt /\ closed w = false /\ trace w' = trace w ++ [EvSend bytes])
             \/ (exists err,
                    r = Raise (OTAError ("Error sending " ++ msg ++ ": " ++ err))
                    /\ sent (trace w') = sent (trace w)))).
Proof.
  intros H. unfold send_check, try_except, bind, lift in H. fold (payload_bytes data) in H.
  destruct (payload_bytes_cases data) as [(bytes & Hb) | (Hb & Hwhy)]; rewrite Hb in H.
  - right. exists bytes. split; [exact Hb |].
    destruct (sock_sendall bytes w) as [r0 w0] eqn:E.
    destruct (sock_sendall_spec _ _ _ _ E) as (Hcc & _).
    destruct (sock_sendall_cases _ _ _ _ E)
      as [(-> & Hc & Hc' & Ht) | (err & evs & -> & Ht & Hevs)].
    + inversion H; subst. split; [exact Hcc |]. left. auto.
    + cbn in H. inversion H; subst. split; [exact Hcc |]. right. exists err.
      split; [reflexivity |]. rewrite Ht, sent_app.
      destruct Hevs as [-> | ->]; cbn; rewrite app_nil_r; reflexivity.
  - left. cbn in H. inversion H. auto.
Qed.

Lemma send_check_outcomes_witness :
  (@Raise unit ValueError = Raise ValueError /\ connect [] [] = connect [] []
   /\ exists l x, (PList [0x6C; 256] = PList l \/ (PList [0x6C; 256] = PInt x /\ l = [x]))
                  /\ In x l /\ in_byte_range x = false)
  \/ (exists bytes,
         payload_bytes (PList [0x6C; 256]) = Ok bytes
         /\ closed (connect [] []) = closed (connect [] [])
         /\ ((@Raise unit ValueError = Ok tt /\ closed (connect [] []) = false
              /\ trace (connect [] []) = trace (connect [] []) ++ [EvSend bytes])
             \/ (exists err,
                    @Raise unit ValueError
                    = Raise (OTAError ("Error sending " ++ "magic bytes" ++ ": " ++ err))
                    /\ sent (trace (connect [] [])) = sent (trace (connect [] []))))).
Proof.
  apply (send_check_outcomes (PList [0x6C; 256]) "magic bytes" (connect [] [])
           (Raise ValueError) (connect [] [])).
  reflexivity.
Defined.

Lemma read_more_raises (n : Z) (decode : bool) (describe : string -> string) (data : list Z)
    (w : world) (e : exn) (w' : world) :
  read_more n decode describe data w = (Raise e, w') ->
  0 <= n ->
  exists err, e = OTAError (describe err).
Proof.
  unfold read_more, try_except, bind, ret. rewrite recv_decode_eq. unfold sock_recv.
  intros H Hn. destruct (closed w).
  - cbn in H. inversion H. eauto.
  - destruct (Z.ltb_spec n 0); [lia |].
    destruct (rx w) as [| [b bs | err] rest]; cbn in H; inversion H. eauto.
Qed.

Lemma receive_rest_raises (amount : Z) (msg : string) (decode : bool) (fuel : nat) :
  forall (data : list Z) (w : world) (e : exn) (w' : world),
    receive_rest fuel amount msg decode data w = (Raise e, w') ->
    exists err, e = OTAError ("Error receiving " ++ msg ++ ": " ++ err).
Proof.
  induction fuel as [| fuel IH]; intros data w e w' H; rewrite receive_rest_unfold in H;
    destruct (Z.ltb_spec (len data) amount) as [Hlt | _]; try discriminate H.
  apply bind_inv in H.
  destruct H as [(data1 & w1 & _ & H) | [(e0 & H & He) | (_ & He)]]; try discriminate He.
  - exact (IH _ _ _ _ H).
  - inversion He; subst e0.
    exact (read_more_raises _ _ (fun err => "Error receiving " ++ msg ++ ": " ++ err)%string
             _ _ _ _ H ltac:(lia)).
Qed.

(** The failures of [receive_exactly], by what they say. *)
Lemma receive_exactly_raises (fuel : nat) (amount : Z) (msg : string)
    (expect : expect_arg) (decode : bool) (w : world) (e : exn) (w' : world) :
  receive_exactly fuel amount msg expect decode w = (Raise e, w') ->
  (e = IndexError /\ truthy expect = true)
  \/ (exists err, e = OTAError ("Error receiving acknowledge " ++ msg ++ ": " ++ err))
  \/ (exists b m,
         check_error [b] expect = Raise (OTAError m)
         /\ e = OTAError ("Error " ++ msg ++ ": " ++ m)
         /\ closed w' = true)
  \/ (exists err, e = OTAError ("Error receiving " ++ msg ++ ": " ++ err)).
Proof.
  intros H. rewrite receive_exactly_unfold in H.
  apply bind_inv in H.
  destruct H as [(data & w1 & _ & H) | [(e0 & H & He) | (_ & He)]]; try discriminate He.
  - apply bind_inv in H.
    destruct H as [([] & w2 & _ & H) | [(e0 & H & He) | (_ & He)]]; try discriminate He.
    + right. right. right. exact (receive_rest_raises _ _ _ _ _ _ _ _ H).
    + inversion He; subst e0. clear He.
      unfold try_except, lift in H.
      destruct (check_error data expect) as [[] | e1 |] eqn:Hchk; try discriminate H.
      destruct (check_error_raises _ _ _ Hchk) as [(-> & -> & Ht) | (b & rest & m & -> & ->)].
      * cbn in H. inversion H. left. auto.
      * cbn in H. inversion H; subst. right. right. left. exists b, m.
        rewrite <- (check_error_head b rest). auto.
  - inversion He; subst e0. right. left.
    exact (read_more_raises _ _
             (fun err => "Error receiving acknowledge " ++ msg ++ ": " ++ err)%string
             _ _ _ _ H ltac:(lia)).
Qed.

(** X5.  Every failure of [receive_exactly], on any socket, is one of
    four: [IndexError] when the first read came back empty and the
    expectation is validated against; [OTAError] with [Error receiving
    acknowledge <msg>: <err>] for a transport error on the first read;
    [OTAError] with [Error <msg>: <diagnostic>] when the first byte is
    refused, the connection then being closed; [OTAError] with [Error
    receiving <msg>: <err>] for a transport error on a later read.  An
    [OSError] never leaves the helper. *)
Theorem receive_exactly_failures (fuel : nat) (amount : Z) (msg : string)
    (expect : expect_arg) (decode : bool) (w : world) (e : exn) (w' : world) :
  receive_exactly fuel amount msg expect decode w = (Raise e, w') ->
  (e = IndexError /\ truthy expect = true)
  \/ (exists err, e = OTAError ("Error receiving acknowledge " ++ msg ++ ": " ++ err))
  \/ (exists b m,
         check_error [b] expect = Raise (OTAError m)
         /\ e = OTAError ("Error " ++ msg ++ ": " ++ m)
         /\ closed w' = true)
  \/ (exists err, e = OTAError ("Error receiving " ++ msg ++ ": " ++ err)).
Proof. apply receive_exactly_raises. Qed.

Lemma receive_exactly_failures_witness :
  (OTAError "Error receiving acknowledge auth: timed out" = IndexError
   /\ truthy (ExpList [RESPONSE_REQUEST_AUTH; RESPONSE_AUTH_OK]) = true)
  \/ (exists err,
         OTAError "Error receiving acknowledge auth: timed out"
         = OTAError ("Error receiving acknowledge " ++ "auth" ++ ": " ++ err))
  \/ (exists b m,
         check_error [b] (ExpList [RESPONSE_REQUEST_AUTH; RESPONSE_AUTH_OK])
         = Raise (OTAError m)
         /\ OTAError "Error receiving acknowledge auth: timed out"
            = OTAError ("Error " ++ "auth" ++ ": " ++ m)
         /\ closed (emit (EvRecvErr 1 "timed out") (connect [] [])) = true)
  \/ (exists err,
         OTAError "Error receiving acknowledge auth: timed out"
         = OTAError ("Error receiving " ++ "auth" ++ ": " ++ err)).
Proof.
  apply (receive_exactly_failures 1 1 "auth" (ExpList [RESPONSE_REQUEST_AUTH; RESPONSE_AUTH_OK])
           true (connect [RxErr "timed out"] [])
           (OTAError "Error receiving acknowledge auth: timed out")
           (emit (EvRecvErr 1 "timed out") (connect [] []))).
  reflexivity.
Defined.

(** ** Reading across segments *)

Lemma pending_after_recv (n : Z) (w : world) (b : Z) (bs : list Z) (rest : list rx_item) :
  rx w = Seg b bs :: rest ->
  1 <= n ->
  let got := firstn (Z.to_nat n) (b :: bs) in
  pending (rx w) = got ++ pending (rx (after_recv n w))
  /\ (1 <= List.length got <= Z.to_nat n)%nat
  /\ closed (after_recv n w) = closed w
  /\ tx (after_recv n w) = tx w
  /\ sent (trace (after_recv n w)) = sent (trace w).
Proof.
  intros Hrx Hn got. unfold after_recv. rewrite Hrx. cbn [rx tx closed trace emit].
  split; [| split; [| split; [| split]]].
  - assert (Hp : pending
                   match skipn (Z.to_nat n) (b :: bs) with
                   | [] => rest
                   | b' :: bs' => Seg b' bs' :: rest
                   end
                 = skipn (Z.to_nat n) (b :: bs) ++ pending rest).
    { destruct (skipn (Z.to_nat n) (b :: bs)); reflexivity. }
    rewrite Hp, app_assoc. unfold got. rewrite firstn_skipn. reflexivity.
  - unfold got. rewrite length_firstn. cbn [List.length]. lia.
  - reflexivity.
  - reflexivity.
  - rewrite sent_app. cbn. apply app_nil_r.
Qed.

Lemma receive_rest_reassembles (amount : Z) (msg : string) (decode : bool) (fuel : nat) :
  forall (data : list Z) (w : world),
    closed w = false ->
    len data <= amount ->
    amount - len data <= len (pending (rx w)) ->
    (Z.to_nat (amount - len data) <= fuel)%nat ->
    exists w',
      receive_rest fuel amount msg decode data w
      = (Ok (data ++ firstn (Z.to_nat (amount - len data)) (pending (rx w))), w')
      /\ pending (rx w') = skipn (Z.to_nat (amount - len data)) (pending (rx w))
      /\ closed w' = false
      /\ tx w' = tx w
      /\ sent (trace w') = sent (trace w).
Proof.
  induction fuel as [| fuel IH]; intros data w Hc Hle Hp Hf; rewrite receive_rest_unfold;
    destruct (Z.ltb_spec (len data) amount) as [Hlt | Hge];
    try (replace (amount - len data) with 0 by lia; exists w;
         rewrite app_nil_r; auto);
    [lia |].
  unfold bind. rewrite read_more_run by (auto; lia).
  destruct (rx w) as [| [b bs | err] rest] eqn:Hrx;
    try (cbn [pending] in Hp; change (len (@nil Z)) with 0 in Hp; lia).
  cbv iota beta.
  destruct (pending_after_recv (amount - len data) w b bs rest Hrx ltac:(lia))
    as (Hpend & Hlen & Hc1 & Htx1 & Hs1).
  rewrite Hrx in Hpend.
  set (got := firstn (Z.to_nat (amount - len data)) (b :: bs)) in *.
  set (w1 := after_recv (amount - len data) w) in *.
  clearbody got w1.
  assert (Hrem : Z.to_nat (amount - len (data ++ got))
                 = (Z.to_nat (amount - len data) - List.length got)%nat).
  { rewrite len_app. unfold len. lia. }
  destruct (IH (data ++ got) w1) as (w' & Hrun & Hp' & Hc' & Htx' & Hs').
  - congruence.
  - rewrite len_app. unfold len in *. lia.
  - rewrite Hpend, len_app in Hp. rewrite len_app. unfold len in *. lia.
  - rewrite Hrem. lia.
  - exists w'. rewrite Hrun, Hp', Hrem, Hpend.
    rewrite firstn_app, skipn_app.
    rewrite (firstn_all2 (n := Z.to_nat (amount - len data)) got) by lia.
    rewrite (skipn_all2 (n := Z.to_nat (amount - len data)) got) by lia.
    rewrite <- app_assoc. cbn [app]. repeat split; auto; congruence.
Qed.

(** Reading [amount] bytes off a stream that holds them. *)
Lemma receive_exactly_pending (fuel : nat) (amount : Z) (msg : string)
    (expect : expect_arg) (decode : bool) (w : world) :
  closed w = false ->
  1 <= amount ->
  amount <= len (pending (rx w)) ->
  check_error (firstn 1 (pending (rx w))) expect = Ok tt ->
  amount <= Z.of_nat fuel + 1 ->
  exists w',
    receive_exactly fuel amount msg expect decode w
    = (Ok (firstn (Z.to_nat amount) (pending (rx w))), w')
    /\ pending (rx w') = skipn (Z.to_nat amount) (pending (rx w))
    /\ closed w' = false
    /\ tx w' = tx w
    /\ sent (trace w') = sent (trace w).
Proof.
  intros Hc Ha Hp Hchk Hf. rewrite receive_exactly_unfold. unfold bind at 1.
  rewrite read_more_run by (auto; lia).
  destruct (rx w) as [| [b bs | err] rest] eqn:Hrx;
    try (cbn [pending] in Hp; change (len (@nil Z)) with 0 in Hp; lia).
  cbv iota beta.
  destruct (pending_after_recv 1 w b bs rest Hrx ltac:(lia))
    as (Hpend & _ & Hc1 & Htx1 & Hs1).
  rewrite Hrx in Hpend.
  change (firstn (Z.to_nat 1) (b :: bs)) with [b] in *.
  set (w1 := after_recv 1 w) in *. clearbody w1.
  rewrite Hpend in Hp, Hchk. cbn [app firstn] in Hchk.
  cbn [app]. unfold bind at 1, try_except, lift. rewrite Hchk.
  destruct (receive_rest_reassembles amount msg decode fuel [b] w1)
    as (w' & Hrun & Hp' & Hc' & Htx' & Hs').
  - congruence.
  - change (len [b]) with 1. lia.
  - rewrite len_app in Hp. change (len [b]) with 1 in *. lia.
  - change (len [b]) with 1. lia.
  - exists w'. rewrite Hrun, Hp', Hpend. change (len [b]) with 1.
    replace (Z.to_nat amount) with (S (Z.to_nat (amount - 1))) by lia.
    cbn [app firstn skipn]. repeat split; auto; congruence.
Qed.

(** X6.  However the network cuts the stream into segments, when at least
    [amount] bytes arrive before the stream ends or fails and the first
    of them passes the decoder, [receive_exactly] returns exactly the
    first [amount] bytes of the stream, reads nothing beyond them, sends
    nothing and leaves the connection open. *)
Theorem receive_exactly_reassembles (fuel : nat) (amount : Z) (msg : string)
    (expect : expect_arg) (decode : bool) (w : world) :
  closed w = false ->
  1 <= amount ->
  amount <= len (pending (rx w)) ->
  check_error (firstn 1 (pending (rx w))) expect = Ok tt ->
  amount <= Z.of_nat fuel + 1 ->
  exists w',
    receive_exactly fuel amount msg expect decode w
    = (Ok (firstn (Z.to_nat amount) (pending (rx w))), w')
    /\ pending (rx w') = skipn (Z.to_nat amount) (pending (rx w))
    /\ closed w' = false
    /\ sent (trace w') = sent (trace w).
Proof.
  intros Hc Ha Hp Hchk Hf.
  destruct (receive_exactly_pending fuel amount msg expect decode w Hc Ha Hp Hchk Hf)
    as (w' & Hrun & Hp' & Hc' & _ & Hs').
  exists w'. auto.
Qed.

(** Four bytes wanted, six on their way in three segments. *)
Lemma receive_exactly_reassembles_witness :
  exists w',
    receive_exactly 3 4 "authentication nonce" (ExpList []) false
      (connect [Seg 97 []; Seg 98 [99]; Seg 100 [101; 102]] [])
    = (Ok [97; 98; 99; 100], w')
    /\ pending (rx w') = [101; 102]
    /\ closed w' = false
    /\ sent (trace w') = [].
Proof.
  apply (receive_exactly_reassembles 3 4 "authentication nonce" (ExpList []) false
           (connect [Seg 97 []; Seg 98 [99]; Seg 100 [101; 102]] []));
    try reflexivity; vm_compute; congruence.
Defined.

(** ** The finished bar *)

(** X7.  A progress of 1 or more, whatever its type, draws the bar full:
    unless 100% is what was drawn last, in which case nothing is
    written, [update] writes the carriage return, sixty [=] signs between
    the brackets, [100%] and [Done...] followed by a line break, and
    remembers 100. *)
Theorem progress_bar_completes (self : ProgressBar.t) (progress : PyNum.num) (w : world) :
  PyNum.ge progress (PyNum.Int 1) = true ->
  ProgressBar.update self progress w
  = (if ProgressBar.same_progress 100 (ProgressBar.last_progress self) then (Ok self, w)
     else (Ok (ProgressBar.mk (Some 100)),
           emit (EvProgress 60 100 ("Done..." ++ ProgressBar.CR ++ ProgressBar.LF)) w))
  /\ written (EvProgress 60 100 ("Done..." ++ ProgressBar.CR ++ ProgressBar.LF))
     = (ProgressBar.CR
          ++ "Uploading: [============================================================] 100% Done..."
          ++ ProgressBar.CR ++ ProgressBar.LF)%string.
Proof.
  intros H. split; [| vm_compute; reflexivity].
  unfold ProgressBar.update. rewrite H. unfold bind, lift.
  change (PyNum.int (PyNum.mul (PyNum.Int 1) (PyNum.Int 100))) with (@Ok Z 100).
  cbv iota beta.
  destruct (ProgressBar.same_progress 100 (ProgressBar.last_progress self)); reflexivity.
Qed.

(** The float [1.5], with 99% drawn last. *)
Lemma progress_bar_completes_witness :
  ProgressBar.update (ProgressBar.mk (Some 99)) (PyNum.Float 0x1.8p+0%float) (connect [] [])
  = (if ProgressBar.same_progress 100 (ProgressBar.last_progress (ProgressBar.mk (Some 99)))
     then (Ok (ProgressBar.mk (Some 99)), connect [] [])
     else (Ok (ProgressBar.mk (Some 100)),
           emit (EvProgress 60 100 ("Done..." ++ ProgressBar.CR ++ ProgressBar.LF))
             (connect [] [])))
  /\ written (EvProgress 60 100 ("Done..." ++ ProgressBar.CR ++ ProgressBar.LF))
     = (ProgressBar.CR
          ++ "Uploading: [============================================================] 100% Done..."
          ++ ProgressBar.CR ++ ProgressBar.LF)%string.
Proof.
  apply (progress_bar_completes (ProgressBar.mk (Some 99)) (PyNum.Float 0x1.8p+0%float)
           (connect [] [])).
  vm_compute. reflexivity.
Defined.

(** ** A chunk that does not go through *)

(** The failures of a one-byte read against a validated expectation. *)
Lemma receive_exactly_one_raises (fuel : nat) (msg : string) (expect : expect_arg)
    (decode : bool) (w : world) (e : exn) (w' : world) :
  receive_exactly fuel 1 msg expect decode w = (Raise e, w') ->
  truthy expect = true ->
  e = IndexError
  \/ (exists err, e = OTAError ("Error receiving acknowledge " ++ msg ++ ": " ++ err))
  \/ (exists m, e = OTAError ("Error " ++ msg ++ ": " ++ m) /\ closed w' = true).
Proof.
  intros H Ht. rewrite receive_exactly_unfold in H.
  apply bind_inv in H.
  destruct H as [(data & w1 & _ & H) | [(e0 & H & He) | (_ & He)]]; try discriminate He.
  - apply bind_inv in H.
    destruct H as [([] & w2 & E2 & H) | [(e0 & H & He) | (_ & He)]]; try discriminate He.
    + exfalso. unfold try_except, lift in E2.
      destruct (check_error data expect) as [[] | e1 |] eqn:Hchk.
      * destruct data as [| b rest];
          [rewrite (check_error_empty _ Ht) in Hchk; discriminate Hchk |].
        rewrite receive_rest_unfold in H.
        destruct (Z.ltb_spec (len (b :: rest)) 1) as [Hlt | _];
          [unfold len in Hlt; cbn [List.length] in Hlt; lia | discriminate H].
      * destruct e1; cbn in E2; discriminate E2.
      * discriminate E2.
    + inversion He; subst e0. clear He.
      unfold try_except, lift in H.
      destruct (check_error data expect) as [[] | e1 |] eqn:Hchk; try discriminate H.
      destruct (check_error_raises _ _ _ Hchk) as [(-> & -> & _) | (b & rest & m & -> & ->)].
      * cbn in H. inversion H. left. reflexivity.
      * cbn in H. inversion H; subst. right. right. exists m. auto.
  - inversion He; subst e0. right. left.
    exact (read_more_raises _ _
             (fun err => "Error receiving acknowledge " ++ msg ++ ": " ++ err)%string
             _ _ _ _ H ltac:(lia)).
Qed.

(** X8.  A chunk fails in two ways that read differently.  When
    [sendall] fails, a line break is written to standard error and the
    failure is [Error sending data: <err>].  When the chunk went out and
    its acknowledgement fails, the failure is that of [receive_exactly]
    as it stands ([Error receiving acknowledge chunk OK: <err>], [Error
    chunk OK: <diagnostic>], or [IndexError] at the end of the stream):
    the [except OSError] clause around it does not apply, and no line
    break is written. *)
Theorem chunk_failure_messages (rfuel : nat) (version : Z) (chunk : list Z)
    (w : world) (e : exn) (w' : world) :
  send_chunk rfuel version chunk w = (Raise e, w') ->
  closed w = false ->
  (exists err,
      e = OTAError ("Error sending data: " ++ err)
      /\ events_since w w' = [EvSendErr chunk err; EvStderr ProgressBar.LF])
  \/ (OTA_VERSION_2_0 <= version
      /\ sent (events_since w w') = [chunk]
      /\ ~ In (EvStderr ProgressBar.LF) (events_since w w')
      /\ (e = IndexError
          \/ (exists err, e = OTAError ("Error receiving acknowledge chunk OK: " ++ err))
          \/ (exists m, e = OTAError ("Error chunk OK: " ++ m) /\ closed w' = true))).
Proof.
  unfold send_chunk, try_except. intros H Hc.
  destruct (bind (sock_sendall chunk) _ w) as [r0 w0] eqn:E.
  apply bind_inv in E.
  destruct E as [([] & w1 & Es & E) | [(e0 & Es & ->) | (Es & ->)]];
    destruct (sock_sendall_cases _ _ _ _ Es)
      as [(Hr & _ & Hc1 & Ht1) | (err & evs & Hr & Ht1 & Hevs)];
    try discriminate Hr.
  - (* the chunk went out *)
    right. destruct (Z.leb_spec OTA_VERSION_2_0 version) as [Hv | Hv];
      [| inversion E; subst; discriminate H].
    apply bind_inv in E.
    destruct E as [(data & w2 & Er & E) | [(e0 & Er & ->) | (Er & ->)]];
      [inversion E; subst; discriminate H | | discriminate H].
    destruct (receive_exactly_one_spec _ _ _ _ _ _ _ Er Hc1 eq_refl)
      as (ev & tail & Ht2 & Hrc & Hsn & Htail & _ & _ & _).
    pose proof (receive_exactly_one_raises _ _ _ _ _ _ _ Er eq_refl) as Hwhy.
    assert (He : e = e0 /\ w' = w0).
    { destruct Hwhy as [-> | [(m & ->) | (m & -> & _)]]; cbn in H; inversion H; auto. }
    destruct He as [-> ->].
    rewrite (events_since_app w w0 (EvSend chunk :: ev :: tail))
      by (rewrite Ht2, Ht1, <- app_assoc; reflexivity).
    split; [exact Hv |]. split; [| split; [| exact Hwhy]].
    + change (EvSend chunk :: ev :: tail) with ([EvSend chunk] ++ [ev] ++ tail).
      rewrite !sent_app, Hsn. destruct Htail as [-> | ->]; reflexivity.
    + intros [Hin | [Hin | Hin]]; [discriminate Hin | |].
      * subst ev. discriminate Hrc.
      * destruct Htail as [-> | ->]; [exact Hin |].
        destruct Hin as [Hin | []]. discriminate Hin.
  - (* [sendall] failed *)
    left. inversion Hr; subst e0. cbn in H. inversion H; subst.
    exists err. split; [reflexivity |].
    apply events_since_app. rewrite trace_emit.
    unfold sock_sendall in Es. rewrite Hc in Es.
    destruct (tx w) as [| [| err'] rest]; inversion Es; subst.
    rewrite trace_emit. cbn [trace]. rewrite <- app_assoc. reflexivity.
Qed.

Lemma chunk_failure_messages_witness :
  (exists err,
      OTAError "Error receiving acknowledge chunk OK: timed out"
      = OTAError ("Error sending data: " ++ err)
      /\ events_since (connect [RxErr "timed out"] [])
           (snd (send_chunk 1 2 [7; 7] (connect [RxErr "timed out"] [])))
         = [EvSendErr [7; 7] err; EvStderr ProgressBar.LF])
  \/ (OTA_VERSION_2_0 <= 2
      /\ sent (events_since (connect [RxErr "timed out"] [])
                 (snd (send_chunk 1 2 [7; 7] (connect [RxErr "timed out"] []))))
         = [[7; 7]]
      /\ ~ In (EvStderr ProgressBar.LF)
              (events_since (connect [RxErr "timed out"] [])
                 (snd (send_chunk 1 2 [7; 7] (connect [RxErr "timed out"] []))))
      /\ (OTAError "Error receiving acknowledge chunk OK: timed out" = IndexError
          \/ (exists err,
                 OTAError "Error receiving acknowledge chunk OK: timed out"
                 = OTAError ("Error receiving acknowledge chunk OK: " ++ err))
          \/ (exists m,
                 OTAError "Error receiving acknowledge chunk OK: timed out"
                 = OTAError ("Error chunk OK: " ++ m)
                 /\ closed (snd (send_chunk 1 2 [7; 7] (connect [RxErr "timed out"] [])))
                    = true))).
Proof.
  apply (chunk_failure_messages 1 2 [7; 7] (connect [RxErr "timed out"] [])
           (OTAError "Error receiving acknowledge chunk OK: timed out")
           (snd (send_chunk 1 2 [7; 7] (connect [RxErr "timed out"] [])))).
  - vm_compute. reflexivity.
  - reflexivity.
Defined.

(** ** The negotiation *)

Lemma bind_assoc {A B C : Type} (m : M A) (k : A -> M B) (k' : B -> M C) (w : world) :
  bind (bind m k) k' w = bind m (fun a => bind (k a) k') w.
Proof. unfold bind. destruct (m w) as [[a | e |] w1]; reflexivity. Qed.

Lemma bind_ext {A B : Type} (m : M A) (k1 k2 : A -> M B) (w : world) :
  (forall a w1, k1 a w1 = k2 a w1) -> bind m k1 w = bind m k2 w.
Proof. intros H. unfold bind. destruct (m w) as [[a | e |] w1]; auto. Qed.

Lemma perform_ota_negotiate (gz : list Z -> list Z) (fuel : nat) (password : string)
    (file_contents : list Z) (random_repr : string) (w : world) :
  perform_ota gz fuel password file_contents random_repr w
  = (answer <- negotiate fuel ;;
     upload_after gz fuel password file_contents random_repr answer) w.
Proof.
  rewrite perform_ota_unfold. unfold negotiate.
  do 4 (rewrite bind_assoc; apply bind_ext; intros ? ?).
  match goal with |- context [if ?c then _ else _] => destruct c end; [reflexivity |].
  do 5 (rewrite bind_assoc; apply bind_ext; intros ? ?).
  reflexivity.
Qed.

Lemma send_check_run (data : payload) (msg : string) (bytes : list Z) (w : world) :
  payload_bytes data = Ok bytes ->
  closed w = false ->
  tx w = [] ->
  send_check data msg w = (Ok tt, emit (EvSend bytes) w).
Proof.
  intros Hb Hc Ht. unfold send_check, try_except, bind, lift.
  fold (payload_bytes data). rewrite Hb. unfold sock_sendall. rewrite Hc, Ht. reflexivity.
Qed.

(** The version exchange against a stream that holds the two bytes of
    the reply. *)
Lemma version_exchange (fuel : nat) (w : world) (s v : Z) (more : list Z) :
  closed w = false ->
  tx w = [] ->
  pending (rx w) = s :: v :: more ->
  (1 <= fuel)%nat ->
  exists w3,
    (forall (B : Type) (k : list Z -> M B),
        (sock_setsockopt (TCP_NODELAY 1) ;;
         send_check (PList MAGIC_BYTES) "magic bytes" ;;
         reply <- receive_exactly fuel 2 "version" (ExpCode RESPONSE_OK) true ;;
         k reply) w
        = k [s; v] w3)
    /\ closed w3 = false /\ tx w3 = [] /\ pending (rx w3) = more
    /\ sent (trace w3) = sent (trace w) ++ [MAGIC_BYTES].
Proof.
  intros Hc Ht Hp Hf.
  set (w2 := emit (EvSend MAGIC_BYTES) (emit (EvSetsockopt (TCP_NODELAY 1)) w)).
  assert (Hs2 : sent (trace w2) = sent (trace w) ++ [MAGIC_BYTES]).
  { unfold w2. rewrite !trace_emit, !sent_app. cbn. rewrite app_nil_r. reflexivity. }
  destruct (receive_exactly_pending fuel 2 "version" (ExpCode RESPONSE_OK) true w2)
    as (w3 & Hrun & Hp3 & Hc3 & Htx3 & Hs3); auto; try lia.
  - change (rx w2) with (rx w). rewrite Hp. unfold len. cbn [List.length]. lia.
  - change (rx w2) with (rx w) in *. rewrite Hp in *.
    change (tx w2) with (tx w) in *.
    exists w3. repeat split; auto; try congruence.
    intros B k. unfold bind at 1. rewrite sock_setsockopt_run by exact Hc.
    unfold bind at 1.
    rewrite (send_check_run _ _ MAGIC_BYTES) by (reflexivity || exact Hc || exact Ht).
    fold w2. unfold bind at 1. rewrite Hrun. reflexivity.
Qed.

Lemma negotiate_unsupported (fuel : nat) (w : world) (s v : Z) (more : list Z) :
  closed w = false ->
  tx w = [] ->
  pending (rx w) = s :: v :: more ->
  (1 <= fuel)%nat ->
  v <> OTA_VERSION_1_0 ->
  v <> OTA_VERSION_2_0 ->
  exists w3,
    negotiate fuel w = (Raise (OTAError (MSG_UNSUPPORTED_VERSION v)), w3)
    /\ closed w3 = false
    /\ sent (trace w3) = sent (trace w) ++ [MAGIC_BYTES].
Proof.
  intros Hc Ht Hp Hf H1 H2.
  destruct (version_exchange fuel w s v more Hc Ht Hp Hf) as (w3 & Hrun & Hc3 & _ & _ & Hs3).
  exists w3. split; [| auto].
  unfold negotiate. rewrite Hrun.
  unfold bind, lift. cbn [py_in existsb negb].
  destruct (Z.eqb_spec v OTA_VERSION_1_0); [contradiction |].
  destruct (Z.eqb_spec v OTA_VERSION_2_0); [contradiction |].
  reflexivity.
Qed.

(** The whole negotiation against a stream that holds the four bytes the
    device answers with. *)
Lemma negotiate_run (fuel : nat) (w : world) (s v f a : Z) (more : list Z) :
  closed w = false ->
  tx w = [] ->
  pending (rx w) = s :: v :: f :: a :: more ->
  (1 <= fuel)%nat ->
  v = OTA_VERSION_1_0 \/ v = OTA_VERSION_2_0 ->
  f = RESPONSE_HEADER_OK \/ f = RESPONSE_SUPPORTS_COMPRESSION ->
  a = RESPONSE_REQUEST_AUTH \/ a = RESPONSE_AUTH_OK ->
  exists w6,
    negotiate fuel w = (Ok (v, f, a), w6)
    /\ closed w6 = false /\ tx w6 = [] /\ pending (rx w6) = more
    /\ sent (trace w6) = sent (trace w) ++ [MAGIC_BYTES; [FEATURE_SUPPORTS_COMPRESSION]].
Proof.
  intros Hc Ht Hp Hf Hv Hfe Ha.
  destruct (version_exchange fuel w s v (f :: a :: more) Hc Ht Hp Hf)
    as (w3 & Hrun & Hc3 & Ht3 & Hp3 & Hs3).
  set (w4 := emit (EvSend [FEATURE_SUPPORTS_COMPRESSION]) w3).
  assert (Hs4 : sent (trace w4)
                = sent (trace w) ++ [MAGIC_BYTES; [FEATURE_SUPPORTS_COMPRESSION]]).
  { unfold w4. rewrite trace_emit, sent_app, Hs3, <- app_assoc. reflexivity. }
  destruct (receive_exactly_pending fuel 1 "features"
              (ExpList [RESPONSE_HEADER_OK; RESPONSE_SUPPORTS_COMPRESSION]) true w4)
    as (w5 & Hrun5 & Hp5 & Hc5 & Ht5 & Hs5); auto; try lia;
    change (rx w4) with (rx w3) in *; change (tx w4) with (tx w3) in *;
    try rewrite Hp3 in *.
  { unfold len. cbn [List.length]. lia. }
  { destruct Hfe as [-> | ->]; reflexivity. }
  change (Z.to_nat 1) with 1%nat in *. cbn [skipn firstn] in Hp5, Hrun5.
  destruct (receive_exactly_pending fuel 1 "auth"
              (ExpList [RESPONSE_REQUEST_AUTH; RESPONSE_AUTH_OK]) true w5)
    as (w6 & Hrun6 & Hp6 & Hc6 & Ht6 & Hs6); auto; try lia;
    try rewrite Hp5 in *.
  { unfold len. cbn [List.length]. lia. }
  { destruct Ha as [-> | ->]; reflexivity. }
  change (Z.to_nat 1) with 1%nat in *. cbn [skipn firstn] in Hp6, Hrun6.
  exists w6. repeat split; auto; try congruence.
  unfold negotiate. rewrite Hrun.
  unfold bind at 1, lift at 1.
  assert (Hin : negb (py_in v [OTA_VERSION_1_0; OTA_VERSION_2_0]) = false)
    by (destruct Hv as [-> | ->]; reflexivity).
  rewrite Hin.
  unfold bind at 1.
  rewrite (send_check_run _ _ [FEATURE_SUPPORTS_COMPRESSION])
    by (reflexivity || exact Hc3 || exact Ht3).
  fold w4. unfold bind at 1. rewrite Hrun5.
  unfold bind at 1, lift at 1.
  unfold bind at 1. rewrite Hrun6.
  reflexivity.
Qed.

(** What a negotiation that went through has sent and read. *)
Lemma negotiate_spec (fuel : nat) (w : world) (v f a : Z) (w6 : world) :
  negotiate fuel w = (Ok (v, f, a), w6) ->
  closed w = false ->
  exists s,
    received (trace w6) = received (trace w) ++ [s; v; f; a]
    /\ sent (trace w6) = sent (trace w) ++ [MAGIC_BYTES; [FEATURE_SUPPORTS_COMPRESSION]]
    /\ closed w6 = false.
Proof.
  unfold negotiate. intros H Hc.
  apply bind_inv in H.
  destruct H as [([] & w1 & E1 & H) | [(e & _ & He) | (_ & He)]]; try discriminate He.
  rewrite sock_setsockopt_run in E1 by exact Hc. inversion E1; subst w1. clear E1.
  set (w1 := emit (EvSetsockopt (TCP_NODELAY 1)) w) in *.
  assert (Hc1 : closed w1 = false) by exact Hc.
  assert (Hs1 : sent (trace w1) = sent (trace w)).
  { unfold w1. rewrite trace_emit, sent_app. apply app_nil_r. }
  assert (Hr1 : received (trace w1) = received (trace w)).
  { unfold w1. rewrite trace_emit, received_app. apply app_nil_r. }
  clearbody w1.
  apply bind_inv in H.
  destruct H as [([] & w2 & E2 & H) | [(e & _ & He) | (_ & He)]]; try discriminate He.
  destruct (send_check_step (PList MAGIC_BYTES) _ MAGIC_BYTES _ _ _ eq_refl Hc1 E2)
    as (Hc2 & Hr2 & [(_ & _ & Hs2) | ((m & Hm) & _)]); [| discriminate Hm].
  apply bind_inv in H.
  destruct H as [(reply & w3 & E3 & H) | [(e & _ & He) | (_ & He)]]; try discriminate He.
  destruct (receive_exactly_step _ _ _ _ _ _ _ _ E3 Hc2 ltac:(lia))
    as (Hs3 & rcv3 & Hr3 & <- & Hl3 & Hc3 & _).
  apply bind_inv in H.
  destruct H as [(version & w3' & E & H) | [(e & _ & He) | (_ & He)]]; try discriminate He.
  unfold lift in E. destruct reply as [| s [| v' [| ? ?]]]; inversion E; subst version w3'.
  clear E.
  destruct (negb (py_in v' [OTA_VERSION_1_0; OTA_VERSION_2_0])); [discriminate H |].
  apply bind_inv in H.
  destruct H as [([] & w4 & E4 & H) | [(e & _ & He) | (_ & He)]]; try discriminate He.
  destruct (send_check_step (PInt FEATURE_SUPPORTS_COMPRESSION) _
              [FEATURE_SUPPORTS_COMPRESSION] _ _ _ eq_refl Hc3 E4)
    as (Hc4 & Hr4 & [(_ & _ & Hs4) | ((m & Hm) & _)]); [| discriminate Hm].
  apply bind_inv in H.
  destruct H as [(reply5 & w5 & E5 & H) | [(e & _ & He) | (_ & He)]]; try discriminate He.
  destruct (receive_exactly_step _ _ _ _ _ _ _ _ E5 Hc4 ltac:(lia))
    as (Hs5 & rcv5 & Hr5 & <- & Hl5 & Hc5 & _).
  apply bind_inv in H.
  destruct H as [(features & w5' & E & H) | [(e & _ & He) | (_ & He)]]; try discriminate He.
  unfold lift in E.
  destruct reply5 as [| f' [| ? ?]]; inversion E; subst features w5';
    [| unfold len in Hl5; cbn [List.length] in Hl5; lia].
  clear E.
  apply bind_inv in H.
  destruct H as [(reply6 & w6' & E6 & H) | [(e & _ & He) | (_ & He)]]; try discriminate He.
  destruct (receive_exactly_step _ _ _ _ _ _ _ _ E6 Hc5 ltac:(lia))
    as (Hs6 & rcv6 & Hr6 & <- & Hl6 & Hc6 & _).
  apply bind_inv in H.
  destruct H as [(auth & w6'' & E & H) | [(e & _ & He) | (_ & He)]]; try discriminate He.
  unfold lift in E. destruct reply6 as [| a' [| ? ?]]; inversion E; subst auth w6''.
  clear E. inversion H; subst v' f' a' w6'.
  exists s. split; [| split; [| exact Hc6]].
  - rewrite Hr6, Hr5, Hr4, Hr3, Hr2, Hr1, <- !app_assoc. reflexivity.
  - rewrite Hs6, Hs5, Hs4, Hs3, Hs2, Hs1, <- !app_assoc. reflexivity.
Qed.

(** X9.  The password plays a part only when the device asks for
    authentication: two runs against the same device that differ in the
    password alone are the same run, event for event, unless the fourth
    byte the device sent is the request for authentication. *)
Theorem password_matters_only_on_request (gz : list Z -> list Z) (fuel : nat)
    (password password' : string) (file_contents : list Z) (random_repr : string)
    (rx : list rx_item) (tx : list tx_item) :
  let run := perform_ota gz fuel password file_contents random_repr (connect rx tx) in
  let run' := perform_ota gz fuel password' file_contents random_repr (connect rx tx) in
  run = run'
  \/ nth_error (received (trace (snd run))) 3 = Some RESPONSE_REQUEST_AUTH.
Proof.
  cbv zeta. rewrite !perform_ota_negotiate. unfold bind at 1 2 3.
  destruct (negotiate fuel (connect rx tx)) as [[[[v f] a] | e |] w4] eqn:E;
    [| left; reflexivity | left; reflexivity].
  destruct (negotiate_spec _ _ _ _ _ _ E eq_refl) as (s & Hr & _ & _).
  unfold upload_after.
  destruct (Z.eqb_spec a RESPONSE_REQUEST_AUTH) as [-> | Hne].
  - right.
    match goal with |- context [snd (?m w4)] =>
      destruct (m w4) as [r w'] eqn:Erun;
      assert (Htame : tame m)
        by (apply tame_bind; [apply tame_authenticate | intros; apply tame_prepare_and_upload]);
      destruct (Htame _ _ _ Erun) as [(evs & Ht) _]
    end.
    cbn [snd]. rewrite Ht, received_app, Hr. reflexivity.
  - left. unfold authenticate. apply Z.eqb_neq in Hne. rewrite Hne. reflexivity.
Qed.

(** X10.  A device that answers the magic bytes with a version other
    than 1 or 2 is turned away: whatever the first byte of its reply, the
    engine raises [OTAError] naming the version, having sent the magic
    bytes only, and leaves the connection open. *)
Theorem unsupported_version_refused (gz : list Z -> list Z) (fuel : nat) (password : string)
    (file_contents : list Z) (random_repr : string) (w : world) (s v : Z) (more : list Z) :
  closed w = false ->
  tx w = [] ->
  pending (rx w) = s :: v :: more ->
  (1 <= fuel)%nat ->
  v <> OTA_VERSION_1_0 ->
  v <> OTA_VERSION_2_0 ->
  exists w',
    perform_ota gz fuel password file_contents random_repr w
    = (Raise (OTAError ("Device uses unsupported OTA version " ++ str_of_int v
                          ++ ", this ESPHome supports (1, 2)")), w')
    /\ sent (trace w') = sent (trace w) ++ [MAGIC_BYTES]
    /\ closed w' = false.
Proof.
  intros Hc Ht Hp Hf H1 H2.
  destruct (negotiate_unsupported fuel w s v more Hc Ht Hp Hf H1 H2) as (w' & Hrun & Hc' & Hs).
  exists w'. rewrite perform_ota_negotiate. unfold bind. rewrite Hrun. auto.
Qed.

Lemma unsupported_version_refused_witness :
  exists w',
    perform_ota toy_gzip 1 "secret" [7] "0.5" (connect [Seg RESPONSE_ERROR_MAGIC []; Seg 3 []] [])
    = (Raise (OTAError ("Device uses unsupported OTA version " ++ str_of_int 3
                          ++ ", this ESPHome supports (1, 2)")), w')
    /\ sent (trace w') = sent (trace (connect [Seg RESPONSE_ERROR_MAGIC []; Seg 3 []] []))
                         ++ [MAGIC_BYTES]
    /\ closed w' = false.
Proof.
  apply (unsupported_version_refused toy_gzip 1 "secret" [7] "0.5"
           (connect [Seg RESPONSE_ERROR_MAGIC []; Seg 3 []] []) RESPONSE_ERROR_MAGIC 3 []);
    try reflexivity; try lia; discriminate.
Defined.

(** X11.  The nonce the device sends is decoded as UTF-8 before it is
    used.  When its 32 bytes are not well-formed UTF-8 the engine raises
    [UnicodeDecodeError], which is not an [OTAError], before any
    authentication message is sent, and leaves the connection open. *)
Theorem malformed_nonce_raises_UnicodeDecodeError (gz : list Z -> list Z) (fuel : nat)
    (password : string) (file_contents : list Z) (random_repr : string) (w : world)
    (s v f : Z) (nonce more : list Z) :
  closed w = false ->
  tx w = [] ->
  pending (rx w) = s :: v :: f :: RESPONSE_REQUEST_AUTH :: nonce ++ more ->
  len nonce = 32 ->
  utf8_valid nonce = false ->
  v = OTA_VERSION_1_0 \/ v = OTA_VERSION_2_0 ->
  f = RESPONSE_HEADER_OK \/ f = RESPONSE_SUPPORTS_COMPRESSION ->
  is_empty password = false ->
  (31 <= fuel)%nat ->
  exists w',
    perform_ota gz fuel password file_contents random_repr w = (Raise UnicodeDecodeError, w')
    /\ sent (trace w') = sent (trace w) ++ [MAGIC_BYTES; [FEATURE_SUPPORTS_COMPRESSION]]
    /\ closed w' = false
    /\ forall m, UnicodeDecodeError <> OTAError m.
Proof.
  intros Hc Ht Hp Hl Hu Hv Hfe Hpw Hf.
  destruct (negotiate_run fuel w s v f RESPONSE_REQUEST_AUTH (nonce ++ more)
              Hc Ht Hp ltac:(lia) Hv Hfe ltac:(left; reflexivity))
    as (w6 & Hrun & Hc6 & Ht6 & Hp6 & Hs6).
  destruct (receive_exactly_pending fuel 32 "authentication nonce" (ExpList []) false w6)
    as (w7 & Hrun7 & Hp7 & Hc7 & Ht7 & Hs7); auto; try lia.
  { rewrite Hp6, len_app. pose proof (len_nonneg more). lia. }
  assert (Hn : firstn (Z.to_nat 32) (pending (rx w6)) = nonce).
  { rewrite Hp6. replace (Z.to_nat 32) with (List.length nonce) by (unfold len in Hl; lia).
    rewrite firstn_app, Nat.sub_diag, firstn_all. cbn [firstn]. apply app_nil_r. }
  rewrite Hn in Hrun7.
  exists w7. rewrite perform_ota_negotiate. unfold bind at 1. rewrite Hrun.
  unfold upload_after, authenticate. change (RESPONSE_REQUEST_AUTH =? RESPONSE_REQUEST_AUTH) with true.
  cbv iota. rewrite Hpw.
  unfold bind at 1. unfold bind at 1. rewrite Hrun7.
  unfold bind at 1, lift at 1, decode. rewrite Hu.
  repeat split; congruence.
Qed.

Lemma malformed_nonce_raises_UnicodeDecodeError_witness :
  exists w',
    perform_ota toy_gzip 31 "secret" [7] "0.5"
      (connect [Seg 0 [1; RESPONSE_HEADER_OK]; Seg RESPONSE_REQUEST_AUTH (repeat 0xFF 32)] [])
    = (Raise UnicodeDecodeError, w')
    /\ sent (trace w')
       = sent (trace (connect [Seg 0 [1; RESPONSE_HEADER_OK];
                               Seg RESPONSE_REQUEST_AUTH (repeat 0xFF 32)] []))
         ++ [MAGIC_BYTES; [FEATURE_SUPPORTS_COMPRESSION]]
    /\ closed w' = false
    /\ forall m, UnicodeDecodeError <> OTAError m.
Proof.
  apply (malformed_nonce_raises_UnicodeDecodeError toy_gzip 31 "secret" [7] "0.5"
           (connect [Seg 0 [1; RESPONSE_HEADER_OK]; Seg RESPONSE_REQUEST_AUTH (repeat 0xFF 32)] [])
           0 1 RESPONSE_HEADER_OK (repeat 0xFF 32) []);
    try reflexivity; try lia; auto.
Defined.

(** ** Failures and hangs of the engine *)

Lemma guarded_weaken {A : Type} (P Q : exn -> Prop) (m : M A) :
  (forall e, P e -> Q e) -> guarded P m -> guarded Q m.
Proof.
  intros HPQ Hm w r w' H Hc. destruct (Hm w r w' H Hc) as (Hok & Hr & Hd).
  repeat split; auto.
Qed.

Lemma guarded_ret {A : Type} (P : exn -> Prop) (a : A) : guarded P (ret a).
Proof.
  intros w r w' H Hc. inversion H; subst. repeat split; try discriminate. auto.
Qed.

Lemma guarded_raise {A : Type} (P : exn -> Prop) (e : exn) : P e -> guarded P (@raise A e).
Proof.
  intros He w r w' H Hc. inversion H; subst. repeat split; try discriminate.
  intros e0 H0. inversion H0; subst. exact He.
Qed.

Lemma guarded_lift {A : Type} (P : exn -> Prop) (o : outcome A) :
  (forall e, o = Raise e -> P e) -> o <> Diverge -> guarded P (lift o).
Proof.
  intros Hr Hd w r w' H Hc. inversion H; subst. repeat split; auto. contradiction.
Qed.

Lemma guarded_bind {A B : Type} (P : exn -> Prop) (m : M A) (k : A -> M B) :
  guarded P m -> (forall a, guarded P (k a)) -> guarded P (bind m k).
Proof.
  intros Hm Hk w r w' H Hc. apply bind_inv in H.
  destruct H as [(a & w1 & E & H) | [(e & E & ->) | (E & ->)]];
    destruct (Hm _ _ _ E Hc) as (Hok & Hr & Hd).
  - exact (Hk a _ _ _ H (Hok _ eq_refl)).
  - repeat split; try discriminate. intros e0 He. inversion He; subst. auto.
  - repeat split; try discriminate. auto.
Qed.

Lemma guarded_emit {A : Type} (P : exn -> Prop) (a : A) (ev : event) :
  guarded P (fun w => (Ok a, emit ev w)).
Proof.
  intros w r w' H Hc. inversion H; subst. repeat split; try discriminate. auto.
Qed.

Lemma guarded_sock_setsockopt (P : exn -> Prop) (o : sockopt) : guarded P (sock_setsockopt o).
Proof.
  intros w r w' H Hc. unfold sock_setsockopt in H. rewrite Hc in H.
  inversion H; subst. repeat split; try discriminate. auto.
Qed.

Lemma guarded_sock_settimeout (P : exn -> Prop) (secs : Z) : guarded P (sock_settimeout secs).
Proof.
  intros w r w' H Hc. unfold sock_settimeout in H. rewrite Hc in H.
  inversion H; subst. repeat split; try discriminate. auto.
Qed.

Lemma guarded_send_check (data : payload) (msg : string) (bytes : list Z) :
  payload_bytes data = Ok bytes -> guarded not_OSError (send_check data msg).
Proof.
  intros Hb w r w' H Hc.
  destruct (send_check_step _ _ _ _ _ _ Hb Hc H)
    as (Hc' & _ & [(-> & _) | ((m & ->) & _)]);
    repeat split; try discriminate; auto.
  intros e He. inversion He; subst. intros err. discriminate.
Qed.

Lemma guarded_receive_exactly (fuel : nat) (amount : Z) (msg : string)
    (expect : expect_arg) (decode : bool) :
  1 <= amount <= Z.of_nat fuel + 1 ->
  guarded not_OSError (receive_exactly fuel amount msg expect decode).
Proof.
  intros Ha w r w' H Hc.
  destruct (receive_exactly_spec _ _ _ _ _ _ _ _ H Hc ltac:(lia)) as (evs & _ & _ & _ & Hr).
  split; [| split].
  - intros a ->. tauto.
  - intros e ->. intros err ->.
    destruct Hr as [(b & m & _ & _ & He & _) | (_ & _ & [(He & _) | (m & He)])];
      discriminate He.
  - intros ->. apply (receive_exactly_diverges_at_eof _ _ _ _ _ _ _ H Hc). lia.
Qed.

Lemma transfer_loop_raises (rfuel : nat) (version : Z) (upload : list Z) (fuel : nat) :
  forall (offset : Z) (pb : ProgressBar.t) (w : world) (e : exn) (w' : world),
    transfer_loop rfuel fuel version upload offset pb w = (Raise e, w') ->
    not_OSError e.
Proof.
  induction fuel as [| fuel IH]; intros offset pb w e w' H; [discriminate H |].
  rewrite transfer_loop_unfold in H.
  destruct (slice upload offset (offset + UPLOAD_BLOCK_SIZE)) as [| c0 crest];
    [discriminate H |].
  cbv zeta in H. apply bind_inv in H.
  destruct H as [([] & w1 & _ & H) | [(e0 & E & He) | (_ & He)]]; try discriminate He.
  - apply bind_inv in H.
    destruct H as [(fraction & w2 & _ & H) | [(e0 & E & He) | (_ & He)]];
      try discriminate He.
    + apply bind_inv in H.
      destruct H as [(pb1 & w3 & _ & H) | [(e0 & E & He) | (_ & He)]]; try discriminate He.
      * exact (IH _ _ _ _ _ H).
      * inversion He; subst e0.
        match type of E with ProgressBar.update ?s ?p ?w0 = _ =>
          destruct (update_trace s p w0) as (_ & _ & _ & _ & _ & _ & Hr); rewrite E in Hr
        end.
        intros err ->. destruct (Hr _ eq_refl); discriminate.
    + inversion He; subst e0. unfold lift, PyNum.true_div in E.
      destruct (len upload =? 0); inversion E. intros err. discriminate.
  - inversion He; subst e0.
    destruct (send_chunk_spec _ _ _ _ _ _ E) as (_ & _ & _ & _ & _ & Hr & _).
    intros err ->. destruct (Hr _ eq_refl) as [He0 | (m & He0)]; discriminate He0.
Qed.

Lemma guarded_transfer_loop (rfuel fuel : nat) (version : Z) (upload : list Z)
    (pb : ProgressBar.t) :
  (List.length (chunks upload) < fuel)%nat ->
  guarded not_OSError (transfer_loop rfuel fuel version upload 0 pb).
Proof.
  intros Hf w r w' H Hc. split; [| split].
  - intros pb' ->. rewrite (transfer_loop_open _ _ _ _ _ _ _ _ _ H). exact Hc.
  - intros e ->. exact (transfer_loop_raises _ _ _ _ _ _ _ _ _ H).
  - intros ->. exfalso.
    apply (transfer_loop_terminates rfuel version upload fuel 0 pb w ltac:(lia) Hf).
    rewrite H. reflexivity.
Qed.

Create HintDb guarded.
#[local] Hint Resolve guarded_ret guarded_sock_setsockopt guarded_sock_settimeout
  guarded_emit : guarded.

Ltac guarded_step :=
  first
    [ solve [auto with guarded]
    | match goal with
      | |- guarded _ (bind _ _) => apply guarded_bind; [| intros]
      end
    | match goal with
      | |- guarded _ (if ?c then _ else _) => destruct c
      | |- guarded _ (send_check _ _) => eapply guarded_send_check; reflexivity
      | |- guarded _ (receive_exactly _ _ _ _ _) => apply guarded_receive_exactly; lia
      | |- guarded _ (lift _) =>
          apply guarded_lift;
          [ intros ? ? ? ->;
            repeat match goal with
                   | H : context [match ?x with _ => _ end] |- _ => destruct x
                   end;
            discriminate
          | repeat match goal with
                   | |- context [match ?x with _ => _ end] => destruct x
                   end;
            discriminate ]
      | |- guarded _ (raise _) => apply guarded_raise; intros ?; discriminate
      | |- guarded _ (ProgressBar.done _) => apply guarded_emit
      | |- guarded _ (time_sleep _) => apply guarded_emit
      end ].

Lemma guarded_finalize (fuel : nat) : guarded not_OSError (finalize fuel).
Proof. unfold finalize. repeat guarded_step. Qed.

Lemma guarded_prepare_and_upload (fuel : nat) (version : Z) (upload : list Z) :
  (List.length (chunks upload) < fuel)%nat ->
  guarded not_OSError (prepare_and_upload fuel version upload).
Proof.
  intros Hf. unfold prepare_and_upload, transfer_and_finalize. repeat guarded_step.
  - eapply guarded_send_check. apply encode_size_bytes.
  - apply guarded_transfer_loop. exact Hf.
  - apply guarded_finalize.
Qed.

Lemma guarded_authenticate (fuel : nat) (password random_repr : string) (auth : Z) :
  (31 <= fuel)%nat ->
  guarded not_OSError (authenticate fuel password random_repr auth).
Proof.
  intros Hf. unfold authenticate. repeat guarded_step.
  apply guarded_lift; unfold decode; destruct (utf8_valid _); try discriminate.
  intros e He err ->. discriminate He.
Qed.

Lemma guarded_perform_ota (gz : list Z -> list Z) (fuel : nat) (password : string)
    (file_contents : list Z) (random_repr : string) :
  (31 <= fuel)%nat ->
  (List.length (chunks file_contents) < fuel)%nat ->
  (List.length (chunks (gz file_contents)) < fuel)%nat ->
  guarded not_OSError (perform_ota gz fuel password file_contents random_repr).
Proof.
  intros Hf Hc1 Hc2. rewrite perform_ota_unfold. repeat guarded_step.
  - apply guarded_authenticate. exact Hf.
  - apply guarded_prepare_and_upload.
    match goal with |- context [if ?c then _ else _] => destruct c end; assumption.
Qed.

(** X12.  On an open socket the engine never raises [OSError]: the error
    of every [recv] and [sendall] comes back as [OTAError] (the socket
    options, set outside any [try], do not fail on an open socket).  When
    the engine returns, the connection is still open. *)
Theorem transport_errors_surface_as_OTAError (gz : list Z -> list Z) (fuel : nat)
    (password : string) (file_contents : list Z) (random_repr : string)
    (w : world) (r : outcome unit) (w' : world) :
  perform_ota gz fuel password file_contents random_repr w = (r, w') ->
  closed w = false ->
  (forall u, r = Ok u -> closed w' = false)
  /\ (forall e, r = Raise e -> forall err, e <> OSError err).
Proof.
  intros H Hc.
  destruct r as [u | e |]; [| | split; intros; discriminate].
  all: set (F := (fuel + 31 + List.length (chunks file_contents)
                  + List.length (chunks (gz file_contents)) + 1)%nat);
    pose proof (steady_perform_ota gz password file_contents random_repr fuel F w _ w'
                  ltac:(unfold F; lia) H ltac:(discriminate)) as HF;
    destruct (guarded_perform_ota gz F password file_contents random_repr
                ltac:(unfold F; lia) ltac:(unfold F; lia) ltac:(unfold F; lia)
                w _ w' HF Hc) as (Hok & Hr & _);
    split; auto.
Qed.

Lemma transport_errors_surface_as_OTAError_witness :
  (forall u : unit, Raise (OTAError "Error sending magic bytes: Broken pipe") = Ok u ->
             closed (emit (EvSendErr MAGIC_BYTES "Broken pipe")
                       (emit (EvSetsockopt (TCP_NODELAY 1)) (connect [] [])))
             = false)
  /\ (forall e, Raise (OTAError "Error sending magic bytes: Broken pipe") = @Raise unit e ->
                forall err, e <> OSError err).
Proof.
  apply (transport_errors_surface_as_OTAError toy_gzip 2 "secret" [7] "0.5"
           (connect [] [TxErr "Broken pipe"])
           (Raise (OTAError "Error sending magic bytes: Broken pipe"))
           (emit (EvSendErr MAGIC_BYTES "Broken pipe")
              (emit (EvSetsockopt (TCP_NODELAY 1)) (connect [] [])))).
  - reflexivity.
  - reflexivity.
Defined.

(** X13.  The engine fails to finish in one way only.  Given fuel for the
    32 reads of a nonce and for one round of the Transfer loop per chunk,
    a run that uses it all up has reached the end of the stream: the peer
    closed the connection in the middle of a reply. *)
Theorem engine_hangs_only_at_end_of_stream (gz : list Z -> list Z) (fuel : nat)
    (password : string) (file_contents : list Z) (random_repr : string) (w w' : world) :
  perform_ota gz fuel password file_contents random_repr w = (Diverge, w') ->
  closed w = false ->
  (31 <= fuel)%nat ->
  (List.length (chunks file_contents) < fuel)%nat ->
  (List.length (chunks (gz file_contents)) < fuel)%nat ->
  rx w' = [].
Proof.
  intros H Hc Hf Hc1 Hc2.
  destruct (guarded_perform_ota gz fuel password file_contents random_repr Hf Hc1 Hc2
              w _ w' H Hc) as (_ & _ & Hd).
  exact (Hd eq_refl).
Qed.

Lemma engine_hangs_only_at_end_of_stream_witness :
  rx (snd (perform_ota toy_gzip 31 "secret" [7] "0.5" (connect [Seg 0 []] []))) = [].
Proof.
  apply (engine_hangs_only_at_end_of_stream toy_gzip 31 "secret" [7] "0.5"
           (connect [Seg 0 []] [])
           (snd (perform_ota toy_gzip 31 "secret" [7] "0.5" (connect [Seg 0 []] [])))).
  - vm_compute. reflexivity.
  - reflexivity.
  - lia.
  - vm_compute. lia.
  - vm_compute. lia.
Defined.

(** ** What the device is sent *)

Lemma chunks_by_sizes (size : nat) :
  (0 < size)%nat ->
  forall (fuel : nat) (data : list Z),
    Forall (fun c => (1 <= List.length c <= size)%nat) (chunks_by size fuel data).
Proof.
  intros Hsize. induction fuel as [| fuel IH]; intros data; destruct data as [| b rest];
    cbn [chunks_by]; constructor.
  - rewrite length_firstn. cbn [List.length]. lia.
  - apply IH.
Qed.

Lemma chunks_sizes (data : list Z) :
  Forall (fun c => 1 <= len c <= UPLOAD_BLOCK_SIZE) (chunks data).
Proof.
  pose proof (chunks_by_sizes BLOCK BLOCK_pos (List.length data) data) as H.
  unfold chunks. eapply Forall_impl; [| exact H].
  intros c Hc. cbv beta in Hc. unfold len. rewrite <- BLOCK_size. lia.
Qed.

(** X14.  A run of the engine that returns has sent, in this order and
    nothing else: the magic bytes; the feature byte; the two
    authentication messages if the device asked for them; the length of
    the payload; its MD5 digest as text; the payload, cut into chunks of
    at most 8192 bytes, none empty, which put together again are the
    payload; the final acknowledgement.  The payload is the compressed
    file when the device answered the features with 0x46 and the file
    itself otherwise. *)
Theorem successful_upload_messages (gz : list Z -> list Z) (fuel : nat) (password : string)
    (file_contents : list Z) (random_repr : string) (rx : list rx_item) (tx : list tx_item)
    (w' : world) :
  perform_ota gz fuel password file_contents random_repr (connect rx tx) = (Ok tt, w') ->
  exists s v f a auth_messages,
    firstn 4 (received (trace w')) = [s; v; f; a]
    /\ ((a = RESPONSE_AUTH_OK /\ auth_messages = [])
        \/ (a = RESPONSE_REQUEST_AUTH /\ List.length auth_messages = 2%nat))
    /\ let upload_contents :=
         if f =? RESPONSE_SUPPORTS_COMPRESSION then gz file_contents else file_contents in
       sent (trace w')
       = [MAGIC_BYTES; [FEATURE_SUPPORTS_COMPRESSION]] ++ auth_messages
           ++ [encode_size (len upload_contents);
               encode (Hashlib.hexdigest (Hashlib.new upload_contents))]
           ++ chunks upload_contents ++ [[RESPONSE_OK]]
       /\ List.concat (chunks upload_contents) = upload_contents
       /\ Forall (fun c => 1 <= len c <= UPLOAD_BLOCK_SIZE) (chunks upload_contents).
Proof.
  intros H.
  destruct (perform_ota_success _ _ _ _ _ _ _ _ H)
    as (s & v & f & a & auth_messages & Hr & _ & _ & Ha & _ & Hs).
  exists s, v, f, a, auth_messages. cbv zeta in *.
  split; [exact Hr |]. split; [exact Ha |]. split; [exact Hs |].
  split; [apply chunks_concat | apply chunks_sizes].
Qed.

Lemma successful_upload_messages_witness :
  let w' :=
    snd (perform_ota toy_gzip 2 EmptyString (repeat 7 100) "0.5"
           (connect [Seg 0x00 [1]; Seg 0x46 []; Seg 0x41 [0x42]; Seg 0x43 []; Seg 0x44 [0x45]] []))
  in
  exists s v f a auth_messages,
    firstn 4 (received (trace w')) = [s; v; f; a]
    /\ ((a = RESPONSE_AUTH_OK /\ auth_messages = [])
        \/ (a = RESPONSE_REQUEST_AUTH /\ List.length auth_messages = 2%nat))
    /\ let upload_contents :=
         if f =? RESPONSE_SUPPORTS_COMPRESSION then toy_gzip (repeat 7 100) else repeat 7 100 in
       sent (trace w')
       = [MAGIC_BYTES; [FEATURE_SUPPORTS_COMPRESSION]] ++ auth_messages
           ++ [encode_size (len upload_contents);
               encode (Hashlib.hexdigest (Hashlib.new upload_contents))]
           ++ chunks upload_contents ++ [[RESPONSE_OK]]
       /\ List.concat (chunks upload_contents) = upload_contents
       /\ Forall (fun c => 1 <= len c <= UPLOAD_BLOCK_SIZE) (chunks upload_contents).
Proof.
  apply (successful_upload_messages toy_gzip 2 EmptyString (repeat 7 100) "0.5"
           [Seg 0x00 [1]; Seg 0x46 []; Seg 0x41 [0x42]; Seg 0x43 []; Seg 0x44 [0x45]] []).
  vm_compute. reflexivity.
Defined.

(** What PrepareUpdate and the steps after it send and read, whatever
    their outcome: past the length and the checksum only with both
    acknowledged. *)
Lemma prepare_and_upload_acks (fuel : nat) (version : Z) (upload : list Z)
    (w : world) (r : outcome unit) (w' : world) :
  prepare_and_upload fuel version upload w = (r, w') ->
  closed w = false ->
  exists snt rcv,
    sent (trace w') = sent (trace w) ++ snt
    /\ received (trace w') = received (trace w) ++ rcv
    /\ ((2 < List.length snt)%nat ->
        firstn 2 rcv = [RESPONSE_UPDATE_PREPARE_OK; RESPONSE_BIN_MD5_OK]).
Proof.
  intros H Hc. unfold prepare_and_upload in H.
  unfold bind at 1, sock_settimeout at 1 in H. rewrite Hc in H.
  set (w0 := emit (EvSettimeout 30) w) in H.
  assert (Hc0 : closed w0 = false) by exact Hc.
  assert (Hs0 : sent (trace w0) = sent (trace w)).
  { unfold w0. rewrite trace_emit, sent_app. apply app_nil_r. }
  assert (Hr0 : received (trace w0) = received (trace w)).
  { unfold w0. rewrite trace_emit, received_app. apply app_nil_r. }
  clearbody w0.
  assert (Hshort : forall snt rcv,
             sent (trace w') = sent (trace w) ++ snt ->
             received (trace w') = received (trace w) ++ rcv ->
             (List.length snt <= 2)%nat ->
             exists snt rcv,
               sent (trace w') = sent (trace w) ++ snt
               /\ received (trace w') = received (trace w) ++ rcv
               /\ ((2 < List.length snt)%nat ->
                   firstn 2 rcv = [RESPONSE_UPDATE_PREPARE_OK; RESPONSE_BIN_MD5_OK])).
  { intros snt rcv Hs Hr Hl. exists snt, rcv. repeat split; auto. lia. }
  (* the length *)
  apply bind_inv in H.
  destruct H as [([] & w1 & E1 & H) | [(e & E1 & ->) | (E1 & ->)]];
    destruct (send_check_step (PList (encode_size (len upload))) _ _ _ _ _
                (encode_size_bytes _) Hc0 E1)
      as (Hc1 & Hr1 & [(Hok & _ & Hs1) | ((m & Hm) & Hs1)]);
    try discriminate;
    try (apply (Hshort [] []); rewrite ?app_nil_r; [congruence | congruence | cbn; lia]).
  apply bind_inv in H.
  destruct H as [(d2 & w2 & E2 & H) | [(e & E2 & ->) | (E2 & ->)]];
    destruct (receive_exactly_step _ _ _ _ _ _ _ _ E2 Hc1 ltac:(lia)) as (Hs2 & rcv2 & Hr2 & Hres2);
    try (apply (Hshort [encode_size (len upload)] rcv2);
         [congruence | congruence | cbn; lia]).
  destruct (receive_code_ok _ _ _ _ _ _ E2 Hc1 eq_refl) as (Hc2 & _ & Hr2').
  (* the checksum *)
  apply bind_inv in H.
  destruct H as [([] & w3 & E3 & H) | [(e & E3 & ->) | (E3 & ->)]];
    destruct (send_check_step (PStr (Hashlib.hexdigest (Hashlib.new upload))) _
                (encode (Hashlib.hexdigest (Hashlib.new upload))) _ _ _ eq_refl Hc2 E3)
      as (Hc3 & Hr3 & [(Hok3 & _ & Hs3) | ((m3 & Hm3) & Hs3)]);
    try discriminate;
    try (apply (Hshort [encode_size (len upload)] [RESPONSE_UPDATE_PREPARE_OK]);
         [congruence | congruence | cbn; lia]).
  apply bind_inv in H.
  destruct H as [(d4 & w4 & E4 & H) | [(e & E4 & ->) | (E4 & ->)]];
    destruct (receive_exactly_step _ _ _ _ _ _ _ _ E4 Hc3 ltac:(lia)) as (Hs4 & rcv4 & Hr4 & Hres4);
    try (apply (Hshort [encode_size (len upload);
                        encode (Hashlib.hexdigest (Hashlib.new upload))]
                  ([RESPONSE_UPDATE_PREPARE_OK] ++ rcv4));
         [rewrite Hs4, Hs3, Hs2, Hs1, Hs0, <- app_assoc; reflexivity
         | rewrite Hr4, Hr3, Hr2', Hr1, Hr0, <- !app_assoc; reflexivity
         | cbn; lia]).
  destruct (receive_code_ok _ _ _ _ _ _ E4 Hc3 eq_refl) as (Hc4 & _ & Hr4').
  (* the transfer and what follows *)
  destruct (tame_transfer_and_finalize fuel version upload _ _ _ H) as [(evs & Ht) _].
  exists ([encode_size (len upload); encode (Hashlib.hexdigest (Hashlib.new upload))]
            ++ sent evs),
         ([RESPONSE_UPDATE_PREPARE_OK; RESPONSE_BIN_MD5_OK] ++ received evs).
  split; [| split; [| reflexivity]].
  - rewrite Ht, sent_app, Hs4, Hs3, Hs2, Hs1, Hs0, <- !app_assoc. reflexivity.
  - rewrite Ht, received_app, Hr4', Hr3, Hr2', Hr1, Hr0, <- !app_assoc. reflexivity.
Qed.

(** X15.  No byte of the firmware leaves before the device has accepted
    its length and its checksum.  In any run, finished or not, once more
    messages have been sent than the handshake, the length and the
    checksum make up, the two bytes the device sent after the handshake
    are 0x42 and 0x43. *)
Theorem no_firmware_before_acknowledgement (gz : list Z -> list Z) (fuel : nat)
    (password : string) (file_contents : list Z) (random_repr : string)
    (rx : list rx_item) (tx : list tx_item) (r : outcome unit) (w' : world)
    (s v f a : Z) (more : list Z) :
  perform_ota gz fuel password file_contents random_repr (connect rx tx) = (r, w') ->
  received (trace w') = s :: v :: f :: a :: more ->
  (size_index a + 2 < List.length (sent (trace w')))%nat ->
  firstn 2 (if a =? RESPONSE_REQUEST_AUTH then skipn 33 more else more)
  = [RESPONSE_UPDATE_PREPARE_OK; RESPONSE_BIN_MD5_OK].
Proof.
  intros H Hrcv Hlen.
  assert (Hsize : (2 <= size_index a)%nat).
  { unfold size_index. destruct (a =? RESPONSE_REQUEST_AUTH); lia. }
  destruct (perform_ota_handshake _ _ _ _ _ _ _ _ _ H)
    as [(_ & Hs & _) | [(_ & _ & Hs & _) | [(_ & _ & s0 & v0 & f0 & more0 & Hr0 & Hs)
       | (s0 & v0 & f0 & a0 & w_mid & _ & _ & Hc & Hrest & Hauth)]]].
  - lia.
  - rewrite Hs in Hlen. cbn in Hlen. lia.
  - rewrite Hr0 in Hrcv. inversion Hrcv; subst.
    change (size_index RESPONSE_REQUEST_AUTH) with 4%nat in Hlen.
    destruct Hs as [Hs | (nonce & _ & [Hs | Hs])]; rewrite Hs in Hlen; cbn in Hlen; lia.
  - destruct (prepare_and_upload_acks _ _ _ _ _ _ Hrest Hc) as (snt & rcv & Hs & Hr & Hacks).
    destruct Hauth as [(-> & Hrm & Hsm) | (-> & _ & raw & nonce & Hraw & _ & Hrm & Hsm)];
      rewrite Hrm in Hr; rewrite Hsm in Hs; rewrite Hr in Hrcv; rewrite Hs in Hlen;
      cbn [app] in Hrcv; inversion Hrcv; subst.
    + change (size_index RESPONSE_AUTH_OK) with 2%nat in Hlen.
      rewrite length_app in Hlen. cbn [List.length] in Hlen.
      change (RESPONSE_AUTH_OK =? RESPONSE_REQUEST_AUTH) with false. cbv iota.
      apply Hacks. lia.
    + change (size_index RESPONSE_REQUEST_AUTH) with 4%nat in Hlen.
      rewrite length_app in Hlen. cbn [List.length] in Hlen.
      change (RESPONSE_REQUEST_AUTH =? RESPONSE_REQUEST_AUTH) with true. cbv iota.
      replace 33%nat with (List.length (raw ++ [RESPONSE_AUTH_OK]))
        by (rewrite length_app; unfold len in Hraw; cbn [List.length]; lia).
      rewrite skipn_app, skipn_all, Nat.sub_diag. cbn [skipn app].
      apply Hacks. lia.
Qed.

(** Scenario A again: six messages sent, of which the fifth is the
    firmware. *)
Lemma no_firmware_before_acknowledgement_witness :
  firstn 2 (if RESPONSE_AUTH_OK =? RESPONSE_REQUEST_AUTH
            then skipn 33 [0x42; 0x43; 0x44; 0x45]
            else [0x42; 0x43; 0x44; 0x45])
  = [RESPONSE_UPDATE_PREPARE_OK; RESPONSE_BIN_MD5_OK].
Proof.
  apply (no_firmware_before_acknowledgement toy_gzip 2 EmptyString (repeat 7 100) "0.5"
           [Seg 0x00 [1]; Seg 0x40 []; Seg 0x41 [0x42]; Seg 0x43 []; Seg 0x44 [0x45]] []
           (fst (perform_ota toy_gzip 2 EmptyString (repeat 7 100) "0.5"
                   (connect [Seg 0x00 [1]; Seg 0x40 []; Seg 0x41 [0x42]; Seg 0x43 [];
                             Seg 0x44 [0x45]] [])))
           (snd (perform_ota toy_gzip 2 EmptyString (repeat 7 100) "0.5"
                   (connect [Seg 0x00 [1]; Seg 0x40 []; Seg 0x41 [0x42]; Seg 0x43 [];
                             Seg 0x44 [0x45]] [])))
           0 1 0x40 RESPONSE_AUTH_OK [0x42; 0x43; 0x44; 0x45]).
  - apply surjective_pairing.
  - vm_compute. reflexivity.
  - vm_compute. lia.
Defined.

(** ** What came before does not matter *)

Lemma with_history_emit (pre : list event) (e : event) (w : world) :
  emit e (with_history pre w) = with_history pre (emit e w).
Proof. unfold emit, with_history. cbn. rewrite app_assoc. reflexivity. Qed.

Lemma framed_ret {A : Type} (a : A) : framed (ret a).
Proof. intros pre w. reflexivity. Qed.

Lemma framed_raise {A : Type} (e : exn) : framed (@raise A e).
Proof. intros pre w. reflexivity. Qed.

Lemma framed_diverge {A : Type} : framed (@diverge A).
Proof. intros pre w. reflexivity. Qed.

Lemma framed_lift {A : Type} (o : outcome A) : framed (lift o).
Proof. intros pre w. reflexivity. Qed.

Lemma framed_bind {A B : Type} (m : M A) (k : A -> M B) :
  framed m -> (forall a, framed (k a)) -> framed (bind m k).
Proof.
  intros Hm Hk pre w. unfold bind. rewrite Hm.
  destruct (m w) as [[a | e |] w1]; cbn [fst snd]; [apply Hk | reflexivity | reflexivity].
Qed.

Lemma framed_try_except {A : Type} (m : M A) (handler : exn -> option (M A)) :
  framed m -> (forall e h, handler e = Some h -> framed h) -> framed (try_except m handler).
Proof.
  intros Hm Hh pre w. unfold try_except. rewrite Hm.
  destruct (m w) as [[a | e |] w1]; cbn [fst snd]; try reflexivity.
  destruct (handler e) as [h |] eqn:E; [apply (Hh _ _ E) | reflexivity].
Qed.

Lemma framed_except_OSError {A : Type} (f : string -> M A) :
  (forall err, framed (f err)) -> forall e h, except_OSError f e = Some h -> framed h.
Proof. intros Hf e h H. destruct e; inversion H; subst. apply Hf. Qed.

Lemma framed_except_OTAError {A : Type} (f : string -> M A) :
  (forall err, framed (f err)) -> forall e h, except_OTAError f e = Some h -> framed h.
Proof. intros Hf e h H. destruct e; inversion H; subst. apply Hf. Qed.

Lemma framed_emit {A : Type} (a : A) (ev : event) : framed (fun w => (Ok a, emit ev w)).
Proof. intros pre w. cbn [fst snd]. rewrite with_history_emit. reflexivity. Qed.

Lemma framed_sock_recv (n : Z) : framed (sock_recv n).
Proof.
  intros pre w. unfold sock_recv. cbn [closed rx tx trace with_history].
  destruct (closed w) eqn:Hc; [reflexivity |].
  destruct (n <? 0); [reflexivity |].
  destruct (rx w) as [| [b bs | err] rest] eqn:Hrx; cbn [fst snd];
    unfold emit, with_history; cbn [rx tx closed trace]; rewrite ?app_assoc, ?Hrx, ?Hc;
    reflexivity.
Qed.

Lemma framed_sock_sendall (data : list Z) : framed (sock_sendall data).
Proof.
  intros pre w. unfold sock_sendall. cbn [closed rx tx trace with_history].
  destruct (closed w) eqn:Hc; [reflexivity |].
  destruct (tx w) as [| [| err] rest] eqn:Htx; cbn [fst snd];
    unfold emit, with_history; cbn [rx tx closed trace]; rewrite ?app_assoc, ?Htx, ?Hc;
    reflexivity.
Qed.

Lemma framed_sock_close : framed sock_close.
Proof.
  intros pre w. unfold sock_close, emit, with_history. cbn. rewrite app_assoc. reflexivity.
Qed.

Lemma framed_sock_setsockopt (o : sockopt) : framed (sock_setsockopt o).
Proof.
  intros pre w. unfold sock_setsockopt. cbn [closed with_history].
  destruct (closed w); [reflexivity |]. cbn [fst snd]. rewrite with_history_emit. reflexivity.
Qed.

Lemma framed_sock_settimeout (secs : Z) : framed (sock_settimeout secs).
Proof.
  intros pre w. unfold sock_settimeout. cbn [closed with_history].
  destruct (closed w); [reflexivity |]. cbn [fst snd]. rewrite with_history_emit. reflexivity.
Qed.

Lemma framed_read_more (n : Z) (decode : bool) (describe : string -> string) (data : list Z) :
  framed (read_more n decode describe data).
Proof.
  apply framed_try_except.
  - apply framed_bind; [| intros; apply framed_ret].
    apply framed_bind; [apply framed_sock_recv |]. intros more. destruct decode; apply framed_ret.
  - apply framed_except_OSError. intros err. apply framed_raise.
Qed.

Lemma framed_receive_rest (fuel : nat) (amount : Z) (msg : string) (decode : bool) :
  forall data, framed (receive_rest fuel amount msg decode data).
Proof.
  induction fuel as [| fuel IH]; intros data; rewrite receive_rest_unfold;
    destruct (len data <? amount); try apply framed_ret; [apply framed_diverge |].
  apply framed_bind; [apply framed_read_more | exact IH].
Qed.

Lemma framed_receive_exactly (fuel : nat) (amount : Z) (msg : string) (expect : expect_arg)
    (decode : bool) :
  framed (receive_exactly fuel amount msg expect decode).
Proof.
  rewrite receive_exactly_unfold.
  apply framed_bind; [apply framed_read_more |]. intros data.
  apply framed_bind; [| intros; apply framed_receive_rest].
  apply framed_try_except; [apply framed_lift |].
  apply framed_except_OTAError. intros err.
  apply framed_bind; [apply framed_sock_close | intros; apply framed_raise].
Qed.

Lemma framed_send_check (data : payload) (msg : string) : framed (send_check data msg).
Proof.
  apply framed_try_except.
  - apply framed_bind; [apply framed_lift | intros; apply framed_sock_sendall].
  - apply framed_except_OSError. intros err. apply framed_raise.
Qed.

Create HintDb framed.
#[local] Hint Resolve framed_ret framed_raise framed_diverge framed_lift framed_emit
  framed_sock_close framed_sock_setsockopt framed_sock_settimeout framed_sock_sendall
  framed_receive_exactly framed_send_check : framed.

Ltac framed_step :=
  first
    [ solve [auto with framed]
    | match goal with
      | |- framed (bind _ _) => apply framed_bind; [| intros]
      end
    | match goal with
      | |- framed (if ?c then _ else _) => destruct c
      | |- framed (let '(_, _) := ?x in _) => destruct x
      | |- framed (ProgressBar.done _) => apply framed_emit
      | |- framed (time_sleep _) => apply framed_emit
      | |- framed (stderr_write _) => apply framed_emit
      | |- framed (ProgressBar.render _ _ _) => apply framed_emit
      end ].

Lemma framed_update (self : ProgressBar.t) (progress : PyNum.num) :
  framed (ProgressBar.update self progress).
Proof. unfold ProgressBar.update. repeat framed_step. Qed.

Lemma framed_send_chunk (rfuel : nat) (version : Z) (chunk : list Z) :
  framed (send_chunk rfuel version chunk).
Proof.
  apply framed_try_except.
  - repeat framed_step.
  - apply framed_except_OSError. intros err. repeat framed_step.
Qed.

Lemma framed_transfer_loop (rfuel : nat) (version : Z) (upload : list Z) (fuel : nat) :
  forall (offset : Z) (pb : ProgressBar.t),
    framed (transfer_loop rfuel fuel version upload offset pb).
Proof.
  induction fuel as [| fuel IH]; intros offset pb; [apply framed_diverge |].
  rewrite transfer_loop_unfold.
  destruct (slice upload offset (offset + UPLOAD_BLOCK_SIZE)); [apply framed_ret |].
  cbv zeta.
  apply framed_bind; [apply framed_send_chunk |]. intros _.
  apply framed_bind; [apply framed_lift |]. intros fraction.
  apply framed_bind; [apply framed_update |]. intros pb1. apply IH.
Qed.

(** The engine does not look at what happened on the socket before it
    was called. *)
Lemma framed_perform_ota (gz : list Z -> list Z) (fuel : nat) (password : string)
    (file_contents : list Z) (random_repr : string) :
  framed (perform_ota gz fuel password file_contents random_repr).
Proof.
  unfold perform_ota. cbv zeta. repeat framed_step; apply framed_transfer_loop.
Qed.

(** ** The orchestrator *)

Section OrchestratorFacts.

Variable gz : list Z -> list Z.
Variables (fuel : nat) (password : string) (file : firmware) (random_repr : string).

Lemma connect_loop_refused (sa : sockaddr) (err : string)
    (rest : list (sockaddr * connection)) (h : host) :
  connect_loop gz fuel password file random_repr ((sa, Refused err) :: rest) h
  = connect_loop gz fuel password file random_repr rest
      (log_error (MSG_CONNECT_FAILED sa err) (keep_socket refused_socket h)).
Proof. reflexivity. Qed.

Lemma connect_loop_accepted (sa : sockaddr) (rx : list rx_item) (tx : list tx_item)
    (rest : list (sockaddr * connection)) (h : host) :
  connect_loop gz fuel password file random_repr ((sa, Accepted rx tx) :: rest) h
  = session gz fuel password file random_repr rx tx h.
Proof. reflexivity. Qed.

(** Refused addresses are passed over, each leaving a closed socket and
    a line in the log. *)
Lemma connect_loop_skips (pre : list (sockaddr * connection)) :
  forallb is_refused pre = true ->
  forall (rest : list (sockaddr * connection)) (h : host),
    connect_loop gz fuel password file random_repr (pre ++ rest) h
    = connect_loop gz fuel password file random_repr rest
        (mkHost (logged h ++ map refusal pre)
                (made h ++ repeat refused_socket (List.length pre))).
Proof.
  induction pre as [| [sa [err | rx tx]] pre IH]; intros Hpre rest h.
  - cbn. rewrite !app_nil_r. destruct h; reflexivity.
  - cbn [app]. rewrite connect_loop_refused, (IH Hpre).
    cbn [logged made log_error keep_socket map refusal snd fst List.length repeat].
    rewrite <- !app_assoc. reflexivity.
  - discriminate Hpre.
Qed.

Lemma first_accepted (res : list (sockaddr * connection)) :
  forallb is_refused res = true
  \/ exists pre sa rx tx rest,
       res = pre ++ (sa, Accepted rx tx) :: rest /\ forallb is_refused pre = true.
Proof.
  induction res as [| [sa [err | rx tx]] res IH].
  - left. reflexivity.
  - destruct IH as [H | (pre & sa' & rx & tx & rest & -> & H)].
    + left. exact H.
    + right. exists ((sa, Refused err) :: pre), sa', rx, tx, rest. auto.
  - right. exists [], sa, rx, tx, res. auto.
Qed.

Lemma run_ota_impl_refused (remote_host : string) (res : list (sockaddr * connection)) :
  forallb is_refused res = true ->
  run_ota_impl_ gz fuel remote_host (Addresses res) password file random_repr
  = (Ok 1, log_error MSG_CONNECTION_FAILED (after_refusals res)).
Proof.
  intros H. unfold run_ota_impl_.
  rewrite <- (app_nil_r res) at 1. rewrite (connect_loop_skips res H). reflexivity.
Qed.

Lemma run_ota_impl_accepted (remote_host : string) (pre : list (sockaddr * connection))
    (sa : sockaddr) (rx : list rx_item) (tx : list tx_item)
    (rest : list (sockaddr * connection)) :
  forallb is_refused pre = true ->
  run_ota_impl_ gz fuel remote_host (Addresses (pre ++ (sa, Accepted rx tx) :: rest))
    password file random_repr
  = session gz fuel password file random_repr rx tx (after_refusals pre).
Proof.
  intros H. unfold run_ota_impl_.
  rewrite (connect_loop_skips pre H), connect_loop_accepted. reflexivity.
Qed.

(** A session never ends in an [OTAError]: the [except] clause turns it
    into exit status 1. *)
Lemma session_outcome (rx : list rx_item) (tx : list tx_item) (h : host) (m : string) :
  fst (session gz fuel password file random_repr rx tx h) <> Raise (OTAError m).
Proof.
  unfold session. destruct file as [err | data]; [discriminate |].
  destruct (perform_ota gz fuel password data random_repr (session_start rx tx))
    as [[[] | e |] sock]; try discriminate.
  destruct e; discriminate.
Qed.

Lemma run_ota_session (remote_host : string) (pre : list (sockaddr * connection))
    (sa : sockaddr) (rx : list rx_item) (tx : list tx_item)
    (rest : list (sockaddr * connection)) :
  forallb is_refused pre = true ->
  run_ota gz fuel remote_host (Addresses (pre ++ (sa, Accepted rx tx) :: rest))
    password file random_repr
  = session gz fuel password file random_repr rx tx (after_refusals pre).
Proof.
  intros H. unfold run_ota. rewrite (run_ota_impl_accepted _ _ _ _ _ _ H).
  pose proof (session_outcome rx tx (after_refusals pre)) as Hs.
  destruct (session gz fuel password file random_repr rx tx (after_refusals pre))
    as [[n | e |] h]; try reflexivity.
  destruct e; try reflexivity. exfalso. exact (Hs _ eq_refl).
Qed.

(** The three ways a run can go. *)
Lemma run_ota_cases (remote_host : string) (resolved : resolution) :
  let run := run_ota gz fuel remote_host resolved password file random_repr in
  (exists err,
      resolved = ResolveError err
      /\ run = (Ok 1, mkHost [MSG_RESOLVE remote_host; MSG_STATIC_IP; err] []))
  \/ (exists res,
         resolved = Addresses res /\ forallb is_refused res = true
         /\ run = (Ok 1, log_error MSG_CONNECTION_FAILED (after_refusals res)))
  \/ (exists pre sa rx tx rest,
         resolved = Addresses (pre ++ (sa, Accepted rx tx) :: rest)
         /\ forallb is_refused pre = true
         /\ run = session gz fuel password file random_repr rx tx (after_refusals pre)).
Proof.
  cbv zeta. destruct resolved as [err | res].
  - left. exists err. auto.
  - right. destruct (first_accepted res) as [H | (pre & sa & rx & tx & rest & -> & H)].
    + left. exists res. split; [reflexivity |]. split; [exact H |].
      unfold run_ota. rewrite (run_ota_impl_refused _ _ H). reflexivity.
    + right. exists pre, sa, rx, tx, rest. split; [reflexivity |]. split; [exact H |].
      apply run_ota_session. exact H.
Qed.

(** An address list splits in one way only at its first accepting
    address. *)
Lemma first_accepted_unique (pre pre' : list (sockaddr * connection))
    (sa sa' : sockaddr) (rx rx' : list rx_item) (tx tx' : list tx_item)
    (rest rest' : list (sockaddr * connection)) :
  pre ++ (sa, Accepted rx tx) :: rest = pre' ++ (sa', Accepted rx' tx') :: rest' ->
  forallb is_refused pre = true ->
  forallb is_refused pre' = true ->
  pre = pre' /\ rx = rx' /\ tx = tx'.
Proof.
  revert pre'. induction pre as [| a pre IH]; intros [| a' pre'] H Hp Hp'.
  - inversion H. auto.
  - inversion H; subst a'. discriminate Hp'.
  - inversion H; subst a. discriminate Hp.
  - inversion H; subst a'. cbn in Hp, Hp'.
    apply andb_prop in Hp. apply andb_prop in Hp'.
    destruct (IH pre' H2 (proj2 Hp) (proj2 Hp')) as (-> & -> & ->). auto.
Qed.

End OrchestratorFacts.

(** X16.  [run_ota] returns exit status 0 exactly when the connection is
    refused at every address before the first one that accepts it, the
    firmware file can be opened, and [perform_ota] returns on that
    connection. *)
Theorem run_ota_returns_0_iff (gz : list Z -> list Z) (fuel : nat) (remote_host : string)
    (resolved : resolution) (password : string) (file : firmware) (random_repr : string) :
  fst (run_ota gz fuel remote_host resolved password file random_repr) = Ok 0
  <-> exists pre sa rx tx rest data,
        resolved = Addresses (pre ++ (sa, Accepted rx tx) :: rest)
        /\ forallb is_refused pre = true
        /\ file = Contents data
        /\ fst (perform_ota gz fuel password data random_repr (session_start rx tx)) = Ok tt.
Proof.
  split.
  - intros H.
    destruct (run_ota_cases gz fuel password file random_repr remote_host resolved)
      as [(err & _ & Hrun) | [(res & _ & _ & Hrun)
         | (pre & sa & rx & tx & rest & Hres & Hpre & Hrun)]];
      rewrite Hrun in H; try discriminate H.
    unfold session in H. destruct file as [err | data] eqn:Hfile; [discriminate H |].
    exists pre, sa, rx, tx, rest, data. repeat split; auto.
    destruct (perform_ota gz fuel password data random_repr (session_start rx tx))
      as [[[] | e |] sock]; try discriminate H; [reflexivity |].
    destruct e; discriminate H.
  - intros (pre & sa & rx & tx & rest & data & -> & Hpre & Hfile & Hrun).
    rewrite (run_ota_session _ _ _ _ _ _ _ _ _ _ _ Hpre). unfold session. rewrite Hfile.
    destruct (perform_ota gz fuel password data random_repr (session_start rx tx))
      as [[[] | e |] sock]; try discriminate Hrun. reflexivity.
Qed.

(** X17.  Once an address has accepted the connection, the addresses
    after it play no part: the run is the same without them, whatever
    becomes of the upload.  There is no second attempt. *)
Theorem run_ota_tries_one_connection (gz : list Z -> list Z) (fuel : nat)
    (remote_host password : string) (file : firmware) (random_repr : string)
    (pre : list (sockaddr * connection)) (sa : sockaddr)
    (rx : list rx_item) (tx : list tx_item) (rest : list (sockaddr * connection)) :
  forallb is_refused pre = true ->
  run_ota gz fuel remote_host (Addresses (pre ++ (sa, Accepted rx tx) :: rest))
    password file random_repr
  = run_ota gz fuel remote_host (Addresses (pre ++ [(sa, Accepted rx tx)]))
      password file random_repr.
Proof.
  intros H. rewrite !(run_ota_session _ _ _ _ _ _ _ _ _ _ _ H). reflexivity.
Qed.

(** A device that refuses the magic bytes at the second address: the
    third address is not tried. *)
Lemma run_ota_tries_one_connection_witness :
  run_ota toy_gzip 2 "esp.local"
    (Addresses ([(mkSockaddr "fe80::1" 3232, Refused "No route to host")]
                ++ (mkSockaddr "192.168.1.7" 3232, Accepted [Seg RESPONSE_ERROR_MAGIC []] [])
                   :: [(mkSockaddr "192.168.1.8" 3232, Accepted [] [])]))
    EmptyString (Contents [7]) "0.5"
  = run_ota toy_gzip 2 "esp.local"
      (Addresses ([(mkSockaddr "fe80::1" 3232, Refused "No route to host")]
                  ++ [(mkSockaddr "192.168.1.7" 3232, Accepted [Seg RESPONSE_ERROR_MAGIC []] [])]))
      EmptyString (Contents [7]) "0.5".
Proof.
  apply (run_ota_tries_one_connection toy_gzip 2 "esp.local" EmptyString (Contents [7]) "0.5"
           [(mkSockaddr "fe80::1" 3232, Refused "No route to host")]).
  reflexivity.
Defined.

(** X18.  When the firmware file can be opened, every socket the run
    created is closed by the time it returns or raises, and there is at
    most one socket for each address. *)
Theorem run_ota_closes_every_socket (gz : list Z -> list Z) (fuel : nat)
    (remote_host : string) (resolved : resolution) (password : string) (data : list Z)
    (random_repr : string) :
  let run := run_ota gz fuel remote_host resolved password (Contents data) random_repr in
  fst run <> Diverge ->
  Forall (fun sock => closed sock = true) (made (snd run))
  /\ forall res, resolved = Addresses res ->
       (List.length (made (snd run)) <= List.length res)%nat.
Proof.
  intros run Hd. subst run.
  assert (Hrefused : forall n, Forall (fun sock => closed sock = true)
                                      (repeat refused_socket n)).
  { intros n. apply Forall_forall. intros sock Hin.
    apply repeat_spec in Hin. subst sock. reflexivity. }
  destruct (run_ota_cases gz fuel password (Contents data) random_repr remote_host resolved)
    as [(err & -> & Hrun) | [(res & -> & _ & Hrun)
       | (pre & sa & rx & tx & rest & -> & Hpre & Hrun)]];
    rewrite Hrun in *; cbn [fst snd made log_error after_refusals].
  - split; [constructor | discriminate].
  - split; [apply Hrefused |]. intros res' Hres. inversion Hres; subst res'.
    rewrite repeat_length. lia.
  - unfold session in *.
    assert (Hlen : forall sock res,
               Addresses (pre ++ (sa, Accepted rx tx) :: rest) = Addresses res ->
               (List.length (made (keep_socket sock (after_refusals pre))) <= List.length res)%nat).
    { intros sock res Hres. inversion Hres; subst res.
      cbn [made keep_socket after_refusals].
      rewrite !length_app, repeat_length. cbn [List.length]. lia. }
    destruct (perform_ota gz fuel password data random_repr (session_start rx tx))
      as [[[] | e |] sock]; cbn [fst snd] in *.
    + split; [| apply Hlen]. cbn [made keep_socket after_refusals].
      apply Forall_app. split; [apply Hrefused |]. constructor; [reflexivity | constructor].
    + destruct e; cbn [fst snd] in *;
        (split; [| apply Hlen]); cbn [made keep_socket log_error after_refusals];
        apply Forall_app; (split; [apply Hrefused |]);
        (constructor; [reflexivity | constructor]).
    + contradiction.
Qed.

(** The connection is closed too when the device goes away and the
    engine raises [IndexError]. *)
Lemma run_ota_closes_every_socket_witness :
  let run :=
    run_ota toy_gzip 2 "esp.local"
      (Addresses [(mkSockaddr "fe80::1" 3232, Refused "No route to host");
                  (mkSockaddr "192.168.1.7" 3232, Accepted [Seg 0 [1]] [])])
      EmptyString (Contents [7]) "0.5" in
  fst run = Raise IndexError
  /\ Forall (fun sock => closed sock = true) (made (snd run))
  /\ List.length (made (snd run)) = 2%nat.
Proof.
  cbv zeta. split; [vm_compute; reflexivity |]. split; [| vm_compute; reflexivity].
  apply (run_ota_closes_every_socket toy_gzip 2 "esp.local"
           (Addresses [(mkSockaddr "fe80::1" 3232, Refused "No route to host");
                       (mkSockaddr "192.168.1.7" 3232, Accepted [Seg 0 [1]] [])])
           EmptyString [7] "0.5").
  vm_compute. discriminate.
Defined.

(** X19.  When the firmware file cannot be opened, the [OSError] of
    [open] leaves [run_ota], and the connection that had just been made
    stays open: nothing was sent or read on it, and nothing closes it. *)
Theorem run_ota_unreadable_file_leaves_connection_open (gz : list Z -> list Z) (fuel : nat)
    (remote_host password random_repr err : string)
    (pre : list (sockaddr * connection)) (sa : sockaddr)
    (rx : list rx_item) (tx : list tx_item) (rest : list (sockaddr * connection)) :
  forallb is_refused pre = true ->
  exists sock,
    run_ota gz fuel remote_host (Addresses (pre ++ (sa, Accepted rx tx) :: rest))
      password (Unreadable err) random_repr
    = (Raise (OSError err),
       mkHost (map refusal pre) (repeat refused_socket (List.length pre) ++ [sock]))
    /\ closed sock = false
    /\ trace sock = [EvSettimeout 10].
Proof.
  intros H. exists (session_start rx tx).
  rewrite (run_ota_session _ _ _ _ _ _ _ _ _ _ _ H). auto.
Qed.

Lemma run_ota_unreadable_file_leaves_connection_open_witness :
  exists sock,
    run_ota toy_gzip 2 "esp.local"
      (Addresses ([] ++ (mkSockaddr "192.168.1.7" 3232, Accepted [] []) :: []))
      "secret" (Unreadable "[Errno 2] No such file or directory: 'firmware.bin'") "0.5"
    = (Raise (OSError "[Errno 2] No such file or directory: 'firmware.bin'"),
       mkHost (map refusal []) (repeat refused_socket (List.length (@nil (sockaddr * connection))) ++ [sock]))
    /\ closed sock = false
    /\ trace sock = [EvSettimeout 10].
Proof.
  apply (run_ota_unreadable_file_leaves_connection_open toy_gzip 2 "esp.local" "secret" "0.5"
           "[Errno 2] No such file or directory: 'firmware.bin'" []
           (mkSockaddr "192.168.1.7" 3232) [] [] []).
  reflexivity.
Defined.

(** X20.  [run_ota] never raises [OTAError], and an integer it returns
    is 0 or 1.  Whenever it returns 1 the last line logged gives the
    reason: the resolution error, or [Connection failed.] when no address
    accepted the connection, or the message of the [OTAError] that
    [perform_ota] raised. *)
Theorem run_ota_reports_failures (gz : list Z -> list Z) (fuel : nat) (remote_host : string)
    (resolved : resolution) (password : string) (file : firmware) (random_repr : string) :
  let run := run_ota gz fuel remote_host resolved password file random_repr in
  (forall m, fst run <> Raise (OTAError m))
  /\ (forall n, fst run = Ok n -> n = 0 \/ n = 1)
  /\ (fst run = Ok 1 ->
      exists reason,
        last_opt (logged (snd run)) = Some reason
        /\ (resolved = ResolveError reason
            \/ (reason = MSG_CONNECTION_FAILED
                /\ exists res, resolved = Addresses res /\ forallb is_refused res = true)
            \/ exists pre sa rx tx rest data,
                 resolved = Addresses (pre ++ (sa, Accepted rx tx) :: rest)
                 /\ forallb is_refused pre = true
                 /\ file = Contents data
                 /\ fst (perform_ota gz fuel password data random_repr (session_start rx tx))
                    = Raise (OTAError reason))).
Proof.
  cbv zeta.
  destruct (run_ota_cases gz fuel password file random_repr remote_host resolved)
    as [(err & -> & Hrun) | [(res & -> & Hres & Hrun)
       | (pre & sa & rx & tx & rest & -> & Hpre & Hrun)]];
    rewrite Hrun; cbn [fst snd].
  - split; [discriminate |]. split; [intros n Hn; inversion Hn; auto |].
    intros _. exists err. auto.
  - split; [discriminate |]. split; [intros n Hn; inversion Hn; auto |].
    intros _. exists MSG_CONNECTION_FAILED. split.
    + cbn [logged log_error]. apply last_opt_snoc.
    + right. left. eauto.
  - split; [apply session_outcome |].
    unfold session. destruct file as [err | data]; cbn [fst snd].
    { split; discriminate. }
    destruct (perform_ota gz fuel password data random_repr (session_start rx tx))
      as [[[] | e |] sock] eqn:E; cbn [fst snd].
    + split; [intros n Hn; inversion Hn; auto | discriminate].
    + destruct e; cbn [fst snd]; (split; [intros n Hn; inversion Hn; auto |]);
        try discriminate.
      intros _. exists msg. split.
      * cbn [logged keep_socket log_error]. apply last_opt_snoc.
      * right. right. exists pre, sa, rx, tx, rest, data. rewrite E. auto.
    + split; discriminate.
Qed.

Lemma perform_ota_session_start (gz : list Z -> list Z) (fuel : nat) (password : string)
    (file_contents : list Z) (random_repr : string) (rx : list rx_item) (tx : list tx_item) :
  perform_ota gz fuel password file_contents random_repr (session_start rx tx)
  = (fst (perform_ota gz fuel password file_contents random_repr (connect rx tx)),
     with_history [EvSettimeout 10]
       (snd (perform_ota gz fuel password file_contents random_repr (connect rx tx)))).
Proof.
  change (session_start rx tx) with (with_history [EvSettimeout 10] (connect rx tx)).
  apply framed_perform_ota.
Qed.

(** X21.  When [run_ota] returns exit status 0 the firmware has gone out
    over the last socket it made, and over no other: on that socket the
    messages sent are those of a complete upload of the file, or of the
    compressed file when the device answered the features with 0x46, and
    the socket was closed after the last of them. *)
Theorem run_ota_success_delivers_firmware (gz : list Z -> list Z) (fuel : nat)
    (remote_host : string) (resolved : resolution) (password : string) (file : firmware)
    (random_repr : string) :
  let run := run_ota gz fuel remote_host resolved password file random_repr in
  fst run = Ok 0 ->
  exists data sock f auth_messages,
    file = Contents data
    /\ last_opt (made (snd run)) = Some sock
    /\ Forall (fun other => sent (trace other) = []) (removelast (made (snd run)))
    /\ closed sock = true
    /\ last_opt (trace sock) = Some EvClose
    /\ nth_error (received (trace sock)) 2 = Some f
    /\ let upload_contents :=
         if f =? RESPONSE_SUPPORTS_COMPRESSION then gz data else data in
       sent (trace sock)
       = [MAGIC_BYTES; [FEATURE_SUPPORTS_COMPRESSION]] ++ auth_messages
           ++ [encode_size (len upload_contents);
               encode (Hashlib.hexdigest (Hashlib.new upload_contents))]
           ++ chunks upload_contents ++ [[RESPONSE_OK]].
Proof.
  cbv zeta. intros H.
  destruct (run_ota_cases gz fuel password file random_repr remote_host resolved)
    as [(err & _ & Hrun) | [(res & _ & _ & Hrun)
       | (pre & sa & rx0 & tx0 & rest & _ & _ & Hrun)]];
    rewrite Hrun in *; try discriminate H.
  unfold session in *. destruct file as [err | data]; [discriminate H |].
  rewrite perform_ota_session_start in *.
  destruct (perform_ota gz fuel password data random_repr (connect rx0 tx0))
    as [[[] | e |] w0] eqn:E; cbn [fst snd] in *; try discriminate H;
    [| destruct e; discriminate H].
  destruct (perform_ota_success _ _ _ _ _ _ _ _ E)
    as (s & v & f & a & auth_messages & Hr & _ & _ & _ & _ & Hs).
  exists data, (snd (sock_close (with_history [EvSettimeout 10] w0))), f, auth_messages.
  cbn [made keep_socket after_refusals snd sock_close].
  split; [reflexivity |]. split; [apply last_opt_snoc |].
  split.
  { rewrite removelast_last. apply Forall_forall. intros other Hin.
    apply repeat_spec in Hin. subst other. reflexivity. }
  split; [reflexivity |].
  assert (Ht : trace (emit EvClose
                        (mkWorld (rx (with_history [EvSettimeout 10] w0))
                                 (tx (with_history [EvSettimeout 10] w0)) true
                                 (trace (with_history [EvSettimeout 10] w0))))
               = ([EvSettimeout 10] ++ trace w0) ++ [EvClose]) by reflexivity.
  rewrite Ht. split; [apply last_opt_snoc |].
  rewrite !received_app, !sent_app. cbn [received sent app]. rewrite !app_nil_r.
  split; [| exact Hs].
  destruct (received (trace w0)) as [| ? [| ? [| ? [| ? ?]]]]; inversion Hr. reflexivity.
Qed.

Lemma run_ota_success_delivers_firmware_witness :
  let run :=
    run_ota toy_gzip 2 "esp.local"
      (Addresses [(mkSockaddr "fe80::1" 3232, Refused "No route to host");
                  (mkSockaddr "192.168.1.7" 3232,
                   Accepted [Seg 0x00 [1]; Seg 0x46 []; Seg 0x41 [0x42]; Seg 0x43 [];
                             Seg 0x44 [0x45]] [])])
      EmptyString (Contents (repeat 7 100)) "0.5" in
  exists data sock f auth_messages,
    Contents (repeat 7 100) = Contents data
    /\ last_opt (made (snd run)) = Some sock
    /\ Forall (fun other => sent (trace other) = []) (removelast (made (snd run)))
    /\ closed sock = true
    /\ last_opt (trace sock) = Some EvClose
    /\ nth_error (received (trace sock)) 2 = Some f
    /\ let upload_contents :=
         if f =? RESPONSE_SUPPORTS_COMPRESSION then toy_gzip data else data in
       sent (trace sock)
       = [MAGIC_BYTES; [FEATURE_SUPPORTS_COMPRESSION]] ++ auth_messages
           ++ [encode_size (len upload_contents);
               encode (Hashlib.hexdigest (Hashlib.new upload_contents))]
           ++ chunks upload_contents ++ [[RESPONSE_OK]].
Proof.
  apply (run_ota_success_delivers_firmware toy_gzip 2 "esp.local"
           (Addresses [(mkSockaddr "fe80::1" 3232, Refused "No route to host");
                       (mkSockaddr "192.168.1.7" 3232,
                        Accepted [Seg 0x00 [1]; Seg 0x46 []; Seg 0x41 [0x42]; Seg 0x43 [];
                                  Seg 0x44 [0x45]] [])])
           EmptyString (Contents (repeat 7 100)) "0.5").
  vm_compute. reflexivity.
Defined.


(** ** The bar during an upload *)

Lemma quiet_pure {A : Type} (o : outcome A) : quiet (fun w => (o, w)).
Proof. intros w r w' H. inversion H; subst. exists []. rewrite app_nil_r. auto. Qed.

Lemma quiet_bind {A B : Type} (m : M A) (k : A -> M B) :
  quiet m -> (forall a, quiet (k a)) -> quiet (bind m k).
Proof.
  intros Hm Hk w r w' H. apply bind_inv in H.
  destruct H as [(a & w1 & E & H) | [(e & E & ->) | (E & ->)]];
    try exact (Hm _ _ _ E).
  destruct (Hm _ _ _ E) as (evs1 & Ht1 & Hr1). destruct (Hk a _ _ _ H) as (evs2 & Ht2 & Hr2).
  exists (evs1 ++ evs2). rewrite Ht2, Ht1, <- app_assoc, renders_app, Hr1, Hr2. auto.
Qed.

Lemma quiet_try_except {A : Type} (m : M A) (handler : exn -> option (M A)) :
  quiet m -> (forall e h, handler e = Some h -> quiet h) -> quiet (try_except m handler).
Proof.
  intros Hm Hh w r w' H. unfold try_except in H.
  destruct (m w) as [[a | e |] w1] eqn:E;
    try (inversion H; subst; exact (Hm _ _ _ E)).
  destruct (handler e) as [h |] eqn:Eh; [| inversion H; subst; exact (Hm _ _ _ E)].
  destruct (Hm _ _ _ E) as (evs1 & Ht1 & Hr1).
  destruct (Hh _ _ Eh _ _ _ H) as (evs2 & Ht2 & Hr2).
  exists (evs1 ++ evs2). rewrite Ht2, Ht1, <- app_assoc, renders_app, Hr1, Hr2. auto.
Qed.

Lemma quiet_except_OSError {A : Type} (f : string -> M A) :
  (forall err, quiet (f err)) -> forall e h, except_OSError f e = Some h -> quiet h.
Proof. intros Hf e h H. destruct e; inversion H; subst. apply Hf. Qed.

Lemma quiet_except_OTAError {A : Type} (f : string -> M A) :
  (forall err, quiet (f err)) -> forall e h, except_OTAError f e = Some h -> quiet h.
Proof. intros Hf e h H. destruct e; inversion H; subst. apply Hf. Qed.

Lemma quiet_sock_recv (n : Z) : quiet (sock_recv n).
Proof.
  intros w r w' H. unfold sock_recv in H.
  destruct (closed w); [inversion H; exists []; rewrite app_nil_r; auto |].
  destruct (n <? 0); [inversion H; exists []; rewrite app_nil_r; auto |].
  destruct (rx w) as [| [b bs | err] rest]; inversion H; subst; eexists; split;
    try apply trace_emit; reflexivity.
Qed.

Lemma quiet_sock_sendall (data : list Z) : quiet (sock_sendall data).
Proof.
  intros w r w' H. unfold sock_sendall in H.
  destruct (closed w); [inversion H; exists []; rewrite app_nil_r; auto |].
  destruct (tx w) as [| [| err] rest]; inversion H; subst; eexists; split;
    try apply trace_emit; reflexivity.
Qed.

Lemma quiet_sock_close : quiet sock_close.
Proof. intros w r w' H. inversion H; subst. exists [EvClose]. auto. Qed.

Lemma quiet_sock_setsockopt (o : sockopt) : quiet (sock_setsockopt o).
Proof.
  intros w r w' H. unfold sock_setsockopt in H.
  destruct (closed w); inversion H; subst;
    [exists []; rewrite app_nil_r; auto | exists [EvSetsockopt o]; auto].
Qed.

Lemma quiet_sock_settimeout (secs : Z) : quiet (sock_settimeout secs).
Proof.
  intros w r w' H. unfold sock_settimeout in H.
  destruct (closed w); inversion H; subst;
    [exists []; rewrite app_nil_r; auto | exists [EvSettimeout secs]; auto].
Qed.

Lemma quiet_stderr_write (text : string) : quiet (stderr_write text).
Proof. intros w r w' H. inversion H; subst. exists [EvStderr text]. auto. Qed.

Lemma quiet_time_sleep (secs : Z) : quiet (time_sleep secs).
Proof. intros w r w' H. inversion H; subst. exists [EvSleep secs]. auto. Qed.

Lemma quiet_read_more (n : Z) (decode : bool) (describe : string -> string) (data : list Z) :
  quiet (read_more n decode describe data).
Proof.
  apply quiet_try_except.
  - apply quiet_bind; [| intros; apply quiet_pure].
    apply quiet_bind; [apply quiet_sock_recv |]. intros more. destruct decode; apply quiet_pure.
  - apply quiet_except_OSError. intros err. apply quiet_pure.
Qed.

Lemma quiet_receive_rest (fuel : nat) (amount : Z) (msg : string) (decode : bool) :
  forall data, quiet (receive_rest fuel amount msg decode data).
Proof.
  induction fuel as [| fuel IH]; intros data; rewrite receive_rest_unfold;
    destruct (len data <? amount); try apply quiet_pure.
  apply quiet_bind; [apply quiet_read_more | exact IH].
Qed.

Lemma quiet_receive_exactly (fuel : nat) (amount : Z) (msg : string) (expect : expect_arg)
    (decode : bool) :
  quiet (receive_exactly fuel amount msg expect decode).
Proof.
  rewrite receive_exactly_unfold.
  apply quiet_bind; [apply quiet_read_more |]. intros data.
  apply quiet_bind; [| intros; apply quiet_receive_rest].
  apply quiet_try_except; [apply quiet_pure |].
  apply quiet_except_OTAError. intros err.
  apply quiet_bind; [apply quiet_sock_close | intros; apply quiet_pure].
Qed.

Lemma quiet_send_check (data : payload) (msg : string) : quiet (send_check data msg).
Proof.
  apply quiet_try_except.
  - apply quiet_bind; [apply quiet_pure | intros; apply quiet_sock_sendall].
  - apply quiet_except_OSError. intros err. apply quiet_pure.
Qed.

Lemma quiet_send_chunk (rfuel : nat) (version : Z) (chunk : list Z) :
  quiet (send_chunk rfuel version chunk).
Proof.
  apply quiet_try_except.
  - apply quiet_bind; [apply quiet_sock_sendall |]. intros _.
    destruct (OTA_VERSION_2_0 <=? version); [| apply quiet_pure].
    apply quiet_bind; [apply quiet_receive_exactly | intros; apply quiet_pure].
  - apply quiet_except_OSError. intros err.
    apply quiet_bind; [apply quiet_stderr_write | intros; apply quiet_pure].
Qed.

Create HintDb quiet.
#[local] Hint Resolve quiet_pure quiet_sock_close quiet_sock_setsockopt quiet_sock_settimeout
  quiet_stderr_write quiet_time_sleep quiet_receive_exactly quiet_send_check : quiet.

Ltac quiet_step :=
  first
    [ solve [auto with quiet]
    | match goal with
      | |- quiet (bind _ _) => apply quiet_bind; [| intros]
      end
    | match goal with
      | |- quiet (if ?c then _ else _) => destruct c
      | |- quiet (lift _) => apply quiet_pure
      | |- quiet (raise _) => apply quiet_pure
      | |- quiet (ret _) => apply quiet_pure
      | |- quiet (ProgressBar.done _) => apply quiet_stderr_write
      end ].

Lemma quiet_negotiate (fuel : nat) : quiet (negotiate fuel).
Proof. unfold negotiate. repeat quiet_step. Qed.

Lemma quiet_authenticate (fuel : nat) (password random_repr : string) (auth : Z) :
  quiet (authenticate fuel password random_repr auth).
Proof. unfold authenticate. repeat quiet_step. Qed.

Lemma quiet_finalize (fuel : nat) : quiet (finalize fuel).
Proof. unfold finalize. repeat quiet_step. Qed.

(** The Transfer loop draws the bar at most once for each chunk sent, and
    never with the percentage the bar showed last. *)
Lemma transfer_loop_renders (rfuel : nat) (version : Z) (upload : list Z) (fuel : nat) :
  forall (offset : Z) (pb : ProgressBar.t) (w : world) (r : outcome ProgressBar.t) (w' : world),
    transfer_loop rfuel fuel version upload offset pb w = (r, w') ->
    exists evs,
      trace w' = trace w ++ evs
      /\ (List.length (renders evs) <= List.length (sent evs))%nat
      /\ (no_stutter (renders (trace w)) = true ->
          ProgressBar.last_progress pb = last_opt (renders (trace w)) ->
          no_stutter (renders (trace w')) = true).
Proof.
  induction fuel as [| fuel IH]; intros offset pb w r w' H.
  - inversion H; subst. exists []. rewrite app_nil_r. cbn. auto.
  - rewrite transfer_loop_unfold in H.
    destruct (slice upload offset (offset + UPLOAD_BLOCK_SIZE)) as [| c0 crest];
      [inversion H; subst; exists []; rewrite app_nil_r; cbn; auto |].
    cbv zeta in H. set (chunk := c0 :: crest) in *.
    apply bind_inv in H.
    destruct H as [([] & w1 & E1 & H) | [(e & E1 & ->) | (E1 & ->)]];
      destruct (quiet_send_chunk _ _ _ _ _ _ E1) as (evs1 & Ht1 & Hq1);
      try (exists evs1; split; [exact Ht1 |]; split;
           [rewrite Hq1; cbn; lia
           | intros Hns _; rewrite Ht1, renders_app, Hq1, app_nil_r; exact Hns]).
    assert (Hr1 : renders (trace w1) = renders (trace w))
      by (rewrite Ht1, renders_app, Hq1; apply app_nil_r).
    assert (Hs1 : sent evs1 = [chunk]).
    { destruct (send_chunk_spec _ _ _ _ _ _ E1) as (evs & Ht & _ & _ & Hok & _).
      rewrite Ht1 in Ht. apply app_inv_head in Ht. subst evs.
      rewrite <- sent_sockets, (Hok eq_refl). apply sent_expected_events. }
    apply bind_inv in H.
    destruct H as [(fraction & w1' & E & H) | [(e & E & ->) | (E & ->)]];
      unfold lift in E; inversion E; subst;
      try (exists evs1; split; [exact Ht1 |]; split;
           [rewrite Hq1; cbn; lia | intros Hns _; rewrite Hr1; exact Hns]).
    apply bind_inv in H.
    destruct (update_cases pb fraction w1')
      as [(Hsame & Hres) | (block & p & status & Hrun & _ & Hnew)].
    + (* nothing drawn *)
      destruct H as [(pb1 & w2 & E2 & H) | [(e & E2 & ->) | (E2 & ->)]];
        rewrite E2 in Hsame, Hres; cbn [fst snd] in Hsame, Hres; subst w2 || subst w';
        try (exists evs1; split; [exact Ht1 |]; split;
             [rewrite Hq1; cbn; lia | intros Hns _; rewrite Hr1; exact Hns]).
      assert (pb1 = pb).
      { destruct Hres as [(Hok & _) | (e & He)]; [inversion Hok; auto | discriminate He]. }
      subst pb1.
      destruct (IH _ _ _ _ _ H) as (evs3 & Ht3 & Hl3 & Hns3).
      exists (evs1 ++ evs3).
      split; [rewrite Ht3, Ht1, <- app_assoc; reflexivity |]. split.
      * rewrite renders_app, sent_app, !length_app, Hq1, Hs1. cbn [List.length]. lia.
      * intros Hns Hlast. apply Hns3; congruence.
    + (* one render *)
      rewrite Hrun in H.
      destruct H as [(pb1 & w2 & E2 & H) | [(e & E2 & He) | (E2 & He)]];
        try discriminate He; try discriminate E2.
      inversion E2; subst pb1 w2. clear E2.
      destruct (IH _ _ _ _ _ H) as (evs3 & Ht3 & Hl3 & Hns3).
      exists (evs1 ++ [EvProgress block p status] ++ evs3).
      split; [rewrite Ht3, trace_emit, Ht1, <- !app_assoc; reflexivity |]. split.
      * rewrite !renders_app, !sent_app, !length_app, Hq1, Hs1.
        cbn [List.length renders sent]. lia.
      * intros Hns Hlast. apply Hns3.
        -- rewrite trace_emit, renders_app. cbn [renders]. rewrite Hr1.
           apply no_stutter_snoc; [exact Hns |]. rewrite <- Hlast. exact Hnew.
        -- rewrite trace_emit, renders_app. cbn [renders ProgressBar.last_progress].
           symmetry. apply last_opt_snoc.
Qed.

Lemma quiet_keeps_renders {A : Type} (m : M A) (w : world) (r : outcome A) (w' : world) :
  quiet m -> m w = (r, w') -> renders (trace w') = renders (trace w).
Proof.
  intros Hq H. destruct (Hq _ _ _ H) as (evs & Ht & Hr).
  rewrite Ht, renders_app, Hr. apply app_nil_r.
Qed.

Lemma tidy_quiet {A : Type} (m : M A) : quiet m -> tidy m.
Proof.
  intros Hq w r w' H Hw. rewrite (quiet_keeps_renders m w r w' Hq H), Hw. reflexivity.
Qed.

Lemma tidy_after_quiet {A B : Type} (m : M A) (k : A -> M B) :
  quiet m -> (forall a, tidy (k a)) -> tidy (bind m k).
Proof.
  intros Hm Hk w r w' H Hw. apply bind_inv in H.
  destruct H as [(a & w1 & E & H) | [(e & E & ->) | (E & ->)]];
    try (rewrite (quiet_keeps_renders m _ _ _ Hm E), Hw; reflexivity).
  apply (Hk a _ _ _ H). rewrite (quiet_keeps_renders m _ _ _ Hm E). exact Hw.
Qed.

Lemma tidy_before_quiet {A B : Type} (m : M A) (k : A -> M B) :
  tidy m -> (forall a, quiet (k a)) -> tidy (bind m k).
Proof.
  intros Hm Hk w r w' H Hw. apply bind_inv in H.
  destruct H as [(a & w1 & E & H) | [(e & E & ->) | (E & ->)]];
    try exact (Hm _ _ _ E Hw).
  rewrite (quiet_keeps_renders (k a) _ _ _ (Hk a) H). exact (Hm _ _ _ E Hw).
Qed.

Lemma tidy_transfer_loop (rfuel fuel : nat) (version : Z) (upload : list Z) :
  tidy (transfer_loop rfuel fuel version upload 0 ProgressBar.init).
Proof.
  intros w r w' H Hw.
  destruct (transfer_loop_renders _ _ _ _ _ _ _ _ _ H) as (evs & _ & _ & Hns).
  apply Hns; rewrite Hw; reflexivity.
Qed.

Lemma tidy_perform_ota (gz : list Z -> list Z) (fuel : nat) (password : string)
    (file_contents : list Z) (random_repr : string) :
  tidy (perform_ota gz fuel password file_contents random_repr).
Proof.
  intros w r w' H. rewrite perform_ota_negotiate in H. revert w r w' H.
  apply tidy_after_quiet; [apply quiet_negotiate |]. intros [[version features] auth].
  unfold upload_after.
  apply tidy_after_quiet; [apply quiet_authenticate |]. intros _.
  unfold prepare_and_upload, transfer_and_finalize.
  repeat (apply tidy_after_quiet; [solve [auto with quiet] | intros _]).
  apply tidy_before_quiet; [apply tidy_transfer_loop |]. intros pb.
  apply quiet_bind; [apply quiet_stderr_write | intros; apply quiet_finalize].
Qed.

(** X22.  Over a whole run of the engine, however it ends, no two
    renders of the bar in a row show the same percentage; and the Transfer
    loop draws the bar at most once for each chunk that went out. *)
Theorem upload_progress_renders (gz : list Z -> list Z) (fuel : nat) (password : string)
    (file_contents : list Z) (random_repr : string) (rx : list rx_item) (tx : list tx_item) :
  no_stutter
    (renders (trace (snd (perform_ota gz fuel password file_contents random_repr
                            (connect rx tx)))))
  = true
  /\ (forall rfuel version upload offset pb w,
         let evs :=
           events_since w (snd (transfer_loop rfuel fuel version upload offset pb w)) in
         (List.length (renders evs) <= List.length (sent evs))%nat).
Proof.
  split.
  - destruct (perform_ota gz fuel password file_contents random_repr (connect rx tx))
      as [r w'] eqn:E.
    exact (tidy_perform_ota gz fuel password file_contents random_repr _ _ _ E eq_refl).
  - intros rfuel version upload offset pb w. cbv zeta.
    destruct (transfer_loop rfuel fuel version upload offset pb w) as [r w'] eqn:E.
    destruct (transfer_loop_renders _ _ _ _ _ _ _ _ _ E) as (evs & Ht & Hl & _).
    cbn [snd]. rewrite (events_since_app _ _ _ Ht). exact Hl.
Qed.

(** ** Closing the connection, in the engine *)

(** The events listed contain no transport error. *)
Ltac no_transport_error :=
  let ev := fresh "ev" in
  let Hin := fresh "Hin" in
  let He := fresh "He" in
  intros ev Hin He; cbn [In app] in Hin;
  repeat (destruct Hin as [<- | Hin]; [discriminate He |]);
  contradiction.

Lemma transport_error_is_socket (ev : event) :
  is_transport_error ev = true -> is_socket ev = true.
Proof. destruct ev; intros H; try discriminate H; reflexivity. Qed.

Lemma error_reported_quiet {A : Type} (evs : list event) (r : outcome A) (c : bool) :
  sockets evs = [] -> error_reported evs r c.
Proof.
  intros H ev Hin He. exfalso.
  assert (Hs : In ev (sockets evs))
    by (apply filter_In; split; [exact Hin | apply transport_error_is_socket; exact He]).
  rewrite H in Hs. exact Hs.
Qed.

(** After a step that returned, what is reported is what the next step
    reports. *)
Lemma error_reported_app {A B : Type} (evs1 evs2 : list event) (a : A) (r : outcome B)
    (c1 c2 : bool) :
  error_reported evs1 (Ok a) c1 -> error_reported evs2 r c2 ->
  error_reported (evs1 ++ evs2) r c2.
Proof.
  intros H1 H2 ev Hin He. apply in_app_or in Hin. destruct Hin as [Hin | Hin].
  - destruct (H1 _ Hin He) as (_ & msg & Hm). discriminate Hm.
  - exact (H2 _ Hin He).
Qed.

Section Discipline.

Variable reads : list (string * expect_arg).

Lemma closed_on_refusal_app {A : Type} (evs1 evs2 : list event) (r : outcome A) :
  closed_on_refusal reads evs2 r -> closed_on_refusal reads (evs1 ++ evs2) r.
Proof.
  intros (pre & b & msg & expect & diagnostic & -> & Hin & Hchk & Hr).
  exists (evs1 ++ pre), b, msg, expect, diagnostic. rewrite <- app_assoc. auto.
Qed.

Lemma closed_on_refusal_is_failure {A : Type} (evs : list event) (a : A) :
  ~ closed_on_refusal reads evs (Ok a).
Proof. intros (pre & b & msg & expect & diagnostic & _ & _ & _ & H). discriminate H. Qed.

Lemma disciplined_bind {A B : Type} (m : M A) (k : A -> M B) :
  disciplined reads m -> (forall a, disciplined reads (k a)) -> disciplined reads (bind m k).
Proof.
  intros Hm Hk w r w' H Hc. apply bind_inv in H.
  destruct H as [(a & w1 & E & H) | [(e & E & ->) | (E & ->)]];
    destruct (Hm _ _ _ E Hc) as (evs1 & Ht1 & Hcl1 & Her1).
  - assert (Hc1 : closed w1 = false).
    { destruct (closed w1); [| reflexivity].
      exfalso. exact (closed_on_refusal_is_failure _ _ (Hcl1 eq_refl)). }
    destruct (Hk a _ _ _ H Hc1) as (evs2 & Ht2 & Hcl2 & Her2).
    exists (evs1 ++ evs2). rewrite Ht2, Ht1, <- app_assoc.
    split; [reflexivity |]. split.
    + intros Hcl. apply closed_on_refusal_app. auto.
    + exact (error_reported_app _ _ _ _ _ _ Her1 Her2).
  - exists evs1. split; [exact Ht1 |]. split.
    + intros Hcl. destruct (Hcl1 Hcl) as (pre & b & msg & expect & diagnostic & H1 & H2 & H3 & H4).
      inversion H4; subst e. exists pre, b, msg, expect, diagnostic. auto.
    + intros ev Hin He. destruct (Her1 _ Hin He) as (Hopen & msg & Hmsg).
      inversion Hmsg; subst e. eauto.
  - exists evs1. split; [exact Ht1 |]. split.
    + intros Hcl. destruct (Hcl1 Hcl) as (pre & b & msg & expect & diagnostic & _ & _ & _ & H4).
      discriminate H4.
    + intros ev Hin He. destruct (Her1 _ Hin He) as (_ & msg & Hmsg). discriminate Hmsg.
Qed.

(** A step that leaves the socket as it is and does nothing on it. *)
Lemma disciplined_still {A : Type} (m : M A) :
  (forall w r w', m w = (r, w') ->
     closed w' = closed w /\ exists evs, trace w' = trace w ++ evs /\ sockets evs = []) ->
  disciplined reads m.
Proof.
  intros Hm w r w' H Hc. destruct (Hm _ _ _ H) as (Hc' & evs & Ht & Hs).
  exists evs. split; [exact Ht |]. split; [congruence | apply error_reported_quiet; exact Hs].
Qed.

Lemma disciplined_pure {A : Type} (o : outcome A) : disciplined reads (fun w => (o, w)).
Proof.
  apply disciplined_still. intros w r w' H. inversion H; subst.
  split; [reflexivity |]. exists []. rewrite app_nil_r. auto.
Qed.

Lemma disciplined_stderr_write (text : string) : disciplined reads (stderr_write text).
Proof.
  apply disciplined_still. intros w r w' H. inversion H; subst.
  split; [reflexivity |]. exists [EvStderr text]. auto.
Qed.

Lemma disciplined_time_sleep (secs : Z) : disciplined reads (time_sleep secs).
Proof.
  apply disciplined_still. intros w r w' H. inversion H; subst.
  split; [reflexivity |]. exists [EvSleep secs]. auto.
Qed.

Lemma disciplined_update (self : ProgressBar.t) (progress : PyNum.num) :
  disciplined reads (ProgressBar.update self progress).
Proof.
  apply disciplined_still. intros w r w' H.
  pose proof (update_closed self progress w) as Hc.
  destruct (update_trace self progress w) as (pev & Ht & Hs & _).
  rewrite H in Hc, Ht. cbn [snd] in Hc, Ht. split; [exact Hc |]. exists pev. auto.
Qed.

Lemma disciplined_sock_setsockopt (o : sockopt) : disciplined reads (sock_setsockopt o).
Proof.
  intros w r w' H Hc. rewrite sock_setsockopt_run in H by exact Hc. inversion H; subst.
  exists [EvSetsockopt o]. split; [reflexivity |]. split.
  - cbn [closed emit]. congruence.
  - no_transport_error.
Qed.

Lemma disciplined_sock_settimeout (secs : Z) : disciplined reads (sock_settimeout secs).
Proof.
  intros w r w' H Hc. unfold sock_settimeout in H. rewrite Hc in H. inversion H; subst.
  exists [EvSettimeout secs]. split; [reflexivity |]. split.
  - cbn [closed emit]. congruence.
  - no_transport_error.
Qed.

Lemma disciplined_send_check (data : payload) (msg : string) :
  disciplined reads (send_check data msg).
Proof.
  intros w r w' H Hc.
  pose proof (send_check_closed data msg w) as Hcl. rewrite H in Hcl. cbn [snd] in Hcl.
  assert (Hopen : closed w' = false) by congruence.
  unfold send_check, try_except, bind, lift in H. fold (payload_bytes data) in H.
  destruct (payload_bytes_cases data) as [(bytes & Hb) | (Hb & _)]; rewrite Hb in H.
  - destruct (sock_sendall bytes w) as [r0 w0] eqn:E.
    destruct (sock_sendall_cases _ _ _ _ E)
      as [(-> & _ & _ & Ht) | (err & evs & -> & Ht & Hevs)].
    + inversion H; subst. exists [EvSend bytes]. split; [exact Ht |].
      split; [congruence | no_transport_error].
    + cbn in H. inversion H; subst. exists evs. split; [exact Ht |]. split; [congruence |].
      intros ev _ _. eauto.
  - cbn in H. inversion H; subst. exists []. rewrite app_nil_r.
    split; [reflexivity |]. split; [congruence | no_transport_error].
Qed.

(** The read loop never closes the socket, and reports the error of a
    [recv] as an [OTAError]. *)
Lemma receive_rest_reports (amount : Z) (msg : string) (decode : bool) (fuel : nat) :
  forall (data : list Z) (w : world) (r : outcome (list Z)) (w' : world),
    receive_rest fuel amount msg decode data w = (r, w') ->
    closed w = false ->
    closed w' = false
    /\ exists evs, trace w' = trace w ++ evs /\ error_reported evs r false.
Proof.
  induction fuel as [| fuel IH]; intros data w r w' H Hc; rewrite receive_rest_unfold in H;
    destruct (Z.ltb_spec (len data) amount) as [Hlt | _];
    try (inversion H; subst; split; [exact Hc |]; exists []; rewrite app_nil_r;
         split; [reflexivity | no_transport_error]).
  apply bind_inv in H.
  destruct H as [(data1 & w1 & E & H) | [(e & E & ->) | (E & ->)]];
    destruct (read_more_spec _ _ _ _ _ _ _ E Hc ltac:(lia))
      as (Hc1 & _ & [(more & Hr & Ht & _) | (err & Hr & Ht)]);
    try discriminate Hr.
  - destruct (IH _ _ _ _ H Hc1) as (Hc' & evs & Ht2 & Her). split; [exact Hc' |].
    exists ([EvRecv (amount - len data) more] ++ evs).
    rewrite Ht2, Ht, <- app_assoc. split; [reflexivity |].
    apply (error_reported_app _ _ data1 _ false); [no_transport_error | exact Her].
  - split; [exact Hc1 |].
    exists [EvRecvErr (amount - len data) err]. split; [exact Ht |].
    intros ev _ _. inversion Hr. eauto.
Qed.

Lemma receive_exactly_reports (fuel : nat) (amount : Z) (msg : string) (expect : expect_arg)
    (decode : bool) (w : world) (r : outcome (list Z)) (w' : world) :
  receive_exactly fuel amount msg expect decode w = (r, w') ->
  closed w = false ->
  exists evs, trace w' = trace w ++ evs /\ error_reported evs r (closed w').
Proof.
  intros H Hc. rewrite receive_exactly_unfold in H.
  apply bind_inv in H.
  destruct H as [(data1 & w1 & E & H) | [(e & E & ->) | (E & ->)]];
    destruct (read_more_spec _ _ _ _ _ _ _ E Hc ltac:(lia))
      as (Hc1 & _ & [(more & Hr & Ht & _) | (err & Hr & Ht)]);
    try discriminate Hr.
  - apply bind_inv in H.
    destruct H as [([] & w2 & E2 & H) | [(e & E2 & ->) | (E2 & ->)]];
      unfold try_except, lift in E2;
      destruct (check_error data1 expect) as [[] | e0 |] eqn:Hchk;
      try discriminate E2.
    + inversion E2; subst w2.
      destruct (receive_rest_reports _ _ _ _ _ _ _ _ H Hc1) as (Hc' & evs & Ht2 & Her).
      exists ([EvRecv 1 more] ++ evs). rewrite Ht2, Ht, <- app_assoc.
      split; [reflexivity |]. rewrite Hc'.
      apply (error_reported_app _ _ tt _ false); [no_transport_error | exact Her].
    + exfalso. destruct e0; cbn in E2; discriminate E2.
    + destruct e0; cbn in E2; inversion E2; subst;
        try (exists [EvRecv 1 more]; split; [exact Ht | no_transport_error]).
      exists ([EvRecv 1 more] ++ [EvClose]). rewrite trace_emit. cbn [trace].
      rewrite Ht, <- app_assoc. split; [reflexivity | no_transport_error].
    + exfalso. destruct e0; cbn in E2; discriminate E2.
    + exfalso. exact (check_error_total _ _ Hchk).
  - exists [EvRecvErr 1 err]. split; [exact Ht |].
    intros ev _ _. inversion Hr. eauto.
Qed.

Lemma disciplined_receive_exactly (fuel : nat) (amount : Z) (msg : string)
    (expect : expect_arg) (decode : bool) :
  In (msg, expect) reads ->
  1 <= amount ->
  disciplined reads (receive_exactly fuel amount msg expect decode).
Proof.
  intros Hin Ha w r w' H Hc.
  destruct (receive_exactly_reports _ _ _ _ _ _ _ _ H Hc) as (evs & Ht & Her).
  exists evs. split; [exact Ht |]. split; [| exact Her].
  intros Hcl.
  destruct (receive_exactly_spec _ _ _ _ _ _ _ _ H Hc Ha) as (evs' & Ht' & _ & _ & Hres).
  assert (evs' = evs) by (rewrite Ht in Ht'; apply app_inv_head in Ht'; auto). subst evs'.
  destruct r as [data | e |].
  - destruct Hres as (_ & _ & Hopen & _). congruence.
  - destruct Hres as [(b & m & _ & Hchk & -> & _ & ->) | (Hopen & _)]; [| congruence].
    exists [], b, msg, expect, m. auto.
  - destruct Hres as (Hopen & _). congruence.
Qed.

(** The [try] block around a chunk: [sendall] and the read of the
    acknowledgement. *)
Lemma disciplined_send_chunk (rfuel : nat) (version : Z) (chunk : list Z) :
  In ("chunk OK", ExpCode RESPONSE_CHUNK_OK) reads ->
  disciplined reads (send_chunk rfuel version chunk).
Proof.
  intros Hin w r w' H Hc. unfold send_chunk, try_except in H.
  destruct (bind (sock_sendall chunk) _ w) as [r0 w0] eqn:E.
  apply bind_inv in E.
  destruct E as [([] & w1 & Es & E) | [(e0 & Es & ->) | (Es & ->)]];
    destruct (sock_sendall_cases _ _ _ _ Es)
      as [(Hr & _ & Hc1 & Ht1) | (err & evs & Hr & Ht1 & Hevs)];
    try discriminate Hr.
  - (* the chunk went out *)
    assert (Hsend : error_reported [EvSend chunk] (Ok tt) false) by no_transport_error.
    destruct (OTA_VERSION_2_0 <=? version).
    + assert (Hd : disciplined reads
                     (receive_exactly rfuel 1 "chunk OK" (ExpCode RESPONSE_CHUNK_OK) true ;;
                      ret tt)).
      { apply disciplined_bind; [| intros; apply disciplined_pure].
        apply disciplined_receive_exactly; [exact Hin | lia]. }
      destruct (Hd _ _ _ E Hc1) as (evs2 & Ht2 & Hcl2 & Her2).
      assert (r = r0 /\ w' = w0) as [-> ->].
      { destruct r0 as [[] | e0 |]; try (inversion H; auto).
        apply bind_inv in E.
        destruct E as [(d & w2 & _ & E) | [(e1 & E & He) | (_ & He)]];
          [discriminate E | | discriminate He].
        inversion He; subst e1.
        destruct (receive_exactly_raises _ _ _ _ _ _ _ _ E)
          as [(-> & _) | [(m & ->) | [(b & m & _ & -> & _) | (m & ->)]]];
          cbn in H; inversion H; auto. }
      exists ([EvSend chunk] ++ evs2). rewrite Ht2, Ht1, <- app_assoc.
      split; [reflexivity |]. split.
      * intros Hcl. apply closed_on_refusal_app. auto.
      * exact (error_reported_app _ _ _ _ _ _ Hsend Her2).
    + inversion E; subst. inversion H; subst.
      exists [EvSend chunk]. split; [exact Ht1 |]. split; [congruence |].
      rewrite Hc1. exact Hsend.
  - (* [sendall] failed *)
    inversion Hr; subst e0. cbn in H. inversion H; subst.
    assert (Hc0 : closed w0 = false).
    { destruct (sock_sendall_spec _ _ _ _ Es) as (Hcc & _). congruence. }
    exists (evs ++ [EvStderr ProgressBar.LF]).
    rewrite trace_emit, Ht1, <- app_assoc. split; [reflexivity |]. split.
    + cbn [closed emit]. congruence.
    + intros ev _ _. cbn [closed emit]. eauto.
Qed.

Lemma disciplined_transfer_loop (rfuel : nat) (version : Z) (upload : list Z) (fuel : nat) :
  In ("chunk OK", ExpCode RESPONSE_CHUNK_OK) reads ->
  forall (offset : Z) (pb : ProgressBar.t),
    disciplined reads (transfer_loop rfuel fuel version upload offset pb).
Proof.
  intros Hin.
  induction fuel as [| fuel IH]; intros offset pb; [apply disciplined_pure |].
  rewrite transfer_loop_unfold.
  destruct (slice upload offset (offset + UPLOAD_BLOCK_SIZE)); [apply disciplined_pure |].
  cbv zeta.
  apply disciplined_bind; [apply disciplined_send_chunk; exact Hin |]. intros _.
  apply disciplined_bind; [apply disciplined_pure |]. intros fraction.
  apply disciplined_bind; [apply disciplined_update |]. intros pb1. apply IH.
Qed.

End Discipline.

Create HintDb disciplined.
#[local] Hint Resolve disciplined_pure disciplined_stderr_write disciplined_time_sleep
  disciplined_sock_setsockopt disciplined_sock_settimeout disciplined_send_check
  : disciplined.

Ltac disciplined_step :=
  first
    [ solve [auto with disciplined]
    | match goal with
      | |- disciplined _ (bind _ _) => apply disciplined_bind; [| intros]
      end
    | match goal with
      | |- disciplined _ (if ?c then _ else _) => destruct c
      | |- disciplined _ (receive_exactly _ _ _ _ _) =>
          apply disciplined_receive_exactly; [cbn; auto 20 | lia]
      | |- disciplined _ (lift _) => apply disciplined_pure
      | |- disciplined _ (raise _) => apply disciplined_pure
      | |- disciplined _ (ret _) => apply disciplined_pure
      | |- disciplined _ (ProgressBar.done _) => apply disciplined_stderr_write
      | |- disciplined _ (transfer_loop _ _ _ _ _ _) =>
          apply disciplined_transfer_loop; cbn; auto 20
      end ].

Lemma disciplined_perform_ota (gz : list Z -> list Z) (fuel : nat) (password : string)
    (file_contents : list Z) (random_repr : string) :
  disciplined engine_reads (perform_ota gz fuel password file_contents random_repr).
Proof. unfold perform_ota. cbv zeta. repeat disciplined_step. Qed.

(** What a disciplined computation leaves behind. *)
Lemma disciplined_run {A : Type} (reads : list (string * expect_arg)) (m : M A)
    (w : world) (r : outcome A) (w' : world) :
  disciplined reads m ->
  m w = (r, w') ->
  closed w = false ->
  (closed w' = true -> closed_on_refusal reads (events_since w w') r)
  /\ error_reported (events_since w w') r (closed w').
Proof.
  intros Hm H Hc. destruct (Hm _ _ _ H Hc) as (evs & Ht & Hcl & Her).
  rewrite (events_since_app _ _ _ Ht). auto.
Qed.

(** A [sendall] that fails on the first chunk: the line break, the
    [OTAError], and the socket as it was. *)
Lemma transfer_loop_sendall_fails (rfuel fuel : nat) (version : Z) (b : Z) (upload : list Z)
    (pb : ProgressBar.t) (w : world) (err : string) (rest : list tx_item) :
  closed w = false ->
  tx w = TxErr err :: rest ->
  transfer_loop rfuel (S fuel) version (b :: upload) 0 pb w
  = (Raise (OTAError ("Error sending data: " ++ err)),
     emit (EvStderr ProgressBar.LF)
       (emit (EvSendErr (firstn BLOCK (b :: upload)) err)
          (mkWorld (rx w) rest (closed w) (trace w)))).
Proof.
  intros Hc Ht. rewrite transfer_loop_unfold, slice_block.
  change (skipn (Z.to_nat 0) (b :: upload)) with (b :: upload).
  pose proof BLOCK_pos as Hb.
  destruct (firstn BLOCK (b :: upload)) as [| c0 crest] eqn:Hchunk;
    [destruct BLOCK; [lia | discriminate Hchunk] |].
  cbv zeta. unfold bind at 1. unfold send_chunk, try_except, bind at 1, sock_sendall.
  rewrite Hc, Ht. reflexivity.
Qed.

(** C5, amended.  On a first-byte validation failure [receive_exactly]
    closes the connection before the failure propagates, and that is the
    only failure on which it does; [send_check] never closes it.  After a
    read or send error the connection is still open when the engine
    returns to its caller, whose [finally] clause closes it on every
    exit.  For every run of [perform_ota], and of its transfer loop, on an
    open socket: if the socket is closed at the end, the run ended with
    the read of one byte that the decoder refused and the close, and the
    outcome is the [OTAError] of that refusal; if a [recv] or a [sendall]
    raised anywhere in the run, the socket is open at the end and the
    outcome is an [OTAError].  In the transfer loop a [sendall] that
    raises gives the line break, [Error sending data] and the socket as
    it was. *)
Theorem connection_closed_on_validation_failure_only :
  (forall fuel amount msg expect decode w b bs rest m,
      closed w = false ->
      rx w = Seg b bs :: rest ->
      check_error [b] expect = Raise (OTAError m) ->
      exists w',
        receive_exactly fuel amount msg expect decode w
        = (Raise (OTAError ("Error " ++ msg ++ ": " ++ m)), w')
        /\ closed w' = true
        /\ trace w' = trace w ++ [EvRecv 1 [b]; EvClose])
  /\ (forall fuel amount msg expect decode w e w',
         receive_exactly fuel amount msg expect decode w = (Raise e, w') ->
         closed w = false ->
         1 <= amount ->
         closed w' = true ->
         exists b m,
           check_error [b] expect = Raise (OTAError m)
           /\ events_since w w' = [EvRecv 1 [b]; EvClose])
  /\ (forall data msg w, closed (snd (send_check data msg w)) = closed w)
  /\ (forall gz fuel password file_contents random_repr w,
         fst (run_ota_connected gz fuel password file_contents random_repr w) <> Diverge ->
         closed (snd (run_ota_connected gz fuel password file_contents random_repr w)) = true)
  /\ (forall gz fuel password file_contents random_repr w r w',
         perform_ota gz fuel password file_contents random_repr w = (r, w') ->
         closed w = false ->
         (closed w' = true ->
          exists pre b msg expect diagnostic,
            events_since w w' = pre ++ [EvRecv 1 [b]; EvClose]
            /\ In (msg, expect) engine_reads
            /\ check_error [b] expect = Raise (OTAError diagnostic)
            /\ r = Raise (OTAError ("Error " ++ msg ++ ": " ++ diagnostic)))
         /\ (forall ev,
                In ev (events_since w w') ->
                is_transport_error ev = true ->
                closed w' = false /\ exists msg, r = Raise (OTAError msg)))
  /\ (forall rfuel fuel version upload offset pb w r w',
         transfer_loop rfuel fuel version upload offset pb w = (r, w') ->
         closed w = false ->
         (closed w' = true ->
          exists pre b diagnostic,
            events_since w w' = pre ++ [EvRecv 1 [b]; EvClose]
            /\ check_error [b] (ExpCode RESPONSE_CHUNK_OK) = Raise (OTAError diagnostic)
            /\ r = Raise (OTAError ("Error " ++ "chunk OK" ++ ": " ++ diagnostic)))
         /\ (forall ev,
                In ev (events_since w w') ->
                is_transport_error ev = true ->
                closed w' = false /\ exists msg, r = Raise (OTAError msg)))
  /\ (forall rfuel fuel version b upload pb w err rest,
         closed w = false ->
         tx w = TxErr err :: rest ->
         exists w',
           transfer_loop rfuel (S fuel) version (b :: upload) 0 pb w
           = (Raise (OTAError ("Error sending data: " ++ err)), w')
           /\ closed w' = false
           /\ events_since w w'
              = [EvSendErr (firstn BLOCK (b :: upload)) err; EvStderr ProgressBar.LF]).
Proof.
  split; [| split; [| split; [| split; [| split; [| split]]]]].
  - intros fuel amount msg expect decode w b bs rest m Hc Hrx Hchk.
    eexists. rewrite receive_exactly_unfold. unfold bind at 1.
    rewrite read_more_run by (auto; lia).
    unfold after_recv. rewrite Hrx. cbn [app].
    change (firstn (Z.to_nat 1) (b :: bs)) with [b].
    unfold bind, try_except, lift. rewrite Hchk.
    cbn. split; [reflexivity |]. split; [reflexivity |].
    cbn. rewrite <- app_assoc. reflexivity.
  - intros fuel amount msg expect decode w e w' H Hc Ha Hc'.
    destruct (receive_exactly_spec _ _ _ _ _ _ _ _ H Hc Ha) as (evs & Ht & _ & _ & Hres).
    destruct Hres as [(b & m & _ & Hchk & _ & _ & ->) | (Hopen & _)]; [| congruence].
    exists b, m. split; [exact Hchk |]. apply events_since_app. exact Ht.
  - apply send_check_closed.
  - intros gz fuel password file_contents random_repr w. unfold run_ota_connected.
    destruct (perform_ota gz fuel password file_contents random_repr w) as [[[] | e |] w1];
      cbn; try reflexivity; [destruct e; reflexivity | congruence].
  - intros gz fuel password file_contents random_repr w r w' H Hc.
    exact (disciplined_run _ _ _ _ _ (disciplined_perform_ota _ _ _ _ _) H Hc).
  - intros rfuel fuel version upload offset pb w r w' H Hc.
    destruct (disciplined_run _ _ _ _ _
                (disciplined_transfer_loop [("chunk OK", ExpCode RESPONSE_CHUNK_OK)]
                   rfuel version upload fuel (or_introl eq_refl) offset pb) H Hc)
      as (Hcl & Her).
    split; [| exact Her].
    intros Hc'. destruct (Hcl Hc') as (pre & b & msg & expect & diagnostic & He & Hin & Hchk & Hr).
    destruct Hin as [Hin | []]. inversion Hin; subst msg expect.
    exists pre, b, diagnostic. auto.
  - intros rfuel fuel version b upload pb w err rest Hc Ht. eexists.
    split; [apply transfer_loop_sendall_fails; eassumption |].
    split; [cbn [closed emit]; exact Hc |].
    apply events_since_app. rewrite !trace_emit. cbn [trace].
    rewrite <- app_assoc. reflexivity.
Qed.

Lemma connection_closed_on_validation_failure_only_witness :
  (exists w',
     receive_exactly 2 1 "file checksum" (ExpCode RESPONSE_BIN_MD5_OK) true
       (connect [Seg RESPONSE_ERROR_MD5_MISMATCH []] [])
     = (Raise (OTAError ("Error " ++ "file checksum" ++ ": " ++ MSG_MD5_MISMATCH)), w')
     /\ closed w' = true
     /\ trace w' = [] ++ [EvRecv 1 [RESPONSE_ERROR_MD5_MISMATCH]; EvClose])
  /\ closed
       (snd (run_ota_connected toy_gzip 2 EmptyString [7] "0.5" (connect [RxErr "timed out"] [])))
     = true
  /\ (let run :=
        perform_ota toy_gzip 2 EmptyString [7] "0.5" (connect [] [TxErr "Broken pipe"]) in
      closed (snd run) = false /\ exists msg, fst run = Raise (OTAError msg))
  /\ (let run :=
        transfer_loop 2 2 OTA_VERSION_2_0 [7] 0 ProgressBar.init
          (connect [RxErr "timed out"] []) in
      closed (snd run) = false /\ exists msg, fst run = Raise (OTAError msg))
  /\ (exists w',
        transfer_loop 2 1 OTA_VERSION_2_0 [7; 8] 0 ProgressBar.init
          (connect [] [TxErr "Broken pipe"])
        = (Raise (OTAError ("Error sending data: " ++ "Broken pipe")), w')
        /\ closed w' = false
        /\ events_since (connect [] [TxErr "Broken pipe"]) w'
           = [EvSendErr (firstn BLOCK [7; 8]) "Broken pipe"; EvStderr ProgressBar.LF]).
Proof.
  split; [| split; [| split; [| split]]].
  - apply (proj1 connection_closed_on_validation_failure_only 2%nat 1 "file checksum"
             (ExpCode RESPONSE_BIN_MD5_OK) true
             (connect [Seg RESPONSE_ERROR_MD5_MISMATCH []] [])
             RESPONSE_ERROR_MD5_MISMATCH [] [] MSG_MD5_MISMATCH);
      reflexivity.
  - apply (proj1 (proj2 (proj2 (proj2 connection_closed_on_validation_failure_only)))).
    vm_compute. discriminate.
  - cbv zeta.
    apply (proj2
             (proj1 (proj2 (proj2 (proj2 (proj2 connection_closed_on_validation_failure_only))))
                toy_gzip 2%nat EmptyString [7] "0.5" (connect [] [TxErr "Broken pipe"]) _ _
                (surjective_pairing _) eq_refl)
             (EvSendErr [108; 38; 247; 92; 69] "Broken pipe"));
      [vm_compute; right; left; reflexivity | reflexivity].
  - cbv zeta.
    apply (proj2
             (proj1 (proj2 (proj2 (proj2 (proj2
                       (proj2 connection_closed_on_validation_failure_only)))))
                2%nat 2%nat OTA_VERSION_2_0 [7] 0 ProgressBar.init
                (connect [RxErr "timed out"] []) _ _ (surjective_pairing _) eq_refl)
             (EvRecvErr 1 "timed out"));
      [vm_compute; right; left; reflexivity | reflexivity].
  - apply (proj2 (proj2 (proj2 (proj2 (proj2
                   (proj2 connection_closed_on_validation_failure_only)))))
             2%nat 0%nat OTA_VERSION_2_0 7 [8] ProgressBar.init
             (connect [] [TxErr "Broken pipe"]) "Broken pipe" []);
      reflexivity.
Defined.
